(** * NFL analytics data pipeline: extraction, validation, planning,
      aggregation, scoring and consensus merge

    A shallow embedding of the medallion ETL pipeline under
    [data-pipeline/], then its properties.

    The embedding:
    - [Frame]: the tabular batches (pandas / polars data frames) the
      pipeline passes around, with the column reducers it uses;
    - [BaseExtractor]: [extractors/base_extractor.py], the retry loop and
      the structured outcome of one extraction run;
    - [NFLverseExtractor]: [extractors/nflverse_extractor.py], the
      validator and the incremental planner;
    - [StatsAggregator]: [transformers/aggregator.py], the week and
      season roll-ups and the derived efficiency ratios;
    - [ConsensusAggregator]: [transformers/consensus_aggregator.py], the
      fantasy-point formulas and the consensus merge with its confidence
      rating;
    - [Scenarios]: the batches and providers the examples run on;
    - [Cells]: relations between cells and between batches that the
      statements use;
    - [Config]: [extractors/config.py], the configured seasons;
    - [ExtractionReport]: the report of a run and the extractor's
      metadata, with the two clock readings of a run;
    - [GameLevel]: the roll-up of plays to games;
    - [FantasyCalculator]: [transformers/fantasy_calculator.py], the
      three scoring systems and the check of stored points;
    - [Examples]: more batches the examples run on;
    - [PlayByPlay]: the play-by-play download of
      [extractors/nflverse_extractor.py] and its cache;
    - [BoomBust]: [analytics/boom_bust.py], the boom and bust rates and
      the labels drawn from them;
    - [TargetShare]: [analytics/target_share.py], the shares of the
      team totals and the opportunity score;
    - [Downloads], [Receivers], [Profiles]: what their examples run on.

    The properties: [FrameFacts], [BaseExtractorFacts], [ValidatorFacts],
    [PlannerFacts], [AggregatorFacts], [ConsensusFacts], [ScopeFacts],
    [ReportFacts], [RevalidationFacts], [GameLevelFacts],
    [RoundingFacts], [GoldFacts], [FantasyCalculatorFacts],
    [PlayByPlayFacts], [BoomBustFacts], [TargetShareFacts].

    Numbers.  The source computes on IEEE doubles; the embedding computes
    on exact rationals ([Q]).  A missing value (pandas [NaN] / [None],
    polars [null]) is [VNull]; the non-finite result of a float division
    by zero is also read as [VNull].  Log lines are left out; the clock
    is read by the caller and passed in. *)

From Stdlib Require Import List String ZArith QArith Qround Bool Lia Lqa.
From Stdlib Require Import Setoid Morphisms Sorted DecimalString.
Import ListNotations.

Local Open Scope string_scope.
Local Open Scope list_scope.
Local Open Scope Z_scope.
Local Open Scope Q_scope.

(** Outcome of a call that may raise: [Raise e] carries [str(e)]. *)
Inductive result (A : Type) : Type :=
| Ok (a : A)
| Raise (e : string).
Arguments Ok {A} a.
Arguments Raise {A} e.

(* ================================================================= *)
(** * Data frames *)

Module Frame.

(** One cell of a batch. *)
Inductive value : Type :=
| VNull
| VNum (q : Q)
| VStr (s : string).

(** A record of a batch, read by column name. *)
Definition row : Type := string -> value.

(** [df.columns] and the records of [df], in index order. *)
Record DataFrame : Type := mkDF {
  columns : list string;
  rows : list row
}.

(** [pd.DataFrame()] *)
Definition empty_frame : DataFrame := mkDF [] [].

(** [col in df.columns] *)
Definition has_col (c : string) (df : DataFrame) : bool :=
  existsb (String.eqb c) (columns df).

(** [len(df)] *)
Definition len (df : DataFrame) : nat := List.length (rows df).

(** [df.empty]: some axis has length 0. *)
Definition empty (df : DataFrame) : bool :=
  match columns df, rows df with
  | [], _ => true
  | _, [] => true
  | _, _ => false
  end.

(** [df[mask]] with the mask computed row by row. *)
Definition select (p : row -> bool) (df : DataFrame) : DataFrame :=
  mkDF (columns df) (filter p (rows df)).

(** [r] with column [c] set to [v]. *)
Definition upd (r : row) (c : string) (v : value) : row :=
  fun c' => if String.eqb c' c then v else r c'.

(** [df[c] = ...], the new cell computed from each record. *)
Definition with_column (c : string) (f : row -> value) (df : DataFrame)
  : DataFrame :=
  mkDF (if has_col c df then columns df else columns df ++ [c])
       (map (fun r => upd r c (f r)) (rows df)).

(** A record given by its cells; an absent column reads as null. *)
Fixpoint lookup (l : list (string * value)) (c : string) : value :=
  match l with
  | [] => VNull
  | (k, v) :: l' => if String.eqb c k then v else lookup l' c
  end.

Definition row_of (l : list (string * value)) : row := lookup l.

(** ** Elementwise tests.  A comparison with a missing value is False,
    as for [NaN] in pandas.  Temporal and measurement columns are of a
    numeric dtype; a string there compares False as well. *)

Definition isnull (v : value) : bool :=
  match v with VNull => true | _ => false end.

Definition notna (v : value) : bool := negb (isnull v).

Definition Qltb (a b : Q) : bool :=
  match a ?= b with Lt => true | _ => false end.

(** [v < b] *)
Definition lt (v : value) (b : Q) : bool :=
  match v with VNum q => Qltb q b | _ => false end.

(** [v > b] *)
Definition gt (v : value) (b : Q) : bool :=
  match v with VNum q => Qltb b q | _ => false end.

(** [v <= b] *)
Definition le (v : value) (b : Q) : bool :=
  match v with VNum q => negb (Qltb b q) | _ => false end.

(** [v >= b] *)
Definition ge (v : value) (b : Q) : bool :=
  match v with VNum q => negb (Qltb q b) | _ => false end.

(** Equality of two cells as group or duplicate keys: numbers by value,
    two missing values alike. *)
Definition value_compare (a b : value) : comparison :=
  match a, b with
  | VNull, VNull => Eq
  | VNull, _ => Lt
  | _, VNull => Gt
  | VNum x, VNum y => x ?= y
  | VNum _, VStr _ => Lt
  | VStr _, VNum _ => Gt
  | VStr s, VStr t => String.compare s t
  end.

Fixpoint key_compare (k1 k2 : list value) : comparison :=
  match k1, k2 with
  | [], [] => Eq
  | [], _ :: _ => Lt
  | _ :: _, [] => Gt
  | a :: k1', b :: k2' =>
      match value_compare a b with
      | Eq => key_compare k1' k2'
      | c => c
      end
  end.

Definition key_eqb (k1 k2 : list value) : bool :=
  match key_compare k1 k2 with Eq => true | _ => false end.

(** The cells of [r] under the columns [cols]. *)
Definition key_of (cols : list string) (r : row) : list value :=
  map r cols.

(** ** Rounding: [.round(2)], to the nearest hundredth, ties to even. *)

Definition round_half_even (x : Q) : Z :=
  let f := Qfloor x in
  match ((x - inject_Z f) ?= (1 # 2))%Q with
  | Lt => f
  | Gt => (f + 1)%Z
  | Eq => if Z.even f then f else (f + 1)%Z
  end.

Definition round2 (x : Q) : Q := Qred (round_half_even (x * 100) # 100).

Definition vround2 (v : value) : value :=
  match v with VNum q => VNum (round2 q) | _ => v end.

(** ** Column reducers over a list of records (one group, or a whole
    batch).  All of them skip missing values, as pandas does. *)

(** The number read from a cell by a sum: a missing value adds 0. *)
Definition num_of (v : value) : Q :=
  match v with VNum q => q | _ => 0 end.

(** The non-missing numbers of column [c]. *)
Fixpoint nums (c : string) (rs : list row) : list Q :=
  match rs with
  | [] => []
  | r :: rs' =>
      match r c with
      | VNum q => q :: nums c rs'
      | _ => nums c rs'
      end
  end.

Fixpoint Qsum (l : list Q) : Q :=
  match l with
  | [] => 0
  | x :: l' => x + Qsum l'
  end.

(** ['sum'] *)
Definition col_sum (c : string) (rs : list row) : Q :=
  Qsum (map (fun r => num_of (r c)) rs).

(** ['count']: the non-missing cells. *)
Definition col_count (c : string) (rs : list row) : nat :=
  List.length (filter (fun r => notna (r c)) rs).

(** ['mean'] *)
Definition Qmean (l : list Q) : value :=
  match l with
  | [] => VNull
  | _ => VNum (Qsum l / inject_Z (Z.of_nat (List.length l)))
  end.

Definition col_mean (c : string) (rs : list row) : value :=
  Qmean (nums c rs).

Definition Qmaxq (a b : Q) : Q := if Qltb a b then b else a.
Definition Qminq (a b : Q) : Q := if Qltb b a then b else a.

(** ['max'] and ['min'] *)
Definition Qmaximum (l : list Q) : value :=
  match l with
  | [] => VNull
  | x :: l' => VNum (fold_left Qmaxq l' x)
  end.

Definition Qminimum (l : list Q) : value :=
  match l with
  | [] => VNull
  | x :: l' => VNum (fold_left Qminq l' x)
  end.

Definition col_max (c : string) (rs : list row) : value :=
  Qmaximum (nums c rs).

Definition col_min (c : string) (rs : list row) : value :=
  Qminimum (nums c rs).

(** ['nunique']: the distinct non-missing cells. *)
Fixpoint distinct (seen : list value) (vs : list value) : list value :=
  match vs with
  | [] => seen
  | v :: vs' =>
      if isnull v || existsb (fun w => key_eqb [v] [w]) seen
      then distinct seen vs'
      else distinct (seen ++ [v]) vs'
  end.

Definition col_nunique (c : string) (rs : list row) : nat :=
  List.length (distinct [] (map (fun r => r c) rs)).

(** ['first']: the first non-missing cell. *)
Fixpoint col_first (c : string) (rs : list row) : value :=
  match rs with
  | [] => VNull
  | r :: rs' => if isnull (r c) then col_first c rs' else r c
  end.

(** ['any'] on a flag column (a flag is the number 1 or 0). *)
Definition col_any (c : string) (rs : list row) : value :=
  VNum (if existsb (fun r => gt (r c) 0) rs then 1 else 0).

(** ['std']: the sample standard deviation (one delta degree of
    freedom), missing with fewer than two numbers.  The value is kept
    through its square, the sample variance; [sqrt_round2] below takes
    the root and rounds it in one exact step. *)
Definition sample_var (l : list Q) : option Q :=
  match l with
  | [] | [_] => None
  | _ =>
      let n := inject_Z (Z.of_nat (List.length l)) in
      let m := Qsum l / n in
      Some (Qsum (map (fun x => (x - m) * (x - m)) l) / (n - 1))
  end.

(** [round(sqrt(v), 2)] for [v >= 0]: with [n = floor (100 * sqrt v)],
    the root is compared with [n + 1/2] through the squares. *)
Definition sqrt_round2 (v : Q) : Q :=
  let x := v * 10000 in
  let n := Z.sqrt (Qfloor x) in
  let h := (inject_Z n + (1 # 2)) * (inject_Z n + (1 # 2)) in
  let k := match x ?= h with
           | Lt => n
           | Gt => (n + 1)%Z
           | Eq => if Z.even n then n else (n + 1)%Z
           end in
  Qred (k # 100).

(** ['std'] followed by [.round(2)] *)
Definition col_std_round2 (c : string) (rs : list row) : value :=
  match sample_var (nums c rs) with
  | None => VNull
  | Some v => VNum (sqrt_round2 v)
  end.

(** ** [groupby]: the records are split by the cells of the key
    columns; a record with a missing key cell belongs to no group
    ([dropna=True], the default); groups come out sorted by key. *)

Definition group : Type := (list value * list row)%type.

Fixpoint insert_group (k : list value) (r : row) (gs : list group)
  : list group :=
  match gs with
  | [] => [(k, [r])]
  | (k', rs) :: gs' =>
      match key_compare k k' with
      | Lt => (k, [r]) :: (k', rs) :: gs'
      | Eq => (k', rs ++ [r]) :: gs'
      | Gt => (k', rs) :: insert_group k r gs'
      end
  end.

Definition has_null_key (cols : list string) (r : row) : bool :=
  existsb (fun c => isnull (r c)) cols.

Fixpoint groups_of (cols : list string) (rs : list row) (acc : list group)
  : list group :=
  match rs with
  | [] => acc
  | r :: rs' =>
      if has_null_key cols r then groups_of cols rs' acc
      else groups_of cols rs' (insert_group (key_of cols r) r acc)
  end.

Definition groupby (cols : list string) (df : DataFrame) : list group :=
  groups_of cols (rows df) [].

(** The records of [rs] with no missing key cell, the ones [groupby]
    places in a group. *)
Definition complete (cols : list string) (rs : list row) : list row :=
  filter (fun r => negb (has_null_key cols r)) rs.

(** No name of [l1] is in [l2]. *)
Definition disjointb (l1 l2 : list string) : bool :=
  forallb (fun a => negb (existsb (String.eqb a) l2)) l1.

(** The record an aggregation makes of one group: the key cells under
    the key columns, then the reduced cells. *)
Definition group_row (cols : list string)
  (cells : list row -> list (string * value)) (g : group) : row :=
  let (k, rs) := g in row_of (combine cols k ++ cells rs).

End Frame.

(* ================================================================= *)
(** * The extraction controller ([extractors/base_extractor.py]) *)

Module BaseExtractor.
Import Frame.

(** The [status] of the dictionary [run_extraction] returns. *)
Inductive Status : Type :=
| success
| no_data
| validation_failed
| load_failed
| error.

(** The entries of [self.errors]: the dictionary appended by a failed
    attempt, the one appended when the run itself raises, and the
    validation issues [run_extraction] extends the list with. *)
Inductive ErrorEntry (Issue : Type) : Type :=
| AttemptError (attempt : nat) (err : string)
| StageError (stage : string) (err : string)
| ValidationError (issue : Issue).
Arguments AttemptError {Issue} attempt err.
Arguments StageError {Issue} stage err.
Arguments ValidationError {Issue} issue.

(** The mutable fields of an extractor.  [calls] and [slept] are not
    fields of the source: they count the calls of [self.extract] and of
    [time.sleep(self.retry_delay)] made so far. *)
Record Extractor (Issue : Type) : Type := mkExtractor {
  records_extracted : nat;
  records_failed : nat;
  errors : list (ErrorEntry Issue);
  calls : nat;
  slept : nat
}.
Arguments mkExtractor {Issue} _ _ _ _ _.
Arguments records_extracted {Issue} _.
Arguments records_failed {Issue} _.
Arguments errors {Issue} _.
Arguments calls {Issue} _.
Arguments slept {Issue} _.

Section Controller.

Variable Issue : Type.

(** [self.max_retries] *)
Variable max_retries : nat.

(** The abstract [extract]: what its [k]-th call does (counted from 0):
    it raises, or returns [None] or a frame. *)
Variable extract : nat -> result (option DataFrame).

(** The abstract [validate]. *)
Variable validate : DataFrame -> result (DataFrame * list Issue).

(** [self.db_manager.insert_dataframe(data, table, 'bronze')]: [false]
    when it raises. *)
Variable insert_dataframe : DataFrame -> bool.

(** [datetime.now()] as stored in the [ingested_at] column. *)
Variable now : value.

Definition call (st : Extractor Issue) : Extractor Issue :=
  mkExtractor (records_extracted st) (records_failed st) (errors st)
              (S (calls st)) (slept st).

Definition append_error (e : ErrorEntry Issue) (st : Extractor Issue)
  : Extractor Issue :=
  mkExtractor (records_extracted st) (records_failed st) (errors st ++ [e])
              (calls st) (slept st).

Definition sleep (st : Extractor Issue) : Extractor Issue :=
  mkExtractor (records_extracted st) (records_failed st) (errors st)
              (calls st) (S (slept st)).

(** The body of [for attempt in range(self.max_retries)], with [n]
    iterations left. *)
Fixpoint retry_loop (n attempt : nat) (st : Extractor Issue)
  : Extractor Issue * option DataFrame :=
  match n with
  | O => (st, None)
  | S n' =>
      match extract (calls st) with
      | Ok (Some data) =>
          if negb (empty data) then (call st, Some data)
          else retry_loop n' (S attempt) (call st)
      | Ok None => retry_loop n' (S attempt) (call st)
      | Raise e =>
          let st1 := append_error (AttemptError (attempt + 1) e) (call st) in
          let st2 := if (attempt <? max_retries - 1)%nat then sleep st1
                     else st1 in
          retry_loop n' (S attempt) st2
      end
  end.

Definition extract_with_retry (st : Extractor Issue)
  : Extractor Issue * option DataFrame :=
  retry_loop max_retries 0 st.

Definition load_to_bronze (data : DataFrame) (st : Extractor Issue)
  : Extractor Issue * bool :=
  let data := with_column "ingested_at" (fun _ => now) data in
  if insert_dataframe data then
    (mkExtractor (records_extracted st + len data) (records_failed st)
                 (errors st) (calls st) (slept st), true)
  else
    (mkExtractor (records_extracted st) (records_failed st + len data)
                 (errors st) (calls st) (slept st), false).

Definition extend_errors (l : list Issue) (st : Extractor Issue)
  : Extractor Issue :=
  mkExtractor (records_extracted st) (records_failed st)
              (errors st ++ map ValidationError l) (calls st) (slept st).

(** [run_extraction]: the final state and the reported status. *)
Definition run_extraction (st : Extractor Issue) : Extractor Issue * Status :=
  let (st1, data) := extract_with_retry st in
  match data with
  | None => (st1, no_data)
  | Some data =>
      if empty data then (st1, no_data)
      else
        match validate data with
        | Raise e => (append_error (StageError "extraction" e) st1, error)
        | Ok (validated_data, validation_errors) =>
            let st2 := match validation_errors with
                       | [] => st1
                       | _ => extend_errors validation_errors st1
                       end in
            if empty validated_data then (st2, validation_failed)
            else
              let (st3, ok) := load_to_bronze validated_data st2 in
              if ok then (st3, success) else (st3, load_failed)
        end
  end.

(** ** What a run of attempts leaves behind *)

(** An attempt that ends without data in hand: it raised, or returned
    [None] or an empty frame. *)
Definition without_data (o : result (option DataFrame)) : bool :=
  match o with
  | Ok (Some data) => empty data
  | Ok None => true
  | Raise _ => true
  end.

Definition raised (o : result (option DataFrame)) : bool :=
  match o with Raise _ => true | _ => false end.

Definition message (o : result (option DataFrame)) : string :=
  match o with Raise e => e | _ => "" end.

(** The state after one attempt, numbered [attempt], that ended
    without data. *)
Definition after_attempt (attempt : nat) (st : Extractor Issue)
  : Extractor Issue :=
  match extract (calls st) with
  | Raise e =>
      let st1 := append_error (AttemptError (attempt + 1) e) (call st) in
      if (attempt <? max_retries - 1)%nat then sleep st1 else st1
  | _ => call st
  end.

Fixpoint after_attempts (k attempt : nat) (st : Extractor Issue)
  : Extractor Issue :=
  match k with
  | O => st
  | S k' => after_attempts k' (S attempt) (after_attempt attempt st)
  end.

(** The failures [k] attempts append to [self.errors], and the delays
    they take, from attempt number [attempt] and call number [c] on. *)
Fixpoint failures (k attempt c : nat) : list (ErrorEntry Issue) :=
  match k with
  | O => []
  | S k' =>
      match extract c with
      | Raise e => [AttemptError (attempt + 1) e]
      | _ => []
      end ++ failures k' (S attempt) (S c)
  end.

Fixpoint delays (k attempt c : nat) : nat :=
  match k with
  | O => O
  | S k' =>
      (if raised (extract c) && (attempt <? max_retries - 1)%nat
       then 1 else 0)%nat + delays k' (S attempt) (S c)
  end.

End Controller.

End BaseExtractor.

(* ================================================================= *)
(** * The validator and the incremental planner
      ([extractors/nflverse_extractor.py]) *)

Module NFLverseExtractor.
Import Frame.

(** ** [validate] *)

(** The messages [validate] appends to [errors], by their format:
    - ["Missing required columns: {missing_cols}"]
    - ["Removed {n} duplicate plays"]
    - ["Found {n} records with invalid seasons"]
    - ["Found {n} records with invalid weeks"]
    - ["Found {null_count} null values in {col}"]
    - ["Found {n} records with {col} out of range [{min_val}, {max_val}]"] *)
Inductive Issue : Type :=
| MissingRequiredColumns (missing_cols : list string)
| RemovedDuplicatePlays (n : nat)
| InvalidSeasons (n : nat)
| InvalidWeeks (n : nat)
| NullValues (null_count : nat) (col : string)
| OutOfRange (n : nat) (col : string) (min_val max_val : Q).

(** [validated_df] and [errors] as the steps of [validate] thread them. *)
Definition vstate : Type := (DataFrame * list Issue)%type.

Definition required_cols (data : DataFrame) : list string :=
  if has_col "play_id" data then ["game_id"; "play_id"; "season"; "week"]
  else if has_col "player_id" data then ["player_id"; "season"; "week"]
  else ["season"].

Definition missing_cols (data : DataFrame) : list string :=
  filter (fun col => negb (has_col col data)) (required_cols data).

(** [drop_duplicates(subset=cols)]: the first record of each key stays. *)
Fixpoint drop_duplicates (cols : list string) (seen : list (list value))
  (rs : list row) : list row :=
  match rs with
  | [] => []
  | r :: rs' =>
      let k := key_of cols r in
      if existsb (key_eqb k) seen then drop_duplicates cols seen rs'
      else r :: drop_duplicates cols (k :: seen) rs'
  end.

Definition remove_duplicates (s : vstate) : vstate :=
  let (df, errors) := s in
  if has_col "play_id" df && has_col "game_id" df then
    let original_len := len df in
    let df' := mkDF (columns df)
                    (drop_duplicates ["game_id"; "play_id"] [] (rows df)) in
    if (len df' <? original_len)%nat
    then (df', errors ++ [RemovedDuplicatePlays (original_len - len df')])
    else (df', errors)
  else s.

Definition season_invalid (current_year : Z) (r : row) : bool :=
  lt (r "season") 2000 || gt (r "season") (inject_Z current_year + 1).

Definition season_valid (current_year : Z) (r : row) : bool :=
  ge (r "season") 2000 && le (r "season") (inject_Z current_year + 1).

Definition check_seasons (current_year : Z) (s : vstate) : vstate :=
  let (df, errors) := s in
  if has_col "season" df then
    let invalid_seasons := select (season_invalid current_year) df in
    if negb (empty invalid_seasons)
    then (select (season_valid current_year) df,
          errors ++ [InvalidSeasons (len invalid_seasons)])
    else s
  else s.

Definition week_invalid (r : row) : bool :=
  lt (r "week") 1 || gt (r "week") 22.

Definition week_valid (r : row) : bool :=
  ge (r "week") 1 && le (r "week") 22.

Definition check_weeks (s : vstate) : vstate :=
  let (df, errors) := s in
  if has_col "week" df then
    let invalid_weeks := select week_invalid df in
    if negb (empty invalid_weeks)
    then (select week_valid df, errors ++ [InvalidWeeks (len invalid_weeks)])
    else s
  else s.

(** One turn of [for col in required_cols]. *)
Definition check_null (s : vstate) (col : string) : vstate :=
  let (df, errors) := s in
  let null_count := List.length (filter (fun r => isnull (r col)) (rows df)) in
  if (0 <? null_count)%nat
  then (select (fun r => notna (r col)) df,
        errors ++ [NullValues null_count col])
  else s.

Definition check_nulls (cols : list string) (s : vstate) : vstate :=
  fold_left check_null cols s.

Definition numeric_validations : list (string * (Q * Q)) :=
  [ ("yards_gained", (-99, 99));
    ("air_yards", (-99, 99));
    ("yards_after_catch", (0, 99));
    ("fantasy_points_ppr", (-10, 100)) ].

Definition out_of_range (col : string) (min_val max_val : Q) (r : row)
  : bool :=
  lt (r col) min_val || gt (r col) max_val.

(** The two [.loc[...] = bound] assignments, one after the other. *)
Definition cap (col : string) (min_val max_val : Q) (r : row) : row :=
  let r1 := if lt (r col) min_val then upd r col (VNum min_val) else r in
  if gt (r1 col) max_val then upd r1 col (VNum max_val) else r1.

(** One turn of [for col, (min_val, max_val) in numeric_validations.items()]. *)
Definition check_range (s : vstate) (v : string * (Q * Q)) : vstate :=
  let (df, errors) := s in
  let '(col, (min_val, max_val)) := v in
  if has_col col df then
    let out := select (out_of_range col min_val max_val) df in
    if negb (empty out)
    then (mkDF (columns df) (map (cap col min_val max_val) (rows df)),
          errors ++ [OutOfRange (len out) col min_val max_val])
    else s
  else s.

Definition check_ranges (s : vstate) : vstate :=
  fold_left check_range numeric_validations s.

(** The batch as it stands before the numeric columns are looked at. *)
Definition validate_rows (current_year : Z) (data : DataFrame) : vstate :=
  check_nulls (required_cols data)
    (check_weeks (check_seasons current_year (remove_duplicates (data, [])))).

(** [validate], with [datetime.now().year] as [current_year]. *)
Definition validate (current_year : Z) (data : DataFrame) : vstate :=
  match missing_cols data with
  | _ :: _ => (empty_frame, [MissingRequiredColumns (missing_cols data)])
  | [] => check_ranges (validate_rows current_year data)
  end.

(** The step of [validate] an issue comes from, in the order of the
    function's text. *)
Definition stage (i : Issue) : nat :=
  match i with
  | MissingRequiredColumns _ => 1
  | RemovedDuplicatePlays _ => 2
  | InvalidSeasons _ => 3
  | InvalidWeeks _ => 4
  | NullValues _ _ => 5
  | OutOfRange _ _ _ _ => 6
  end.

Definition stage_le (i j : Issue) : Prop := (stage i <= stage j)%nat.

(** An issue list in step order, with no issue from after step [n]. *)
Definition staged (n : nat) (errors : list Issue) : Prop :=
  StronglySorted stage_le errors
  /\ Forall (fun i => (stage i <= n)%nat) errors.

(** A cell brought back into [[min_val, max_val]]. *)
Definition clamp (min_val max_val : Q) (v : value) : value :=
  if lt v min_val then VNum min_val
  else if gt v max_val then VNum max_val
  else v.

(** A record capped on every configured column the batch has. *)
Definition cap_present (df : DataFrame) (r : row) : row :=
  fold_left (fun r v => if has_col (fst v) df
                        then cap (fst v) (fst (snd v)) (snd (snd v)) r
                        else r)
            numeric_validations r.

(** The records of [rs] out of range on [col]. *)
Definition count_out_of_range (col : string) (min_val max_val : Q)
  (rs : list row) : nat :=
  List.length (filter (out_of_range col min_val max_val) rs).

(** ** [extract_incremental] *)

(** What [self.extract(data_type=data_type, ...)] is asked for: [None]
    without the [seasons] argument (every configured season), [Some l]
    with [seasons=l]. *)
Definition request : Type := option (list Z).

(** What the high-water-mark query gives: it raises, or the frame is
    empty, or its first record holds [max_season] and [max_week], each
    possibly null. *)
Definition high_water_mark : Type := result (option (option Z * option Z)).

(** [list(range(a, b))] *)
Definition range (a b : Z) : list Z :=
  map (fun i => (a + Z.of_nat i)%Z) (seq 0 (Z.to_nat (b - a))).

Definition current_season (current_year current_month : Z) : Z :=
  if (9 <=? current_month)%Z then current_year else (current_year - 1)%Z.

Section Planner.

(** [self.extract] for the planner's [data_type]. *)
Variable extract : request -> result DataFrame.

(** A call of [extract], with the request it made. *)
Definition fetch (q : request) : list request * result DataFrame :=
  ([q], extract q).

(** The body of the [try] block. *)
Definition plan (existing_data : high_water_mark)
  (current_year current_month : Z) : list request * result DataFrame :=
  match existing_data with
  | Raise e => ([], Raise e)
  | Ok None => fetch None
  | Ok (Some (None, _)) => fetch None
  | Ok (Some (Some _, None)) =>
      ([], Raise "int() argument must be a string, a bytes-like object or a real number, not 'NoneType'")
  | Ok (Some (Some max_season, Some max_week)) =>
      let current_season := current_season current_year current_month in
      if (max_season <? current_season)%Z then
        fetch (Some (range (max_season + 1) (current_season + 1)))
      else if (max_season =? current_season)%Z && (max_week <? 22)%Z then
        match extract (Some [current_season]) with
        | Ok data =>
            ([Some [current_season]],
             Ok (if has_col "week" data
                 then select (fun r => gt (r "week") (inject_Z max_week)) data
                 else data))
        | Raise e => ([Some [current_season]], Raise e)
        end
      else ([], Ok empty_frame)
  end.

(** [extract_incremental]: the requests made, in order, and the outcome. *)
Definition extract_incremental (force_full : bool)
  (existing_data : high_water_mark) (current_year current_month : Z)
  : list request * result DataFrame :=
  if force_full then fetch None
  else
    match plan existing_data current_year current_month with
    | (made, Ok data) => (made, Ok data)
    | (made, Raise _) => let (again, r) := fetch None in (made ++ again, r)
    end.

End Planner.

End NFLverseExtractor.

(* ================================================================= *)
(** * The roll-ups ([transformers/aggregator.py]) *)

Module StatsAggregator.
Import Frame.

Definition SUM_COLUMNS : list string :=
  [ "passing_attempts"; "completions"; "passing_yards"; "passing_tds";
    "interceptions"; "sacks"; "sack_yards"; "passing_2pt";
    "carries"; "rushing_attempts"; "rushing_yards"; "rushing_tds";
    "rushing_2pt";
    "targets"; "receptions"; "receiving_yards"; "receiving_tds";
    "receiving_2pt";
    "fumbles"; "fumbles_lost";
    "fantasy_points"; "fantasy_points_ppr"; "fantasy_points_half_ppr";
    "red_zone_targets"; "red_zone_carries"; "red_zone_touches";
    "red_zone_tds";
    "air_yards"; "yards_after_catch";
    "touches"; "opportunities" ].

Definition MEAN_COLUMNS : list string :=
  [ "snap_percentage"; "target_share"; "air_yards_share";
    "yards_per_target"; "yards_per_carry"; "catch_rate" ].

Definition MAX_COLUMNS : list string :=
  [ "rushing_long"; "receiving_long"; "passing_long" ].

(** The reducers named in the aggregation dictionaries. *)
Inductive reducer : Type :=
| r_sum
| r_mean
| r_max
| r_count
| r_nunique.

Definition of_nat (n : nat) : value := VNum (inject_Z (Z.of_nat n)).

Definition reduce (f : reducer) (c : string) (rs : list row) : value :=
  match f with
  | r_sum => VNum (col_sum c rs)
  | r_mean => col_mean c rs
  | r_max => col_max c rs
  | r_count => of_nat (col_count c rs)
  | r_nunique => of_nat (col_nunique c rs)
  end.

(** [agg_dict]: output column, then (source column, reducer); the keys
    are distinct, so the list reads as the dictionary does. *)
Definition agg_dict : Type := list (string * (string * reducer)).

(** [[col for col in cols if col in df.columns]] *)
Definition present (df : DataFrame) (cols : list string) : list string :=
  filter (fun col => has_col col df) cols.

Definition agg_cells (d : agg_dict) (rs : list row) : list (string * value) :=
  map (fun e => (fst e, reduce (snd (snd e)) (fst (snd e)) rs)) d.

Definition agg_row (groupby_cols : list string) (d : agg_dict) (g : group)
  : row :=
  group_row groupby_cols (agg_cells d) g.

(** [df.groupby(groupby_cols, as_index=False).agg( **d )].  pandas
    raises without a key column, and on a source column the frame does
    not have. *)
Definition agg (groupby_cols : list string) (d : agg_dict) (df : DataFrame)
  : result DataFrame :=
  match groupby_cols with
  | [] => Raise "No group keys passed!"
  | _ :: _ =>
      if forallb (fun e => has_col (fst (snd e)) df) d
      then Ok (mkDF (groupby_cols ++ map fst d)
                    (map (agg_row groupby_cols d) (groupby groupby_cols df)))
      else Raise "Column(s) do not exist"
  end.

(** ** [_calculate_efficiency_metrics] *)

(** [a / b] on two cells; dividing by 0 gives no finite number. *)
Definition vdiv (a b : value) : value :=
  match a, b with
  | VNum x, VNum y => if Qeq_bool y 0 then VNull else VNum (x / y)
  | _, _ => VNull
  end.

Definition vmul (a : value) (k : Q) : value :=
  match a with VNum x => VNum (x * k) | _ => VNull end.

(** [np.where(cond, a, b)], elementwise: both branches are computed,
    one is picked. *)
Definition np_where (cond : bool) (a b : value) : value :=
  if cond then a else b.

(** [np.where(df[den] > 0, df[num] / df[den], 0).round(2)], the quotient
    times 100 for a percentage. *)
Definition ratio (num den : string) (pct : bool) (r : row) : value :=
  let q := vdiv (r num) (r den) in
  vround2 (np_where (gt (r den) 0) (if pct then vmul q 100 else q) (VNum 0)).

(** One block of [_calculate_efficiency_metrics]: the column written,
    the (numerator, denominator) pairs tried in order ([if] / [elif]),
    and whether the quotient is scaled by 100. *)
Record metric : Type := mkMetric {
  m_name : string;
  m_sources : list (string * string);
  m_pct : bool
}.

Definition METRICS : list metric :=
  [ mkMetric "completion_pct" [("completions", "passing_attempts")] true;
    mkMetric "catch_rate" [("receptions", "targets")] true;
    mkMetric "yards_per_attempt" [("passing_yards", "passing_attempts")] false;
    mkMetric "yards_per_carry"
             [("rushing_yards", "rushing_attempts");
              ("rushing_yards", "carries")] false;
    mkMetric "yards_per_reception" [("receiving_yards", "receptions")] false;
    mkMetric "yards_per_target" [("receiving_yards", "targets")] false;
    mkMetric "passing_td_rate" [("passing_tds", "passing_attempts")] true;
    mkMetric "red_zone_td_rate" [("red_zone_tds", "red_zone_touches")] true ].

(** The first pair of [m] whose two columns are in [df.columns]. *)
Definition source_of (df : DataFrame) (m : metric) : option (string * string) :=
  find (fun p => has_col (fst p) df && has_col (snd p) df) (m_sources m).

(** One block applied to [result_df]; the cells are read from [df]. *)
Definition apply_metric (df : DataFrame) (res : DataFrame) (m : metric)
  : DataFrame :=
  match source_of df m with
  | None => res
  | Some (num, den) =>
      mkDF (if has_col (m_name m) res then columns res
            else columns res ++ [m_name m])
           (map (fun p => upd (snd p) (m_name m) (ratio num den (m_pct m) (fst p)))
                (combine (rows df) (rows res)))
  end.

Definition _calculate_efficiency_metrics (df : DataFrame) : DataFrame :=
  fold_left (apply_metric df) METRICS df.

(** ** The levels *)

Section Levels.

(** [.astype(str)] on one cell. *)
Variable astype_str : value -> string.

Definition key2 (a b : string) (r : row) : value :=
  VStr (astype_str (r a) ++ "_" ++ astype_str (r b))%string.

Definition key3 (a b c : string) (r : row) : value :=
  VStr (astype_str (r a) ++ "_" ++ astype_str (r b) ++ "_"
        ++ astype_str (r c))%string.

Definition week_groupby_cols (df : DataFrame) : list string :=
  present df ["player_id"; "player_name"; "position"; "team"; "season"; "week"].

(** The dictionary of the week level, given the source of
    [games_played] and the summed, averaged and maxed columns. *)
Definition week_dict (games_played : string * reducer)
  (sums means maxes : list string) : agg_dict :=
  ("games_played", games_played)
  :: map (fun col => (col, (col, r_sum))) sums
  ++ map (fun col => (col, (col, r_mean))) means
  ++ map (fun col => (col, (col, r_max))) maxes.

Definition week_agg_dict (df : DataFrame) : agg_dict :=
  week_dict (if has_col "game_id" df then ("game_id", r_nunique)
             else ("player_id", r_count))
            (present df SUM_COLUMNS) (present df MEAN_COLUMNS)
            (present df MAX_COLUMNS).

(** What follows the aggregation: the derived metrics, then the
    composite key. *)
Definition week_finish (week_stats : DataFrame) : DataFrame :=
  let week_stats := _calculate_efficiency_metrics week_stats in
  if forallb (fun col => has_col col week_stats)
             ["player_id"; "season"; "week"]
  then with_column "player_week_key"
                   (key3 "player_id" "season" "week") week_stats
  else week_stats.

Definition aggregate_to_week_level (game_stats_df : DataFrame)
  : result DataFrame :=
  match agg (week_groupby_cols game_stats_df) (week_agg_dict game_stats_df)
            game_stats_df with
  | Raise e => Raise e
  | Ok week_stats => Ok (week_finish week_stats)
  end.

Definition total_ (col : string) : string := ("total_" ++ col)%string.
Definition avg_ (col : string) : string := ("avg_" ++ col)%string.

Definition season_groupby_cols (df : DataFrame) : list string :=
  present df ["player_id"; "player_name"; "position"; "team"; "season"].

(** The dictionary of the season level, given the source of
    [games_played] and the summed and averaged columns. *)
Definition season_dict (games_played : string * reducer)
  (sums means : list string) : agg_dict :=
  ("games_played", games_played)
  :: map (fun col => (total_ col, (col, r_sum))) sums
  ++ map (fun col => (avg_ col, (col, r_mean))) means.

Definition season_agg_dict (df : DataFrame) : agg_dict :=
  season_dict (if has_col "games_played" df then ("games_played", r_sum)
               else ("week", r_nunique))
              (present df SUM_COLUMNS) (present df MEAN_COLUMNS).

(** One turn of the per-game-average loop. *)
Definition per_game_average (season_stats : DataFrame) (col : string)
  : DataFrame :=
  if has_col (total_ col) season_stats
  then with_column (avg_ col)
         (fun r => vround2 (vdiv (r (total_ col)) (r "games_played")))
         season_stats
  else season_stats.

(** [avg_c] is [total_c / games_played] rounded, in the record [r]. *)
Definition per_game (c : string) (r : row) : Prop :=
  r (avg_ c) = vround2 (vdiv (r (total_ c)) (r "games_played")).

(** What follows the aggregation: the per-game averages, then the
    composite key. *)
Definition per_game_averages (season_stats : DataFrame) : DataFrame :=
  if has_col "games_played" season_stats
     && existsb (fun r => notna (r "games_played")) (rows season_stats)
  then fold_left per_game_average SUM_COLUMNS season_stats
  else season_stats.

Definition season_finish (season_stats : DataFrame) : DataFrame :=
  let season_stats := per_game_averages season_stats in
  if has_col "player_id" season_stats && has_col "season" season_stats
  then with_column "season_key" (key2 "player_id" "season") season_stats
  else season_stats.

Definition aggregate_to_season_level (week_stats_df : DataFrame)
  : result DataFrame :=
  match agg (season_groupby_cols week_stats_df)
            (season_agg_dict week_stats_df) week_stats_df with
  | Raise e => Raise e
  | Ok season_stats => Ok (season_finish season_stats)
  end.

End Levels.

End StatsAggregator.

(* ================================================================= *)
(** * The consensus merge ([transformers/consensus_aggregator.py]) *)

Module ConsensusAggregator.
Import Frame.

(** ** [calculate_fantasy_points] *)

(** [.fill_null(0)] *)
Definition fill_null (v : value) (d : Q) : value :=
  match v with VNull => VNum d | _ => v end.

Definition vadd (a b : value) : value :=
  match a, b with
  | VNum x, VNum y => VNum (x + y)
  | _, _ => VNull
  end.

Definition vtimes (a : value) (k : Q) : value :=
  match a with VNum x => VNum (x * k) | _ => VNull end.

(** The columns the three expressions read. *)
Definition PROJ_COLUMNS : list string :=
  [ "proj_passing_yards"; "proj_passing_touchdowns";
    "proj_passing_interceptions"; "proj_rushing_yards";
    "proj_rushing_touchdowns"; "proj_receiving_yards";
    "proj_receiving_touchdowns"; "proj_receiving_receptions" ].

Definition standard_points (r : row) : value :=
  vadd (vadd (vadd (vadd (vadd (vadd
    (vtimes (fill_null (r "proj_passing_yards") 0) (4 # 100))
    (vtimes (fill_null (r "proj_passing_touchdowns") 0) 4))
    (vtimes (fill_null (r "proj_passing_interceptions") 0) (-2)))
    (vtimes (fill_null (r "proj_rushing_yards") 0) (1 # 10)))
    (vtimes (fill_null (r "proj_rushing_touchdowns") 0) 6))
    (vtimes (fill_null (r "proj_receiving_yards") 0) (1 # 10)))
    (vtimes (fill_null (r "proj_receiving_touchdowns") 0) 6).

Definition ppr_points (r : row) : value :=
  vadd (r "fantasy_points_standard")
       (vtimes (fill_null (r "proj_receiving_receptions") 0) 1).

Definition half_ppr_points (r : row) : value :=
  vadd (r "fantasy_points_standard")
       (vtimes (fill_null (r "proj_receiving_receptions") 0) (1 # 2)).

(** polars raises on a column the frame does not have. *)
Definition calculate_fantasy_points (df : DataFrame) : result DataFrame :=
  if forallb (fun col => has_col col df) PROJ_COLUMNS then
    let df := with_column "fantasy_points_standard" standard_points df in
    let df := with_column "fantasy_points_ppr" ppr_points df in
    let df := with_column "fantasy_points_half_ppr" half_ppr_points df in
    Ok df
  else Raise "ColumnNotFoundError".

(** ** [silver_to_gold], up to the confidence rating *)

(** [df.sort_values('source')]: ascending, missing values last. *)
Definition source_leb (a b : value) : bool :=
  match a, b with
  | _, VNull => true
  | VNull, _ => false
  | _, _ => match value_compare a b with Gt => false | _ => true end
  end.

Fixpoint insert_by_source (r : row) (l : list row) : list row :=
  match l with
  | [] => [r]
  | x :: l' =>
      if source_leb (x "source") (r "source") then x :: insert_by_source r l'
      else r :: x :: l'
  end.

Definition sort_by_source (rs : list row) : list row :=
  fold_left (fun acc r => insert_by_source r acc) rs [].

(** The reducers of the aggregation dictionary. *)
Inductive how : Type :=
| h_first
| h_mean
| h_std
| h_min
| h_max
| h_count
| h_any.

(** One reduced cell after [.round(2)]: the rounding touches the float
    columns, so neither the texts taken by ['first'], nor the integer
    ['count'], nor the flag of ['any']. *)
Definition reduce_round2 (f : how) (c : string) (rs : list row) : value :=
  match f with
  | h_first => col_first c rs
  | h_mean => vround2 (col_mean c rs)
  | h_std => col_std_round2 c rs
  | h_min => vround2 (col_min c rs)
  | h_max => vround2 (col_max c rs)
  | h_count => VNum (inject_Z (Z.of_nat (col_count c rs)))
  | h_any => col_any c rs
  end.

(** The aggregation dictionary with the flattened column names
    (['_'.join(col)]). *)
Definition CONSENSUS_AGG : list (string * (string * how)) :=
  [ ("position_first", ("position", h_first));
    ("team_first", ("team", h_first));
    ("fantasy_points_ppr_mean", ("fantasy_points_ppr", h_mean));
    ("fantasy_points_ppr_std", ("fantasy_points_ppr", h_std));
    ("fantasy_points_ppr_min", ("fantasy_points_ppr", h_min));
    ("fantasy_points_ppr_max", ("fantasy_points_ppr", h_max));
    ("fantasy_points_standard_mean", ("fantasy_points_standard", h_mean));
    ("fantasy_points_standard_std", ("fantasy_points_standard", h_std));
    ("fantasy_points_standard_min", ("fantasy_points_standard", h_min));
    ("fantasy_points_standard_max", ("fantasy_points_standard", h_max));
    ("passing_yards_mean", ("passing_yards", h_mean));
    ("passing_tds_mean", ("passing_tds", h_mean));
    ("rushing_yards_mean", ("rushing_yards", h_mean));
    ("rushing_tds_mean", ("rushing_tds", h_mean));
    ("receiving_yards_mean", ("receiving_yards", h_mean));
    ("receiving_tds_mean", ("receiving_tds", h_mean));
    ("receptions_mean", ("receptions", h_mean));
    ("source_count", ("source", h_count));
    ("has_props_any", ("has_props", h_any)) ].

Definition GROUP_KEYS : list string := ["player_name"; "week"; "season"].

Definition consensus_cells (rs : list row) : list (string * value) :=
  map (fun e => (fst e, reduce_round2 (snd (snd e)) (fst (snd e)) rs))
      CONSENSUS_AGG.

(** [row.get(c, default)] *)
Definition row_get (df : DataFrame) (r : row) (c : string) (default : value)
  : value :=
  if has_col c df then r c else default.

Definition calculate_confidence (agg_df : DataFrame) (r : row) : string :=
  let num_sources := r "source_count" in
  let std_dev := row_get agg_df r "fantasy_points_ppr_std" (VNum 0) in
  if ge num_sources 2 && lt std_dev 2 then "HIGH"
  else if ge num_sources 2 || lt std_dev 4 then "MEDIUM"
  else "LOW".

(** The records that keep a real projection:
    [(df['fantasy_points_ppr'] > 0) & df['fantasy_points_ppr'].notna()]. *)
Definition has_projection (r : row) : bool :=
  gt (r "fantasy_points_ppr") 0 && notna (r "fantasy_points_ppr").

(** The records left after the sort and the filter. *)
Definition surviving (df : DataFrame) : DataFrame :=
  select has_projection (mkDF (columns df) (sort_by_source (rows df))).

(** The merged record of one group, before its rating. *)
Definition merged (g : group) : row := group_row GROUP_KEYS consensus_cells g.

(** [agg_df] after [.round(2)], the flattening of the column names and
    [reset_index()]. *)
Definition aggregated (df : DataFrame) : DataFrame :=
  mkDF (GROUP_KEYS ++ map fst CONSENSUS_AGG)
       (map merged (groupby GROUP_KEYS (surviving df))).

(** The merged record of one group with its rating. *)
Definition rated (df : DataFrame) (g : group) : row :=
  upd (merged g) "confidence_rating"
      (VStr (calculate_confidence (aggregated df) (merged g))).

(** [silver_to_gold] from the frame read back from the silver table to
    [agg_df] with its [confidence_rating]: [Ok None] when the function
    returns early on an empty frame.  The per-source pivot merged in
    afterwards and the delete-then-insert into the gold table are not
    part of the model. *)
Definition silver_to_gold (df : DataFrame) : result (option DataFrame) :=
  if empty df then Ok None
  else if forallb (fun c => has_col c df)
                  ("fantasy_points_ppr" :: GROUP_KEYS
                   ++ map (fun e => fst (snd e)) CONSENSUS_AGG)
  then
    let agg_df := aggregated df in
    Ok (Some (with_column "confidence_rating"
                (fun r => VStr (calculate_confidence agg_df r)) agg_df))
  else Raise "KeyError".

(** A cell of a numeric column: a number or a missing value. *)
Definition numeric (v : value) : bool :=
  match v with VStr _ => false | _ => true end.

End ConsensusAggregator.

(* ================================================================= *)
(** * Batches and providers used as examples *)

Module Scenarios.
Import Frame.

(** An extractor that has not run yet. *)
Definition idle : BaseExtractor.Extractor string :=
  BaseExtractor.mkExtractor 0 0 [] 0 0.

(** A batch of one record. *)
Definition one_record : DataFrame :=
  mkDF ["season"] [row_of [("season", VNum 2023)]].

(** A [validate] that finds no issue. *)
Definition accept (data : DataFrame) : result (DataFrame * list string) :=
  Ok (data, []).

(** A store that takes every batch. *)
Definition stored (_ : DataFrame) : bool := true.

(** Every call raises. *)
Definition down (_ : nat) : result (option DataFrame) :=
  Raise "connection timed out".

(** The first call returns an empty frame, the second one record. *)
Definition late (k : nat) : result (option DataFrame) :=
  match k with
  | O => Ok (Some empty_frame)
  | _ => Ok (Some one_record)
  end.

(** The first call returns an empty frame, the second raises, the third
    returns one record. *)
Definition flaky (k : nat) : result (option DataFrame) :=
  match k with
  | O => Ok (Some empty_frame)
  | 1%nat => Raise "connection timed out"
  | _ => Ok (Some one_record)
  end.

(** A batch of weekly statistics: the first record has no player, the
    second an out-of-range point total. *)
Definition weekly_batch : DataFrame :=
  mkDF ["player_id"; "season"; "week"; "fantasy_points_ppr"]
    [ row_of [ ("player_id", VNull); ("season", VNum 2023);
               ("week", VNum 1); ("fantasy_points_ppr", VNum 150) ];
      row_of [ ("player_id", VStr "00-0033873"); ("season", VNum 2023);
               ("week", VNum 1); ("fantasy_points_ppr", VNum 120) ] ].

(** Three plays of one game: the first gains -150 yards, the second is
    dated 1899. *)
Definition plays_batch : DataFrame :=
  mkDF ["game_id"; "play_id"; "season"; "week"; "yards_gained"]
    [ row_of [ ("game_id", VStr "2023_05_KC_MIN"); ("play_id", VNum 1);
               ("season", VNum 2023); ("week", VNum 5);
               ("yards_gained", VNum (-150)) ];
      row_of [ ("game_id", VStr "2023_05_KC_MIN"); ("play_id", VNum 2);
               ("season", VNum 1899); ("week", VNum 5);
               ("yards_gained", VNum 10) ];
      row_of [ ("game_id", VStr "2023_05_KC_MIN"); ("play_id", VNum 3);
               ("season", VNum 2023); ("week", VNum 5);
               ("yards_gained", VNum 7) ] ].

(** The cells of a frame, record by record. *)
Definition cells (df : DataFrame) : list (list value) :=
  map (fun r => map r (columns df)) (rows df).

(** Season 2023 as the provider holds it, up to week 12. *)
Definition season_2023 : DataFrame :=
  mkDF ["player_id"; "season"; "week"]
    (map (fun w => row_of [ ("player_id", VStr "00-0033873");
                            ("season", VNum 2023);
                            ("week", VNum (inject_Z w)) ])
         [9; 10; 11; 12]%Z).

(** A provider that holds season 2023 only. *)
Definition provider (q : NFLverseExtractor.request) : result DataFrame :=
  match q with
  | Some [s] => if (s =? 2023)%Z then Ok season_2023
                else Raise "no such season"
  | _ => Raise "every season asked for"
  end.

(** [.astype(str)] on the cells of the examples: a text as it is, a
    whole number in decimal. *)
Definition render (v : value) : string :=
  match v with
  | VNull => "nan"
  | VStr s => s
  | VNum q => NilZero.string_of_int (Z.to_int (Qfloor q))
  end.

(** Weekly lines of 2023 as the silver table holds them: two weeks of
    one player, one week of a player whose team is not known. *)
Definition stat_lines : DataFrame :=
  mkDF ["player_id"; "player_name"; "position"; "team"; "season"; "week";
        "games_played"; "targets"; "receptions"]
    [ row_of [ ("player_id", VStr "00-0033873");
               ("player_name", VStr "Patrick Mahomes");
               ("position", VStr "QB"); ("team", VStr "KC");
               ("season", VNum 2023); ("week", VNum 1);
               ("games_played", VNum 1);
               ("targets", VNum 6); ("receptions", VNum 4) ];
      row_of [ ("player_id", VStr "00-0033873");
               ("player_name", VStr "Patrick Mahomes");
               ("position", VStr "QB"); ("team", VStr "KC");
               ("season", VNum 2023); ("week", VNum 2);
               ("games_played", VNum 1);
               ("targets", VNum 4); ("receptions", VNum 3) ];
      row_of [ ("player_id", VStr "00-0039999");
               ("player_name", VStr "Practice Squad");
               ("position", VStr "WR"); ("team", VNull);
               ("season", VNum 2023); ("week", VNum 1);
               ("games_played", VNum 1);
               ("targets", VNum 9); ("receptions", VNum 5) ] ].

(** Two weeks of one player: one catch on one target, then none on
    nine. *)
Definition week_lines : DataFrame :=
  mkDF ["player_id"; "season"; "week"; "games_played"; "targets";
        "receptions"; "catch_rate"]
    [ row_of [ ("player_id", VStr "00-0033873"); ("season", VNum 2023);
               ("week", VNum 1); ("games_played", VNum 1);
               ("targets", VNum 1); ("receptions", VNum 1);
               ("catch_rate", VNum 100) ];
      row_of [ ("player_id", VStr "00-0033873"); ("season", VNum 2023);
               ("week", VNum 2); ("games_played", VNum 1);
               ("targets", VNum 9); ("receptions", VNum 0);
               ("catch_rate", VNum 0) ] ].

(** One game line with no target at all, one with two catches on
    three targets. *)
Definition bench_lines : DataFrame :=
  mkDF ["player_id"; "season"; "week"; "game_id"; "targets"; "receptions"]
    [ row_of [ ("player_id", VStr "00-0033873"); ("season", VNum 2023);
               ("week", VNum 2); ("game_id", VStr "2023_02_KC_JAX");
               ("targets", VNum 0); ("receptions", VNum 0) ];
      row_of [ ("player_id", VStr "00-0036212"); ("season", VNum 2023);
               ("week", VNum 2); ("game_id", VStr "2023_02_KC_JAX");
               ("targets", VNum 3); ("receptions", VNum 2) ] ].

(** One quarterback as a bookmaker projects him. *)
Definition raw_projection : DataFrame :=
  mkDF ("player_name" :: "source" :: ConsensusAggregator.PROJ_COLUMNS)
    [ row_of [ ("player_name", VStr "Patrick Mahomes");
               ("source", VStr "betonline");
               ("proj_passing_yards", VNum 275);
               ("proj_passing_touchdowns", VNum 2);
               ("proj_passing_interceptions", VNum 1);
               ("proj_rushing_yards", VNum 20);
               ("proj_rushing_touchdowns", VNull);
               ("proj_receiving_yards", VNull);
               ("proj_receiving_touchdowns", VNull);
               ("proj_receiving_receptions", VNum 3) ] ].

(** The silver records of one week: one receiver projected by two
    sources at 10.4 and 10.0 points (mean 10.2 = 51/5, deviation
    0.28 = 7/25), another by one source. *)
Definition silver_week : DataFrame :=
  mkDF ["player_name"; "position"; "team"; "week"; "season"; "source";
        "passing_yards"; "passing_tds"; "rushing_yards"; "rushing_tds";
        "receiving_yards"; "receiving_tds"; "receptions";
        "fantasy_points_ppr"; "fantasy_points_standard"; "has_props"]
    [ row_of [ ("player_name", VStr "Travis Kelce"); ("week", VNum 1);
               ("season", VNum 2025); ("source", VStr "pinnacle");
               ("receiving_yards", VNum 64); ("receptions", VNum 4);
               ("fantasy_points_ppr", VNum 10.4);
               ("fantasy_points_standard", VNum 6.4);
               ("has_props", VNum 1) ];
      row_of [ ("player_name", VStr "Travis Kelce"); ("position", VStr "TE");
               ("team", VStr "KC"); ("week", VNum 1);
               ("season", VNum 2025); ("source", VStr "betonline");
               ("receiving_yards", VNum 60); ("receptions", VNum 4);
               ("fantasy_points_ppr", VNum 10);
               ("fantasy_points_standard", VNum 6);
               ("has_props", VNum 1) ];
      row_of [ ("player_name", VStr "Rashee Rice"); ("position", VStr "WR");
               ("team", VStr "KC"); ("week", VNum 1);
               ("season", VNum 2025); ("source", VStr "betonline");
               ("receiving_yards", VNum 71); ("receptions", VNum 6);
               ("fantasy_points_ppr", VNum 13.1);
               ("fantasy_points_standard", VNum 7.1);
               ("has_props", VNum 1) ] ].

End Scenarios.

(* ================================================================= *)
(** * Notions the properties are stated with *)

Module Cells.
Import Frame.

(** Two cells that hold the same thing: the same number, the same
    text, or nothing. *)
Definition veq (a b : value) : Prop :=
  match a, b with
  | VNull, VNull => True
  | VNum x, VNum y => x == y
  | VStr s, VStr t => s = t
  | _, _ => False
  end.

(** [l'] is a selection of the records of [l], in their order. *)
Definition kept (l' l : list row) : Prop := exists p, l' = filter p l.

(** Every key seen in [seen1] is seen in [seen2]. *)
Definition within (seen1 seen2 : list (list value)) : Prop :=
  forall k, existsb (key_eqb k) seen1 = true ->
            existsb (key_eqb k) seen2 = true.

(** What a record adds to the count of column [c]. *)
Definition counted (c : string) (r : row) : nat :=
  if notna (r c) then 1%nat else 0%nat.

End Cells.

(* ================================================================= *)
(** * The configured seasons ([extractors/config.py]) *)

Module Config.
Import Frame.

(** [MOST_RECENT_SEASON], from [datetime.now()] read when the module is
    loaded. *)
Definition MOST_RECENT_SEASON (CURRENT_YEAR CURRENT_MONTH : Z) : Z :=
  if (9 <=? CURRENT_MONTH)%Z then CURRENT_YEAR else (CURRENT_YEAR - 1)%Z.

(** [list(range(MOST_RECENT_SEASON - 4, MOST_RECENT_SEASON + 1))] *)
Definition SEASONS_TO_EXTRACT (CURRENT_YEAR CURRENT_MONTH : Z) : list Z :=
  NFLverseExtractor.range
    (MOST_RECENT_SEASON CURRENT_YEAR CURRENT_MONTH - 4)
    (MOST_RECENT_SEASON CURRENT_YEAR CURRENT_MONTH + 1).

Definition get_seasons_to_extract (CURRENT_YEAR CURRENT_MONTH : Z) : list Z :=
  SEASONS_TO_EXTRACT CURRENT_YEAR CURRENT_MONTH.

End Config.

(* ================================================================= *)
(** * The report of a run ([extractors/base_extractor.py]) *)

Module ExtractionReport.
Import Frame.

(** [self.extraction_start_time] and [self.extraction_end_time], in
    seconds on the wall clock; [None] until they are first set. *)
Record Clock : Type := mkClock {
  extraction_start_time : option Q;
  extraction_end_time : option Q
}.

(** The dictionary [_get_extraction_results] returns. *)
Record Results (Issue : Type) : Type := mkResults {
  source : string;
  status : BaseExtractor.Status;
  start_time : option Q;
  end_time : option Q;
  duration_seconds : option Q;
  records_extracted : nat;
  records_failed : nat;
  errors : list (BaseExtractor.ErrorEntry Issue)
}.
Arguments mkResults {Issue} _ _ _ _ _ _ _ _.
Arguments source {Issue} _.
Arguments status {Issue} _.
Arguments start_time {Issue} _.
Arguments end_time {Issue} _.
Arguments duration_seconds {Issue} _.
Arguments records_extracted {Issue} _.
Arguments records_failed {Issue} _.
Arguments errors {Issue} _.

(** The dictionary [get_extraction_metadata] returns, but for the
    configuration it echoes. *)
Record Metadata : Type := mkMetadata {
  source_name : string;
  md_records_extracted : nat;
  md_records_failed : nat;
  errors_count : nat;
  last_extraction : option Q
}.

Section Report.

Variable Issue : Type.
Variable max_retries : nat.
Variable extract : nat -> result (option DataFrame).
Variable validate : DataFrame -> result (DataFrame * list Issue).
Variable insert_dataframe : DataFrame -> bool.
Variable now : value.

(** [self.source_name] *)
Variable name : string.

(** A time stamp is an object that is always true, so the test
    [if self.extraction_start_time and self.extraction_end_time] asks
    whether both are set. *)
Definition _get_extraction_results (status : BaseExtractor.Status)
  (c : Clock) (st : BaseExtractor.Extractor Issue) : Results Issue :=
  let duration :=
    match extraction_start_time c, extraction_end_time c with
    | Some s, Some e => Some (e - s)
    | _, _ => None
    end in
  mkResults name status (extraction_start_time c) (extraction_end_time c)
            duration (BaseExtractor.records_extracted st)
            (BaseExtractor.records_failed st) (BaseExtractor.errors st).

(** [run_extraction] with its clock.  [started] and [finished] are what
    [datetime.now()] reads on entry and in the [finally] clause.  Every
    [return self._get_extraction_results(...)] builds the dictionary
    first; the [finally] clause runs after that. *)
Definition run_extraction (started finished : Q) (c : Clock)
  (st : BaseExtractor.Extractor Issue)
  : Clock * BaseExtractor.Extractor Issue * Results Issue :=
  let c1 := mkClock (Some started) (extraction_end_time c) in
  let (st1, status) :=
    BaseExtractor.run_extraction Issue max_retries extract validate
                                 insert_dataframe now st in
  (mkClock (Some started) (Some finished), st1,
   _get_extraction_results status c1 st1).

Definition get_extraction_metadata (c : Clock)
  (st : BaseExtractor.Extractor Issue) : Metadata :=
  mkMetadata name (BaseExtractor.records_extracted st)
             (BaseExtractor.records_failed st)
             (List.length (BaseExtractor.errors st))
             (extraction_end_time c).

End Report.

End ExtractionReport.

(* ================================================================= *)
(** * Play by play to game level ([transformers/aggregator.py]) *)

Module GameLevel.
Import Frame StatsAggregator.

(** [df.rename(columns={old: new})] *)
Definition rename (old new : string) (df : DataFrame) : DataFrame :=
  mkDF (map (fun c => if String.eqb c old then new else c) (columns df))
       (map (fun (r : row) c =>
               if String.eqb c new then r old
               else if String.eqb c old then VNull
               else r c)
            (rows df)).

Section Level.

Variable astype_str : value -> string.

Definition game_groupby_cols (df : DataFrame) : list string :=
  present df ["game_id"; "player_id"; "player_name"; "position"; "team";
              "season"; "week"; "game_date"].

(** The dictionary of the game level, from the counted, the summed and
    the maxed columns; each is reduced under its own name. *)
Definition game_dict (counts sums maxes : list string) : agg_dict :=
  map (fun col => (col, (col, r_count))) counts
  ++ map (fun col => (col, (col, r_sum))) sums
  ++ map (fun col => (col, (col, r_max))) maxes.

Definition game_agg_dict (df : DataFrame) : agg_dict :=
  game_dict (present df ["play_id"]) (present df SUM_COLUMNS)
            (present df MAX_COLUMNS).

(** What follows the aggregation: the count of plays takes its name,
    then the derived metrics, then the composite key. *)
Definition game_finish (game_stats : DataFrame) : DataFrame :=
  let game_stats :=
    if has_col "play_id" game_stats
    then rename "play_id" "plays" game_stats
    else game_stats in
  let game_stats := _calculate_efficiency_metrics game_stats in
  if has_col "player_id" game_stats && has_col "game_id" game_stats
  then with_column "player_game_key"
                   (key2 astype_str "player_id" "game_id") game_stats
  else game_stats.

(** [aggregate_to_game_level].  Without a grouping column the function
    returns [pd.DataFrame()]; with an empty dictionary pandas has
    nothing to put together and raises. *)
Definition aggregate_to_game_level (plays_df : DataFrame)
  : result DataFrame :=
  match game_groupby_cols plays_df with
  | [] => Ok empty_frame
  | _ :: _ =>
      match game_agg_dict plays_df with
      | [] => Raise "No objects to concatenate"
      | _ :: _ =>
          match agg (game_groupby_cols plays_df) (game_agg_dict plays_df)
                    plays_df with
          | Raise e => Raise e
          | Ok game_stats => Ok (game_finish game_stats)
          end
      end
  end.

End Level.

End GameLevel.

(* ================================================================= *)
(** * Fantasy points from raw statistics
      ([transformers/fantasy_calculator.py]) *)

Module FantasyCalculator.
Import Frame.

Definition STANDARD_SCORING : list (string * Q) :=
  [ ("passing_yards", 4 # 100);
    ("passing_tds", 4);
    ("interceptions", -2);
    ("rushing_yards", 1 # 10);
    ("rushing_tds", 6);
    ("receiving_yards", 1 # 10);
    ("receiving_tds", 6);
    ("receptions", 0);
    ("fumbles_lost", -2);
    ("two_point_conversions", 2);
    ("extra_points", 1);
    ("field_goals_0_19", 3);
    ("field_goals_20_29", 3);
    ("field_goals_30_39", 3);
    ("field_goals_40_49", 4);
    ("field_goals_50_plus", 5);
    ("field_goals_missed", 0) ].

(** [{**d, k: v}]: a key the dictionary has keeps its place. *)
Fixpoint dict_set (d : list (string * Q)) (k : string) (v : Q)
  : list (string * Q) :=
  match d with
  | [] => [(k, v)]
  | (k', v') :: d' =>
      if String.eqb k' k then (k, v) :: d' else (k', v') :: dict_set d' k v
  end.

Fixpoint dict_get (d : list (string * Q)) (k : string) : option Q :=
  match d with
  | [] => None
  | (k', v) :: d' => if String.eqb k k' then Some v else dict_get d' k
  end.

Definition PPR_SCORING : list (string * Q) :=
  dict_set STANDARD_SCORING "receptions" 1.

Definition HALF_PPR_SCORING : list (string * Q) :=
  dict_set STANDARD_SCORING "receptions" (1 # 2).

(** [str.lower()] on the letters A to Z.  No other character is turned
    into one of the letters of the three system names, so the test of
    the constructor comes out the same on every text. *)
Definition lower_ascii (c : Ascii.ascii) : Ascii.ascii :=
  let n := Ascii.nat_of_ascii c in
  if ((65 <=? n) && (n <=? 90))%nat then Ascii.ascii_of_nat (n + 32) else c.

Fixpoint lower (s : string) : string :=
  match s with
  | EmptyString => EmptyString
  | String c s' => String (lower_ascii c) (lower s')
  end.

Record Calculator : Type := mkCalculator {
  scoring_system : string;
  scoring_rules : list (string * Q)
}.

(** [FantasyCalculator(scoring_system)] *)
Definition __init__ (scoring_system : string) : result Calculator :=
  let system := lower scoring_system in
  if String.eqb system "standard"
  then Ok (mkCalculator system STANDARD_SCORING)
  else if String.eqb system "ppr"
  then Ok (mkCalculator system PPR_SCORING)
  else if String.eqb system "half_ppr"
  then Ok (mkCalculator system HALF_PPR_SCORING)
  else Raise ("Unknown scoring system: " ++ scoring_system).

(** [a + b] and [a * k] on cells; a missing value gives a missing
    value. *)
Definition vadd := ConsensusAggregator.vadd.
Definition vtimes := ConsensusAggregator.vtimes.
Definition fillna := ConsensusAggregator.fill_null.

(** [calculate_player_points]: a statistic the rules do not score, or
    one that is [None], adds nothing. *)
Definition calculate_player_points (calc : Calculator)
  (stats : list (string * option value)) : value :=
  vround2
    (fold_left
       (fun points (item : string * option value) =>
          match dict_get (scoring_rules calc) (fst item), snd item with
          | Some rule, Some value => vadd points (vtimes value rule)
          | _, _ => points
          end)
       stats (VNum 0)).

Definition points_col (calc : Calculator) (suffix : string) : string :=
  match suffix with
  | EmptyString => "fantasy_points_" ++ scoring_system calc
  | _ => "fantasy_points_" ++ suffix
  end.

(** One turn of [for stat, multiplier in self.scoring_rules.items()]. *)
Definition add_stat (points_col : string) (result_df : DataFrame)
  (rule : string * Q) : DataFrame :=
  if has_col (fst rule) result_df
  then with_column points_col
         (fun r => vadd (r points_col)
                        (vtimes (fillna (r (fst rule)) 0) (snd rule)))
         result_df
  else result_df.

Definition calculate_dataframe_points (calc : Calculator) (df : DataFrame)
  (suffix : string) : DataFrame :=
  let points_col := points_col calc suffix in
  let result_df := with_column points_col (fun _ => VNum 0) df in
  let result_df :=
    fold_left (add_stat points_col) (scoring_rules calc) result_df in
  with_column points_col (fun r => vround2 (r points_col)) result_df.

(** [a - b] and [abs(a)] on cells. *)
Definition vsub (a b : value) : value :=
  match a, b with
  | VNum x, VNum y => VNum (x - y)
  | _, _ => VNull
  end.

Definition vabs (a : value) : value :=
  match a with
  | VNum x => VNum (if Qltb x 0 then - x else x)
  | _ => VNull
  end.

(** A cell of a column of booleans: 1 for [True], 0 for [False]. *)
Definition flag (b : bool) : value := VNum (if b then 1 else 0).

(** [verify_fantasy_points], but for the warnings it logs. *)
Definition verify_fantasy_points (calc : Calculator) (df : DataFrame)
  (actual_col : string) (tolerance : Q) : DataFrame :=
  let calc_df := calculate_dataframe_points calc df "calculated" in
  let calc_col := "fantasy_points_calculated" in
  if has_col actual_col calc_df then
    let calc_df :=
      with_column "points_diff"
        (fun r => vabs (vsub (r calc_col) (r actual_col))) calc_df in
    with_column "points_match"
      (fun r => flag (le (r "points_diff") tolerance)) calc_df
  else with_column "points_match" (fun _ => flag false) calc_df.

(** [a / 2] on a cell. *)
Definition vhalf (a : value) : value :=
  match a with VNum x => VNum (x / 2) | _ => VNull end.

Definition average_points (a b : string) (df : DataFrame) : DataFrame :=
  with_column "fantasy_points_half_ppr"
    (fun r => vround2 (vhalf (vadd (r a) (r b)))) df.

(** [calculate_half_ppr_from_others], but for the warning it logs. *)
Definition calculate_half_ppr_from_others (df : DataFrame) : DataFrame :=
  if has_col "fantasy_points" df && has_col "fantasy_points_ppr" df
  then average_points "fantasy_points" "fantasy_points_ppr" df
  else if has_col "fantasy_points_standard" df
          && has_col "fantasy_points_ppr" df
  then average_points "fantasy_points_standard" "fantasy_points_ppr" df
  else df.

(** ** What one record is credited with *)

(** What one rule adds to the points of the record [r] of [df]. *)
Definition credit (df : DataFrame) (r : row) (points : value)
  (rule : string * Q) : value :=
  if has_col (fst rule) df
  then vadd points (vtimes (fillna (r (fst rule)) 0) (snd rule))
  else points.

(** The points of the record [r] of [df] before the rounding. *)
Definition score (rules : list (string * Q)) (df : DataFrame) (r : row)
  : value :=
  fold_left (credit df r) rules (VNum 0).

(** Every statistic of [df] that the rules score holds numbers or
    missing values only. *)
Definition numeric_stats (rules : list (string * Q)) (df : DataFrame)
  : bool :=
  forallb
    (fun rule : string * Q =>
       negb (has_col (fst rule) df)
       || forallb (fun r : row => ConsensusAggregator.numeric (r (fst rule)))
            (rows df))
    rules.

(** The receptions of the record [r] of [df] as a scoring rule reads
    them. *)
Definition catches (df : DataFrame) (r : row) : value :=
  if has_col "receptions" df then fillna (r "receptions") 0 else VNum 0.

End FantasyCalculator.

(* ================================================================= *)
(** * More batches used as examples *)

Module Examples.
Import Frame.

(** Three plays of one player in one game; the third has no play
    number. *)
Definition game_plays : DataFrame :=
  mkDF ["game_id"; "play_id"; "player_id"; "targets"; "receptions"]
    [ row_of [ ("game_id", VStr "2023_05_KC_MIN"); ("play_id", VNum 1);
               ("player_id", VStr "00-0036212");
               ("targets", VNum 1); ("receptions", VNum 1) ];
      row_of [ ("game_id", VStr "2023_05_KC_MIN"); ("play_id", VNum 2);
               ("player_id", VStr "00-0036212");
               ("targets", VNum 1); ("receptions", VNum 0) ];
      row_of [ ("game_id", VStr "2023_05_KC_MIN"); ("play_id", VNull);
               ("player_id", VStr "00-0036212");
               ("targets", VNum 1); ("receptions", VNum 1) ] ].

(** Three stat lines: a receiver, a quarterback with no receptions
    recorded, and a kicker. *)
Definition stat_lines : DataFrame :=
  mkDF ["player_name"; "passing_yards"; "passing_tds"; "receiving_yards";
        "receiving_tds"; "receptions"; "extra_points"]
    [ row_of [ ("player_name", VStr "Justin Jefferson");
               ("receiving_yards", VNum 123); ("receiving_tds", VNum 1);
               ("receptions", VNum 7) ];
      row_of [ ("player_name", VStr "Patrick Mahomes");
               ("passing_yards", VNum 281); ("passing_tds", VNum 2);
               ("receptions", VNull) ];
      row_of [ ("player_name", VStr "Harrison Butker");
               ("extra_points", VNum 3) ] ].

End Examples.

(* ================================================================= *)
(** * The play-by-play download and its cache
      ([extractors/nflverse_extractor.py]) *)

Module PlayByPlay.
Import Frame.

(** [self._cache], by the keys in the order they were set. *)
Definition cache : Type := list (string * DataFrame).

Fixpoint cache_get (c : cache) (k : string) : option DataFrame :=
  match c with
  | [] => None
  | (k', df) :: c' => if String.eqb k k' then Some df else cache_get c' k
  end.

Fixpoint cache_set (c : cache) (k : string) (df : DataFrame) : cache :=
  match c with
  | [] => [(k, df)]
  | (k', df') :: c' =>
      if String.eqb k k' then (k, df) :: c'
      else (k', df') :: cache_set c' k df
  end.

(** [sep.join(l)] *)
Fixpoint join (sep : string) (l : list string) : string :=
  match l with
  | [] => ""
  | [x] => x
  | x :: l' => x ++ sep ++ join sep l'
  end.

(** [v in weeks], for a cell of the column [week]. *)
Definition isin (weeks : list Z) (v : value) : bool :=
  match v with
  | VNum q => existsb (fun w => Qeq_bool q (inject_Z w)) weeks
  | _ => false
  end.

(** [df[cols]]: the columns [cols], in that order. *)
Definition project (cols : list string) (df : DataFrame) : DataFrame :=
  mkDF cols
       (map (fun (r : row) c =>
               if existsb (String.eqb c) cols then r c else VNull)
            (rows df)).

Section Extract.

(** [str] on an integer. *)
Variable str : Z -> string.

(** [pbp_config.get('seasons', [2023])] and
    [pbp_config.get('columns', [])]. *)
Variable config_seasons : list Z.
Variable config_columns : list string.

(** [nfl.import_pbp_data], which may raise or return [None]. *)
Variable import_pbp_data : list Z -> result (option DataFrame).

(** [datetime.now()] at the end of the download. *)
Variable now : value.

Definition cache_key (seasons : list Z) : string :=
  "pbp_" ++ join "-" (map str seasons).

(** [a or b] on lists: an empty list counts as absent. *)
Definition or_else (a : option (list Z)) (b : list Z) : list Z :=
  match a with
  | Some (x :: l) => x :: l
  | _ => b
  end.

Definition filter_columns (pbp_df : DataFrame) : DataFrame :=
  match config_columns with
  | [] => pbp_df
  | _ =>
      match filter (fun col => has_col col pbp_df) config_columns with
      | [] => pbp_df
      | available_columns => project available_columns pbp_df
      end
  end.

Definition add_metadata (pbp_df : DataFrame) : DataFrame :=
  with_column "extraction_date" (fun _ => now)
    (with_column "source" (fun _ => VStr "nflverse") pbp_df).

(** [_extract_play_by_play].  The cache is looked up by the seasons
    alone; what is stored is the batch after the filters. *)
Definition _extract_play_by_play (c : cache)
  (seasons weeks : option (list Z)) : cache * result DataFrame :=
  let seasons := or_else seasons config_seasons in
  let cache_key := cache_key seasons in
  match cache_get c cache_key with
  | Some df => (c, Ok df)
  | None =>
      match import_pbp_data seasons with
      | Raise e => (c, Raise e)
      | Ok None => (c, Ok empty_frame)
      | Ok (Some pbp_df) =>
          if empty pbp_df then (c, Ok empty_frame)
          else
            match weeks with
            | Some (w :: ws) =>
                if has_col "week" pbp_df then
                  let pbp_df :=
                    select (fun r => isin (w :: ws) (r "week")) pbp_df in
                  let pbp_df := add_metadata (filter_columns pbp_df) in
                  (cache_set c cache_key pbp_df, Ok pbp_df)
                else (c, Raise "'week'")
            | _ =>
                let pbp_df := add_metadata (filter_columns pbp_df) in
                (cache_set c cache_key pbp_df, Ok pbp_df)
            end
      end
  end.

End Extract.

End PlayByPlay.

(* ================================================================= *)
(** * Batches the cache is shown on *)

Module Downloads.
Import Frame.

(** Two plays of the 2023 season, one of week 1 and one of week 2. *)
Definition two_weeks : DataFrame :=
  mkDF ["game_id"; "play_id"; "season"; "week"]
    [ row_of [ ("game_id", VStr "2023_01_DET_KC"); ("play_id", VNum 40);
               ("season", VNum 2023); ("week", VNum 1) ];
      row_of [ ("game_id", VStr "2023_02_KC_JAX"); ("play_id", VNum 55);
               ("season", VNum 2023); ("week", VNum 2) ] ].

Definition provider (seasons : list Z) : result (option DataFrame) :=
  Ok (Some two_weeks).

(** A provider that is out of reach. *)
Definition offline (seasons : list Z) : result (option DataFrame) :=
  Raise "HTTP Error 503".

Definition str (n : Z) : string :=
  NilZero.string_of_int (Z.to_int n).

End Downloads.

(* ================================================================= *)
(** * Boom and bust rates ([analytics/boom_bust.py]) *)

Module BoomBust.
Import Frame.

(** Thresholds by position: [{'boom': b, 'bust': u}] is [(b, u)]. *)
Definition thresholds : Type := list (string * (Q * Q)).

Definition DEFAULT_THRESHOLDS : list (string * thresholds) :=
  [ ("standard",
     [ ("QB", (22, 12)); ("RB", (18, 8)); ("WR", (18, 8));
       ("TE", (14, 6)); ("K", (12, 4)); ("DST", (15, 5)) ]);
    ("ppr",
     [ ("QB", (22, 12)); ("RB", (20, 10)); ("WR", (20, 10));
       ("TE", (16, 8)); ("K", (12, 4)); ("DST", (15, 5)) ]);
    ("half_ppr",
     [ ("QB", (22, 12)); ("RB", (19, 9)); ("WR", (19, 9));
       ("TE", (15, 7)); ("K", (12, 4)); ("DST", (15, 5)) ]) ].

(** [d.get(k)] *)
Fixpoint get {A : Type} (d : list (string * A)) (k : string) : option A :=
  match d with
  | [] => None
  | (k', v) :: d' => if String.eqb k k' then Some v else get d' k
  end.

(** [d.get(k, default)] *)
Definition get_or {A : Type} (d : list (string * A)) (k : string)
  (default : A) : A :=
  match get d k with Some v => v | None => default end.

Record Calculator : Type := mkCalculator {
  scoring_format : string;
  thresholds_of : thresholds
}.

(** [BoomBustCalculator(scoring_format, custom_thresholds)]: an empty
    dictionary of custom thresholds counts as none. *)
Definition __init__ (scoring_format : string)
  (custom_thresholds : option thresholds) : Calculator :=
  match custom_thresholds with
  | Some (t :: l) => mkCalculator scoring_format (t :: l)
  | _ =>
      mkCalculator scoring_format
        (get_or DEFAULT_THRESHOLDS scoring_format
                (get_or DEFAULT_THRESHOLDS "ppr" []))
  end.

(** The dictionary [calculate_boom_bust_rates] returns; the keys its
    early returns leave out are [None]. *)
Record Rates : Type := mkRates {
  boom_rate : Q;
  bust_rate : Q;
  boom_games : option nat;
  bust_games : option nat;
  games_played : nat;
  boom_threshold : option Q;
  bust_threshold : option Q
}.

(** The dictionary [calculate_elite_dud_rates] returns. *)
Record Extremes : Type := mkExtremes {
  elite_rate : Q;
  dud_rate : Q;
  elite_games : option nat;
  dud_games : option nat;
  elite_threshold : option Q;
  dud_threshold : option Q
}.

(** [points_series.dropna()]: a missing value is [None]. *)
Fixpoint dropna (points_series : list (option Q)) : list Q :=
  match points_series with
  | [] => []
  | Some p :: l => p :: dropna l
  | None :: l => dropna l
  end.

(** [(points >= t).sum()] and [(points <= t).sum()] *)
Definition count_ge (points : list Q) (t : Q) : nat :=
  List.length (filter (fun p => negb (Qltb p t)) points).

Definition count_le (points : list Q) (t : Q) : nat :=
  List.length (filter (fun p => negb (Qltb t p)) points).

(** [games / total_games * 100] *)
Definition rate (games total_games : nat) : Q :=
  inject_Z (Z.of_nat games) / inject_Z (Z.of_nat total_games) * 100.

(** [a or b] on numbers: [None] and 0 give [b]. *)
Definition or_number (a : option Q) (b : Q) : Q :=
  match a with
  | Some x => if Qeq_bool x 0 then b else x
  | None => b
  end.

Section Positions.

(** [str.upper] *)
Variable upper : string -> string.

Definition get_thresholds (calc : Calculator) (position : option string)
  : Q * Q :=
  let pos_upper :=
    match position with
    | Some (String c s) => upper (String c s)
    | _ => "WR"
    end in
  match get (thresholds_of calc) pos_upper with
  | Some thresh => thresh
  | None => get_or (thresholds_of calc) "WR" (20, 10)
  end.

Definition calculate_boom_bust_rates (calc : Calculator)
  (points_series : list (option Q)) (position : option string)
  (boom_threshold bust_threshold : option Q) : Rates :=
  match points_series with
  | [] => mkRates 0 0 None None 0 None None
  | _ =>
      let points := dropna points_series in
      match points with
      | [] => mkRates 0 0 None None 0 None None
      | _ =>
          let (boom_threshold, bust_threshold) :=
            match boom_threshold, bust_threshold with
            | Some boom, Some bust => (boom, bust)
            | _, _ =>
                let (auto_boom, auto_bust) :=
                  get_thresholds calc position in
                (or_number boom_threshold auto_boom,
                 or_number bust_threshold auto_bust)
            end in
          let boom_games := count_ge points boom_threshold in
          let bust_games := count_le points bust_threshold in
          let total_games := List.length points in
          mkRates (round2 (rate boom_games total_games))
                  (round2 (rate bust_games total_games))
                  (Some boom_games) (Some bust_games) total_games
                  (Some boom_threshold) (Some bust_threshold)
      end
  end.

Definition calculate_elite_dud_rates (calc : Calculator)
  (points_series : list (option Q)) (position : option string)
  : Extremes :=
  match points_series with
  | [] => mkExtremes 0 0 None None None None
  | _ =>
      let points := dropna points_series in
      match points with
      | [] => mkExtremes 0 0 None None None None
      | _ =>
          let (boom_thresh, bust_thresh) := get_thresholds calc position in
          let elite_thresh := boom_thresh * (15 # 10) in
          let dud_thresh := bust_thresh * (5 # 10) in
          let elite_games := count_ge points elite_thresh in
          let dud_games := count_le points dud_thresh in
          let total_games := List.length points in
          mkExtremes (round2 (rate elite_games total_games))
                     (round2 (rate dud_games total_games))
                     (Some elite_games) (Some dud_games)
                     (Some (round2 elite_thresh))
                     (Some (round2 dud_thresh))
      end
  end.

End Positions.

(** ** The two labels of [categorize_players] *)

(** [row.get(c)] on a record of [df]: [None] without the column. *)
Definition row_get (df : DataFrame) (r : row) (c : string) : option value :=
  if has_col c df then Some (r c) else None.

(** [pd.isna] on what [row.get] gives. *)
Definition isna (v : option value) : bool :=
  match v with Some v => isnull v | None => true end.

(** [row.get(c, default)] *)
Definition row_get_or (df : DataFrame) (r : row) (c : string)
  (default : value) : value :=
  if has_col c df then r c else default.

Definition categorize (df : DataFrame) (r : row) : string :=
  if isna (row_get df r "boom_rate") || isna (row_get df r "bust_rate")
  then "Unknown"
  else
    let boom := r "boom_rate" in
    let bust := r "bust_rate" in
    let volatility := row_get_or df r "volatility_index" (VNum 50) in
    if ge boom 40 && le bust 20 then "Elite Ceiling"
    else if ge boom 30 && le bust 25 then "High Upside"
    else if le boom 20 && le bust 20 then "Consistent Floor"
    else if le boom 15 && ge bust 40 then "Avoid"
    else if ge volatility 70 then "Volatile"
    else if le volatility 30 then "Steady"
    else "Balanced".

Definition risk_level (df : DataFrame) (r : row) : string :=
  if isna (row_get df r "volatility_index") then "Unknown"
  else
    let vol := r "volatility_index" in
    if ge vol 70 then "High Risk"
    else if ge vol 50 then "Medium Risk"
    else "Low Risk".

(** The cells the two labels read hold numbers or missing values. *)
Definition numeric_rates (r : row) : bool :=
  ConsensusAggregator.numeric (r "boom_rate")
  && ConsensusAggregator.numeric (r "bust_rate")
  && ConsensusAggregator.numeric (r "volatility_index").

End BoomBust.

(* ================================================================= *)
(** * Target shares and the opportunity score
      ([analytics/target_share.py]) *)

Module TargetShare.
Import Frame.

(** [round(x, 3)] *)
Definition round3 (x : Q) : Q := Qred (round_half_even (x * 1000) # 1000).

Definition calculate_target_share (player_targets team_targets : Q) : Q :=
  if Qltb 0 team_targets
  then round2 (player_targets / team_targets * 100)
  else 0.

Definition calculate_air_yards_share (player_air_yards team_air_yards : Q)
  : Q :=
  if Qltb 0 team_air_yards
  then round2 (player_air_yards / team_air_yards * 100)
  else 0.

Definition calculate_wopr (target_share air_yards_share : Q) : Q :=
  let wopr :=
    (15 # 10) * target_share / 100 + (7 # 10) * air_yards_share / 100 in
  round3 (Qminq wopr 1).

Definition calculate_racr (receiving_yards air_yards : Q) : Q :=
  if Qltb 0 air_yards then round3 (receiving_yards / air_yards) else 0.

Definition calculate_yac_share (player_yac team_yac : Q) : Q :=
  if Qltb 0 team_yac then round2 (player_yac / team_yac * 100) else 0.

(** The metrics of a player: a key may be absent, or hold [None]. *)
Definition metrics : Type := list (string * option Q).

Definition weights : list (string * Q) :=
  [ ("target_share", 35 # 100);
    ("air_yards_share", 25 # 100);
    ("wopr", 20 # 100);
    ("racr", 10 # 100);
    ("yac_share", 10 # 100) ].

(** One turn of [for metric, weight in weights.items()], on
    [(score, weights_sum)]. *)
Definition weigh (m : metrics) (acc : Q * Q) (item : string * Q) : Q * Q :=
  let (score, weights_sum) := acc in
  let (metric, weight) := item in
  match BoomBust.get m metric with
  | Some (Some x) =>
      let value :=
        if String.eqb metric "racr" then Qminq (x * 50) 100
        else if String.eqb metric "wopr" then x * 100
        else Qminq x 100 in
      (score + value * weight, weights_sum + weight)
  | _ => acc
  end.

Definition calculate_opportunity_score (m : metrics) : Q :=
  let (score, weights_sum) := fold_left (weigh m) weights (0, 0) in
  let score := if Qltb 0 weights_sum then score / weights_sum else score in
  round2 score.

End TargetShare.

(* ================================================================= *)
(** * Players the metrics are shown on *)

Module Receivers.

(** A receiver with a quarter of the targets and a third of the air
    yards of the team; no yards after the catch were recorded. *)
Definition split_end : TargetShare.metrics :=
  [ ("player_id", None);
    ("target_share", Some 25);
    ("air_yards_share", Some (3333 # 100));
    ("wopr", Some (TargetShare.calculate_wopr 25 (3333 # 100)));
    ("racr", Some (1250 # 1000));
    ("yac_share", None) ].

End Receivers.

(* ================================================================= *)
(** * Metrics the labels are shown on *)

Module Profiles.
Import Frame.

(** One record of boom and bust metrics: a player who booms in a
    quarter of the games, busts in a third and swings widely. *)
Definition swinging : DataFrame :=
  mkDF ["player_id"; "boom_rate"; "bust_rate"; "volatility_index"]
    [ row_of [ ("player_id", VStr "00-0036900"); ("boom_rate", VNum 25);
               ("bust_rate", VNum (3333 # 100));
               ("volatility_index", VNum (7150 # 100)) ] ].

End Profiles.

(* ================================================================= *)
(** * Properties of the data frames *)

Module FrameFacts.
Import Frame.

Lemma incl_filter (A : Type) (p : A -> bool) (l : list A) :
  incl (filter p l) l.
Proof. intros x H. apply filter_In in H. tauto. Qed.

Lemma Qltb_lt (a b : Q) : Qltb a b = true <-> a < b.
Proof.
  unfold Qltb. rewrite Qlt_alt. destruct (a ?= b); split; congruence.
Qed.

Lemma Qltb_ge (a b : Q) : Qltb a b = false <-> b <= a.
Proof.
  split.
  - intros H. apply Qnot_lt_le. intros L. apply Qltb_lt in L. congruence.
  - intros H. destruct (Qltb a b) eqn:E; [|reflexivity].
    apply Qltb_lt in E. apply Qle_not_lt in H. contradiction.
Qed.

Lemma empty_select (c : string) (p : row -> bool) (df : DataFrame) :
  has_col c df = true ->
  empty (select p df) = match filter p (rows df) with [] => true | _ => false end.
Proof.
  unfold has_col, empty, select. cbn [columns rows].
  destruct (columns df); [discriminate|]. reflexivity.
Qed.

Lemma filter_nil_none (A : Type) (p : A -> bool) (l : list A) (x : A) :
  filter p l = [] -> In x l -> p x = false.
Proof.
  intros E H. destruct (p x) eqn:P; [|reflexivity].
  assert (I : In x (filter p l)) by (apply filter_In; tauto).
  rewrite E in I. destruct I.
Qed.

Lemma upd_same r c v : upd r c v c = v.
Proof. unfold upd. now rewrite String.eqb_refl. Qed.

Lemma upd_other r c v c' : String.eqb c' c = false -> upd r c v c' = r c'.
Proof. unfold upd. now intros ->. Qed.

Lemma Qsum_app (l l' : list Q) : Qsum (l ++ l') == Qsum l + Qsum l'.
Proof.
  induction l as [|x l IH]; simpl.
  - now rewrite Qplus_0_l.
  - rewrite IH. now rewrite Qplus_assoc.
Qed.

Lemma col_sum_app c rs rs' :
  col_sum c (rs ++ rs') == col_sum c rs + col_sum c rs'.
Proof. unfold col_sum. rewrite map_app. apply Qsum_app. Qed.

Lemma insert_group_sum c k r gs :
  Qsum (map (fun g => col_sum c (snd g)) (insert_group k r gs))
  == num_of (r c) + Qsum (map (fun g => col_sum c (snd g)) gs).
Proof.
  induction gs as [|[k' rs] gs IH]; simpl.
  - unfold col_sum. simpl. ring.
  - destruct (key_compare k k'); simpl.
    + rewrite col_sum_app. unfold col_sum at 2. simpl. ring.
    + unfold col_sum at 1. simpl. ring.
    + rewrite IH. ring.
Qed.

Lemma groups_of_sum c cols rs acc :
  Qsum (map (fun g => col_sum c (snd g)) (groups_of cols rs acc))
  == col_sum c (complete cols rs)
     + Qsum (map (fun g => col_sum c (snd g)) acc).
Proof.
  revert acc. induction rs as [|r rs IH]; intros acc; simpl.
  - unfold col_sum. simpl. ring.
  - destruct (has_null_key cols r); simpl.
    + apply IH.
    + rewrite IH, insert_group_sum. unfold col_sum. simpl. ring.
Qed.

(** Grouping loses nothing and counts nothing twice: the group totals
    of a column add up to its total over the records with a complete
    key. *)
Lemma groupby_sum c cols df :
  Qsum (map (fun g => col_sum c (snd g)) (groupby cols df))
  == col_sum c (complete cols (rows df)).
Proof.
  unfold groupby. rewrite groups_of_sum. simpl. ring.
Qed.

Lemma complete_all cols rs :
  (forall r, In r rs -> has_null_key cols r = false) -> complete cols rs = rs.
Proof.
  intros H. unfold complete. induction rs as [|r rs IH]; [reflexivity|].
  simpl. rewrite (H r) by now left. simpl. f_equal.
  apply IH. intros r' I. apply H. now right.
Qed.

Lemma existsb_eqb_In c l : existsb (String.eqb c) l = true <-> In c l.
Proof.
  rewrite existsb_exists. split.
  - intros (x & I & E). apply String.eqb_eq in E. now subst.
  - intros I. exists c. split; [exact I | apply String.eqb_refl].
Qed.

Lemma has_col_In c df : has_col c df = true <-> In c (columns df).
Proof. apply existsb_eqb_In. Qed.

Lemma disjointb_spec l1 l2 c :
  disjointb l1 l2 = true -> In c l1 -> In c l2 -> False.
Proof.
  unfold disjointb. rewrite forallb_forall. intros H I1 I2.
  specialize (H c I1). apply negb_true_iff in H.
  apply existsb_eqb_In in I2. congruence.
Qed.

Lemma lookup_app_notin l1 l2 c :
  ~ In c (map fst l1) -> lookup (l1 ++ l2) c = lookup l2 c.
Proof.
  induction l1 as [|[k v] l1 IH]; simpl; intros N; [reflexivity|].
  destruct (String.eqb_spec c k) as [->|_]; [tauto|]. apply IH. tauto.
Qed.

Lemma lookup_map_In (key : string -> string) (val : string -> value)
  (l : list string) (rest : list (string * value)) (c : string) :
  (forall c', key c' = key c -> c' = c) -> In c l ->
  lookup (map (fun col => (key col, val col)) l ++ rest) (key c) = val c.
Proof.
  intros Inj. induction l as [|a l IH]; simpl; intros I; [destruct I|].
  destruct (String.eqb_spec (key c) (key a)) as [E|N].
  - symmetry in E. apply Inj in E. now subst.
  - destruct I as [->|I]; [congruence | now apply IH].
Qed.

Lemma lookup_map_notin (key : string -> string) (val : string -> value)
  (l : list string) (rest : list (string * value)) (x : string) :
  (forall c', In c' l -> key c' <> x) ->
  lookup (map (fun col => (key col, val col)) l ++ rest) x = lookup rest x.
Proof.
  intros N. apply lookup_app_notin. rewrite map_map. cbn [fst].
  intros I. apply in_map_iff in I. destruct I as (c' & E & I).
  exact (N c' I E).
Qed.

Lemma in_fst_combine (cols : list string) (k : list value) c :
  In c (map fst (combine cols k)) -> In c cols.
Proof.
  intros I. apply in_map_iff in I. destruct I as ([a v] & <- & I).
  exact (in_combine_l _ _ _ _ I).
Qed.

Lemma group_row_cell cols cells k rs c :
  ~ In c cols -> group_row cols cells (k, rs) c = lookup (cells rs) c.
Proof.
  intros N. unfold group_row, row_of. apply lookup_app_notin.
  intros I. apply N. exact (in_fst_combine _ _ _ I).
Qed.

Lemma map_snd_combine (A B : Type) (l : list A) (l' : list B) :
  List.length l = List.length l' -> map snd (combine l l') = l'.
Proof.
  revert l'. induction l as [|a l IH]; intros [|b l'] E; try discriminate;
    [reflexivity|]. simpl. f_equal. apply IH. now injection E.
Qed.

Lemma map_fst_combine (A B : Type) (l : list A) (l' : list B) :
  List.length l = List.length l' -> map fst (combine l l') = l.
Proof.
  revert l'. induction l as [|a l IH]; intros [|b l'] E; try discriminate;
    [reflexivity|]. simpl. f_equal. apply IH. now injection E.
Qed.

Lemma with_column_other c f df x :
  String.eqb x c = false ->
  map (fun r => r x) (rows (with_column c f df)) = map (fun r => r x) (rows df).
Proof.
  intros N. unfold with_column. cbn [rows]. rewrite map_map.
  apply map_ext. intros r. unfold upd. now rewrite N.
Qed.

Lemma with_column_has_col c f df x :
  has_col x (with_column c f df) = has_col x df || String.eqb x c.
Proof.
  unfold with_column, has_col. cbn [columns].
  destruct (existsb (String.eqb c) (columns df)) eqn:E.
  - destruct (String.eqb_spec x c) as [->|_];
      [now rewrite E | now rewrite orb_false_r].
  - rewrite existsb_app. simpl. now rewrite orb_false_r.
Qed.

Lemma col_sum_cells x rs :
  col_sum x rs = Qsum (map num_of (map (fun r => r x) rs)).
Proof. unfold col_sum. now rewrite map_map. Qed.

Lemma sum_of_group_sums c (gs : list group) :
  Qsum (map num_of (map (fun g => VNum (col_sum c (snd g))) gs))
  = Qsum (map (fun g => col_sum c (snd g)) gs).
Proof. now rewrite map_map. Qed.

Lemma existsb_false_nil (A : Type) (p : A -> bool) (l : list A) :
  (forall x, In x l -> p x = true) -> existsb p l = false -> l = [].
Proof.
  destruct l as [|x l]; [reflexivity|]. simpl. intros H E.
  rewrite (H x) in E by now left. discriminate.
Qed.

Lemma map_pair (A B C D : Type) (f : A -> C) (g : A -> D)
  (f' : B -> C) (g' : B -> D) (l : list A) (l' : list B) :
  map f l = map f' l' -> map g l = map g' l' ->
  map (fun x => (f x, g x)) l = map (fun x => (f' x, g' x)) l'.
Proof.
  revert l'. induction l as [|a l IH]; intros [|b l']; simpl;
    try discriminate; [reflexivity|].
  intros [= E1 E2] [= E3 E4]. f_equal; [congruence | now apply IH].
Qed.

Lemma find_ext_in (A : Type) (p q : A -> bool) (l : list A) :
  (forall x, In x l -> p x = q x) -> find p l = find q l.
Proof.
  induction l as [|a l IH]; intros H; [reflexivity|]. simpl.
  rewrite (H a) by now left. destruct (q a); [reflexivity|].
  apply IH. intros x I. apply H. now right.
Qed.

Lemma nums_length c rs : (List.length (nums c rs) <= List.length rs)%nat.
Proof.
  induction rs as [|r rs IH]; simpl; [lia|].
  destruct (r c); simpl; lia.
Qed.

(** Fewer than two records have no standard deviation. *)
Lemma std_of_one c rs :
  (List.length rs <= 1)%nat -> col_std_round2 c rs = VNull.
Proof.
  intros L. unfold col_std_round2. pose proof (nums_length c rs) as N.
  destruct (nums c rs) as [|x [|y l]]; try reflexivity. simpl in N. lia.
Qed.

Lemma col_count_all c rs :
  (forall r, In r rs -> notna (r c) = true) ->
  col_count c rs = List.length rs.
Proof.
  intros H. unfold col_count. induction rs as [|r rs IH]; [reflexivity|].
  simpl. rewrite (H r) by now left. simpl. f_equal.
  apply IH. intros r' I. apply H. now right.
Qed.

(** The records of the groups are records of the frame. *)
Lemma insert_group_members k r gs g x :
  In g (insert_group k r gs) -> In x (snd g) ->
  x = r \/ exists g', In g' gs /\ In x (snd g').
Proof.
  induction gs as [|[k' rs] gs IH]; simpl.
  - intros [<-|[]] [<-|[]]. now left.
  - destruct (key_compare k k'); simpl.
    + intros [<-|G] X.
      * simpl in X. apply in_app_or in X. destruct X as [X|[<-|[]]];
          [right; exists (k', rs); split; [now left | exact X] | now left].
      * right. exists g. split; [now right | exact X].
    + intros [<-|G] X.
      * destruct X as [<-|[]]. now left.
      * right. exists g. split; [exact G | exact X].
    + intros [<-|G] X.
      * right. exists (k', rs). split; [now left | exact X].
      * destruct (IH G X) as [->|(g' & G' & X')]; [now left|].
        right. exists g'. split; [now right | exact X'].
Qed.

Lemma groups_of_members cols rs acc g x :
  In g (groups_of cols rs acc) -> In x (snd g) ->
  In x rs \/ exists g', In g' acc /\ In x (snd g').
Proof.
  revert acc. induction rs as [|r rs IH]; intros acc G X; simpl in G.
  - right. exists g. split; assumption.
  - destruct (has_null_key cols r).
    + destruct (IH acc G X) as [I|E]; [left; now right | now right].
    + destruct (IH _ G X) as [I|(g' & G' & X')]; [left; now right|].
      destruct (insert_group_members _ _ _ _ _ G' X') as [->|E];
        [left; now left | now right].
Qed.

Lemma groupby_members cols df g x :
  In g (groupby cols df) -> In x (snd g) -> In x (rows df).
Proof.
  intros G X. destruct (groups_of_members cols (rows df) [] g x G X)
    as [I|(g' & [] & _)]. exact I.
Qed.

End FrameFacts.

(* ================================================================= *)
(** * Properties of the extraction controller *)

Module BaseExtractorFacts.
Import Frame BaseExtractor Scenarios FrameFacts.

Section Controller.

Variable Issue : Type.
Variable max_retries : nat.
Variable extract : nat -> result (option DataFrame).
Variable validate : DataFrame -> result (DataFrame * list Issue).
Variable insert_dataframe : DataFrame -> bool.
Variable now : value.

Local Notation "'loop'" := (retry_loop Issue max_retries extract).
Local Notation "'past'" := (after_attempts Issue max_retries extract).
Local Notation "'run'" :=
  (run_extraction Issue max_retries extract validate insert_dataframe now).

Lemma calls_after_attempt (a : nat) (st : Extractor Issue) :
  calls (after_attempt Issue max_retries extract a st) = S (calls st).
Proof.
  unfold after_attempt.
  destruct (extract (calls st)) as [[d|]|e]; try reflexivity.
  destruct (a <? max_retries - 1)%nat; reflexivity.
Qed.

Lemma calls_after_attempts (k a : nat) (st : Extractor Issue) :
  calls (past k a st) = (calls st + k)%nat.
Proof.
  revert a st. induction k as [|k IH]; intros a st; simpl.
  - lia.
  - rewrite IH, calls_after_attempt. lia.
Qed.

Lemma records_after_attempts (k a : nat) (st : Extractor Issue) :
  records_extracted (past k a st) = records_extracted st
  /\ records_failed (past k a st) = records_failed st.
Proof.
  revert a st. induction k as [|k IH]; intros a st; simpl.
  - split; reflexivity.
  - destruct (IH (S a) (after_attempt Issue max_retries extract a st))
      as [-> ->].
    unfold after_attempt.
    destruct (extract (calls st)) as [[d|]|e]; try (split; reflexivity).
    destruct (a <? max_retries - 1)%nat; split; reflexivity.
Qed.

Lemma errors_after_attempts (k a : nat) (st : Extractor Issue) :
  errors (past k a st)
  = errors st ++ failures Issue extract k a (calls st).
Proof.
  revert a st. induction k as [|k IH]; intros a st; simpl.
  - now rewrite app_nil_r.
  - rewrite IH, calls_after_attempt. unfold after_attempt.
    destruct (extract (calls st)) as [[d|]|e]; simpl; try reflexivity.
    destruct (a <? max_retries - 1)%nat; simpl; now rewrite <- app_assoc.
Qed.

Lemma slept_after_attempts (k a : nat) (st : Extractor Issue) :
  slept (past k a st)
  = (slept st + delays max_retries extract k a (calls st))%nat.
Proof.
  revert a st. induction k as [|k IH]; intros a st; simpl.
  - lia.
  - rewrite IH, calls_after_attempt. unfold after_attempt.
    destruct (extract (calls st)) as [[d|]|e]; simpl; try lia.
    destruct (a <? max_retries - 1)%nat; simpl; lia.
Qed.

(** The loop passes over every attempt that ends without data. *)
Lemma retry_loop_skip (k m a : nat) (st : Extractor Issue) :
  (forall j, (j < k)%nat -> without_data (extract (calls st + j)) = true) ->
  loop (k + m)%nat a st = loop m (a + k)%nat (past k a st).
Proof.
  revert a st. induction k as [|k IH]; intros a st H.
  - simpl. now rewrite Nat.add_0_r.
  - assert (H0 : without_data (extract (calls st)) = true).
    { rewrite <- (Nat.add_0_r (calls st)). apply H. lia. }
    assert (HS : forall st' : Extractor Issue, calls st' = S (calls st) ->
              forall j, (j < k)%nat ->
              without_data (extract (calls st' + j)) = true).
    { intros st' E j Hj. rewrite E.
      replace (S (calls st) + j)%nat with (calls st + S j)%nat by lia.
      apply H. lia. }
    replace (a + S k)%nat with (S a + k)%nat by lia.
    simpl. unfold after_attempt.
    destruct (extract (calls st)) as [[d|]|e] eqn:E; simpl in H0.
    + rewrite H0. simpl. apply IH, HS. reflexivity.
    + apply IH, HS. reflexivity.
    + apply IH, HS. destruct (a <? max_retries - 1)%nat; reflexivity.
Qed.

(** No attempt among the [max_retries] gives data: the loop runs them
    all and returns [None]. *)
Lemma extract_with_retry_none (st : Extractor Issue) :
  (forall j, (j < max_retries)%nat ->
     without_data (extract (calls st + j)) = true) ->
  extract_with_retry Issue max_retries extract st
  = (past max_retries 0%nat st, None).
Proof.
  intros H. unfold extract_with_retry.
  rewrite <- (Nat.add_0_r max_retries) at 2.
  rewrite (retry_loop_skip max_retries 0 0 st H). reflexivity.
Qed.

(** The first attempt that gives data ends the loop. *)
Lemma extract_with_retry_some (st : Extractor Issue) (k : nat)
  (data : DataFrame) :
  (k < max_retries)%nat ->
  (forall j, (j < k)%nat -> without_data (extract (calls st + j)) = true) ->
  extract (calls st + k) = Ok (Some data) ->
  empty data = false ->
  extract_with_retry Issue max_retries extract st
  = (call Issue (past k 0%nat st), Some data).
Proof.
  intros Hk H E Hd. unfold extract_with_retry.
  replace max_retries with (k + S (max_retries - S k))%nat at 2 by lia.
  rewrite (retry_loop_skip k _ 0 st H). simpl.
  rewrite calls_after_attempts, E, Hd. reflexivity.
Qed.

Lemma raised_without_data (o : result (option DataFrame)) :
  raised o = true -> without_data o = true.
Proof. destruct o as [[d|]|e]; simpl; congruence. Qed.

(** When every attempt raises, attempt [j] leaves its own entry, and
    every attempt but the last is followed by a delay. *)
Lemma failures_all_raised (k a c : nat) :
  (forall j, (j < k)%nat -> raised (extract (c + j)) = true) ->
  failures Issue extract k a c
  = map (fun j => AttemptError (a + j + 1) (message (extract (c + j))))
        (seq 0 k).
Proof.
  revert a c. induction k as [|k IH]; intros a c H; [reflexivity|].
  cbn [failures seq map]. rewrite <- seq_shift, map_map.
  rewrite IH.
  - assert (H0 : raised (extract c) = true).
    { rewrite <- (Nat.add_0_r c). apply H. lia. }
    rewrite !Nat.add_0_r.
    destruct (extract c) as [[d|]|e]; simpl in H0; try discriminate.
    simpl. f_equal. apply map_ext. intros j.
    replace (S c + j)%nat with (c + S j)%nat by lia.
    f_equal. lia.
    now rewrite Nat.add_succ_r.
  - intros j Hj. replace (S c + j)%nat with (c + S j)%nat by lia.
    apply H. lia.
Qed.

Lemma delays_all_raised (k a c : nat) :
  (forall j, (j < k)%nat -> raised (extract (c + j)) = true) ->
  delays max_retries extract k a c = Nat.min k (max_retries - 1 - a).
Proof.
  revert a c. induction k as [|k IH]; intros a c H; [reflexivity|].
  cbn [delays]. rewrite IH.
  - assert (H0 : raised (extract c) = true).
    { rewrite <- (Nat.add_0_r c). apply H. lia. }
    rewrite H0. cbn [andb].
    destruct (Nat.ltb_spec a (max_retries - 1)); lia.
  - intros j Hj. replace (S c + j)%nat with (c + S j)%nat by lia.
    apply H. lia.
Qed.

Lemma failures_none_raised (k a c : nat) :
  (forall j, (j < k)%nat -> raised (extract (c + j)) = false) ->
  failures Issue extract k a c = []
  /\ delays max_retries extract k a c = 0%nat.
Proof.
  revert a c. induction k as [|k IH]; intros a c H; [split; reflexivity|].
  assert (H0 : raised (extract c) = false).
  { rewrite <- (Nat.add_0_r c). apply H. lia. }
  cbn [failures delays]. rewrite H0.
  destruct (IH (S a) (S c)) as [-> ->].
  - intros j Hj. replace (S c + j)%nat with (c + S j)%nat by lia.
    apply H. lia.
  - destruct (extract c) as [[d|]|e]; simpl in H0; try discriminate;
      split; reflexivity.
Qed.

(** C2, as the code has it.  When each of the [max_retries] attempts
    raises, [extract_with_retry] returns [None] and [run_extraction]
    reports [no_data]; the run has made every attempt, appended one
    entry per attempt (numbered from 1, with its message) to
    [self.errors], and slept after every attempt but the last. *)
Theorem run_extraction_all_attempts_raise (st : Extractor Issue) :
  (forall j, (j < max_retries)%nat -> raised (extract (calls st + j)) = true) ->
  snd (extract_with_retry Issue max_retries extract st) = None
  /\ snd (run st) = no_data
  /\ errors (fst (run st))
     = errors st
       ++ map (fun j => AttemptError (j + 1) (message (extract (calls st + j))))
              (seq 0 max_retries)
  /\ calls (fst (run st)) = (calls st + max_retries)%nat
  /\ slept (fst (run st)) = (slept st + (max_retries - 1))%nat.
Proof.
  intros H. unfold run_extraction.
  rewrite extract_with_retry_none
    by (intros j Hj; apply raised_without_data, H, Hj).
  cbn [fst snd]. split; [reflexivity|]. split; [reflexivity|].
  rewrite errors_after_attempts, calls_after_attempts, slept_after_attempts.
  rewrite failures_all_raised, delays_all_raised by exact H.
  repeat split. f_equal. lia.
Qed.

(** The status [error] comes from [validate] raising on extracted data,
    and from nothing else. *)
Lemma error_status_is_from_validate (st : Extractor Issue) :
  snd (run st) = error <->
  exists data e,
    snd (extract_with_retry Issue max_retries extract st) = Some data
    /\ empty data = false /\ validate data = Raise e.
Proof.
  unfold run_extraction.
  destruct (extract_with_retry Issue max_retries extract st) as [st1 [data|]];
    cbn [snd].
  - destruct (empty data) eqn:E.
    + split; [discriminate|]. intros (d & e & [= <-] & E' & _). congruence.
    + destruct (validate data) as [[vd verrs]|e] eqn:V.
      * split.
        -- destruct (empty vd); [destruct verrs; discriminate|].
           destruct (load_to_bronze Issue insert_dataframe now vd _)
             as [st3 [|]]; discriminate.
        -- intros (d & e & [= <-] & _ & V'). congruence.
      * split; [|reflexivity]. intros _. now exists data, e.
  - split; [discriminate|]. intros (d & e & D & _). discriminate.
Qed.

(** C3, as the code has it.  An attempt that returns an empty result
    (or [None]) does not end the loop: the loop goes on to the next
    attempt, and ends at the first attempt that returns data, however
    many attempts before it came back empty or raised; the run then
    does not report [no_data].  [no_data] is reported when none of the
    [max_retries] attempts returns data, all of them having been made.
    Attempts that do not raise leave no entry in [self.errors] and take
    no delay. *)
Theorem retry_loop_goes_on_after_empty_result (st : Extractor Issue) :
  (forall k data,
     (k < max_retries)%nat ->
     (forall j, (j < k)%nat -> without_data (extract (calls st + j)) = true) ->
     extract (calls st + k) = Ok (Some data) ->
     empty data = false ->
     snd (extract_with_retry Issue max_retries extract st) = Some data
     /\ calls (fst (extract_with_retry Issue max_retries extract st))
        = (calls st + k + 1)%nat
     /\ errors (fst (extract_with_retry Issue max_retries extract st))
        = errors st ++ failures Issue extract k 0 (calls st)
     /\ slept (fst (extract_with_retry Issue max_retries extract st))
        = (slept st + delays max_retries extract k 0 (calls st))%nat
     /\ snd (run st) <> no_data)
  /\ ((forall j, (j < max_retries)%nat ->
         without_data (extract (calls st + j)) = true) ->
      snd (extract_with_retry Issue max_retries extract st) = None
      /\ calls (fst (extract_with_retry Issue max_retries extract st))
         = (calls st + max_retries)%nat
      /\ snd (run st) = no_data)
  /\ (forall k a c,
        (forall j, (j < k)%nat -> raised (extract (c + j)) = false) ->
        failures Issue extract k a c = []
        /\ delays max_retries extract k a c = 0%nat).
Proof.
  split; [|split].
  - intros k data Hk H E Hd. unfold run_extraction.
    rewrite (extract_with_retry_some st k data Hk H E Hd). cbn [fst snd].
    split; [reflexivity|].
    unfold call at 1 2 3. cbn [errors calls slept].
    rewrite errors_after_attempts, slept_after_attempts, calls_after_attempts.
    repeat split; try lia.
    rewrite Hd.
    destruct (validate data) as [[vd verrs]|e]; cbn [snd]; [|discriminate].
    destruct (empty vd); [destruct verrs; discriminate|].
    destruct (load_to_bronze Issue insert_dataframe now vd _) as [st3 [|]];
      discriminate.
  - intros H. unfold run_extraction.
    rewrite (extract_with_retry_none st H). cbn [fst snd].
    rewrite calls_after_attempts. repeat split.
  - apply failures_none_raised.
Qed.

End Controller.

(** ** A run on a provider that is down, and one on a provider that
    answers late *)

(** C2 as stated fails: with three attempts that all raise, the status
    is [no_data], not [error]. *)
Lemma all_attempts_raise_status_is_not_error :
  (forall j, (j < 3)%nat -> raised (down (calls idle + j)) = true)
  /\ snd (run_extraction string 3 down accept stored VNull idle) = no_data
  /\ snd (run_extraction string 3 down accept stored VNull idle) <> error.
Proof.
  split; [reflexivity|]. split; [reflexivity|]. discriminate.
Qed.

Lemma run_extraction_all_attempts_raise_witness :
  snd (extract_with_retry string 3 down idle) = None
  /\ snd (run_extraction string 3 down accept stored VNull idle) = no_data
  /\ errors (fst (run_extraction string 3 down accept stored VNull idle))
     = [ AttemptError 1 "connection timed out";
         AttemptError 2 "connection timed out";
         AttemptError 3 "connection timed out" ]
  /\ calls (fst (run_extraction string 3 down accept stored VNull idle))
     = 3%nat
  /\ slept (fst (run_extraction string 3 down accept stored VNull idle))
     = 2%nat.
Proof.
  apply (run_extraction_all_attempts_raise string 3 down accept stored VNull
           idle).
  intros j Hj. reflexivity.
Defined.

(** C3 as stated fails: the first attempt returns an empty frame without
    raising, yet a second attempt is made, and the run ends in
    [success], not [no_data]. *)
Lemma empty_first_attempt_is_followed_by_another :
  late 0 = Ok (Some empty_frame)
  /\ empty empty_frame = true
  /\ calls (fst (extract_with_retry string 3 late idle)) = 2%nat
  /\ snd (run_extraction string 3 late accept stored VNull idle) = success
  /\ snd (run_extraction string 3 late accept stored VNull idle) <> no_data.
Proof.
  repeat split. discriminate.
Qed.

Lemma retry_loop_goes_on_after_empty_result_witness :
  snd (extract_with_retry string 3 flaky idle) = Some one_record
  /\ calls (fst (extract_with_retry string 3 flaky idle)) = 3%nat
  /\ errors (fst (extract_with_retry string 3 flaky idle))
     = [AttemptError 2 "connection timed out"]
  /\ slept (fst (extract_with_retry string 3 flaky idle)) = 1%nat
  /\ snd (run_extraction string 3 flaky accept stored VNull idle) <> no_data.
Proof.
  apply (proj1 (retry_loop_goes_on_after_empty_result
                  string 3 flaky accept stored VNull idle) 2%nat one_record).
  - simpl. lia.
  - intros [|[|j]] Hj; [reflexivity | reflexivity | simpl in Hj; lia].
  - reflexivity.
  - reflexivity.
Defined.

End BaseExtractorFacts.

(* ================================================================= *)
(** * Properties of the validator *)

Module ValidatorFacts.
Import Frame NFLverseExtractor Scenarios FrameFacts.

(** ** Each step keeps the columns, and (but for the capping) keeps a
    part of the records *)

Lemma incl_drop_duplicates cols seen rs :
  incl (drop_duplicates cols seen rs) rs.
Proof.
  revert seen. induction rs as [|r rs IH]; intros seen; simpl.
  - apply incl_refl.
  - destruct (existsb _ seen).
    + apply incl_tl, IH.
    + apply incl_cons; [now left|]. apply incl_tl, IH.
Qed.

Lemma remove_duplicates_frame s :
  columns (fst (remove_duplicates s)) = columns (fst s)
  /\ incl (rows (fst (remove_duplicates s))) (rows (fst s)).
Proof.
  destruct s as [df errs]. unfold remove_duplicates.
  destruct (has_col "play_id" df && has_col "game_id" df);
    [|split; [reflexivity|apply incl_refl]].
  destruct (_ <? _)%nat; (split; [reflexivity|apply incl_drop_duplicates]).
Qed.

Lemma check_seasons_frame cy s :
  columns (fst (check_seasons cy s)) = columns (fst s)
  /\ incl (rows (fst (check_seasons cy s))) (rows (fst s)).
Proof.
  destruct s as [df errs]. unfold check_seasons.
  destruct (has_col "season" df); [|split; [reflexivity|apply incl_refl]].
  destruct (negb _); (split; [reflexivity|]);
    [apply incl_filter | apply incl_refl].
Qed.

Lemma check_weeks_frame s :
  columns (fst (check_weeks s)) = columns (fst s)
  /\ incl (rows (fst (check_weeks s))) (rows (fst s)).
Proof.
  destruct s as [df errs]. unfold check_weeks.
  destruct (has_col "week" df); [|split; [reflexivity|apply incl_refl]].
  destruct (negb _); (split; [reflexivity|]);
    [apply incl_filter | apply incl_refl].
Qed.

Lemma check_null_frame s col :
  columns (fst (check_null s col)) = columns (fst s)
  /\ incl (rows (fst (check_null s col))) (rows (fst s)).
Proof.
  destruct s as [df errs]. unfold check_null.
  destruct (_ <? _)%nat; (split; [reflexivity|]);
    [apply incl_filter | apply incl_refl].
Qed.

Lemma check_nulls_frame cols s :
  columns (fst (check_nulls cols s)) = columns (fst s)
  /\ incl (rows (fst (check_nulls cols s))) (rows (fst s)).
Proof.
  revert s. induction cols as [|c cols IH]; intros s; simpl.
  - split; [reflexivity|apply incl_refl].
  - destruct (IH (check_null s c)) as [E I].
    destruct (check_null_frame s c) as [E' I'].
    split; [congruence | eapply incl_tran; eassumption].
Qed.

Lemma validate_rows_frame cy data :
  columns (fst (validate_rows cy data)) = columns data
  /\ incl (rows (fst (validate_rows cy data))) (rows data).
Proof.
  unfold validate_rows.
  destruct (check_nulls_frame (required_cols data)
              (check_weeks (check_seasons cy (remove_duplicates (data, [])))))
    as [E1 I1].
  destruct (check_weeks_frame (check_seasons cy (remove_duplicates (data, []))))
    as [E2 I2].
  destruct (check_seasons_frame cy (remove_duplicates (data, []))) as [E3 I3].
  destruct (remove_duplicates_frame (data, [])) as [E4 I4].
  cbn [fst] in E4, I4.
  split; [congruence|].
  exact (incl_tran I1 (incl_tran I2 (incl_tran I3 I4))).
Qed.

(** ** The issues each step appends *)

Lemma staged_app (n m : nat) (l l' : list Issue) :
  staged n l -> Forall (fun i => stage i = m) l' -> (n <= m)%nat ->
  staged m (l ++ l').
Proof.
  intros [S F] F' Hnm. split.
  - induction l as [|x l IH]; simpl.
    + clear S F. induction l' as [|y l' IH]; constructor.
      * apply IH. now inversion F'.
      * inversion F' as [|? ? Hy F'']; subst.
        eapply Forall_impl; [|exact F'']. unfold stage_le. intros; lia.
    + inversion S as [|? ? S' Fx]; subst. inversion F as [|? ? Hx F0]; subst.
      constructor; [now apply IH|].
      apply Forall_app. split; [exact Fx|].
      eapply Forall_impl; [|exact F']. unfold stage_le. intros; lia.
  - apply Forall_app. split.
    + eapply Forall_impl; [|exact F]. simpl. intros; lia.
    + eapply Forall_impl; [|exact F']. simpl. intros; lia.
Qed.

Lemma remove_duplicates_errors s :
  exists l, snd (remove_duplicates s) = snd s ++ l
            /\ Forall (fun i => stage i = 2%nat) l.
Proof.
  destruct s as [df errs]. unfold remove_duplicates.
  destruct (has_col "play_id" df && has_col "game_id" df).
  - destruct (_ <? _)%nat; cbn [snd].
    + eexists. split; [reflexivity|]. repeat constructor.
    + exists []. split; [now rewrite app_nil_r | constructor].
  - exists []. split; [now rewrite app_nil_r | constructor].
Qed.

Lemma check_seasons_errors cy s :
  exists l, snd (check_seasons cy s) = snd s ++ l
            /\ Forall (fun i => stage i = 3%nat) l.
Proof.
  destruct s as [df errs]. unfold check_seasons.
  destruct (has_col "season" df).
  - destruct (negb _); cbn [snd].
    + eexists. split; [reflexivity|]. repeat constructor.
    + exists []. split; [now rewrite app_nil_r | constructor].
  - exists []. split; [now rewrite app_nil_r | constructor].
Qed.

Lemma check_weeks_errors s :
  exists l, snd (check_weeks s) = snd s ++ l
            /\ Forall (fun i => stage i = 4%nat) l.
Proof.
  destruct s as [df errs]. unfold check_weeks.
  destruct (has_col "week" df).
  - destruct (negb _); cbn [snd].
    + eexists. split; [reflexivity|]. repeat constructor.
    + exists []. split; [now rewrite app_nil_r | constructor].
  - exists []. split; [now rewrite app_nil_r | constructor].
Qed.

Lemma check_nulls_errors cols s :
  exists l, snd (check_nulls cols s) = snd s ++ l
            /\ Forall (fun i => stage i = 5%nat) l.
Proof.
  revert s. induction cols as [|c cols IH]; intros s; simpl.
  - exists []. split; [now rewrite app_nil_r | constructor].
  - destruct (IH (check_null s c)) as (l & E & F). rewrite E.
    destruct s as [df errs]. unfold check_null.
    destruct (_ <? _)%nat; cbn [snd].
    + eexists. rewrite <- app_assoc. split; [reflexivity|].
      constructor; [reflexivity | exact F].
    + exists l. split; [reflexivity | exact F].
Qed.

Lemma check_ranges_stage s :
  exists l, snd (check_ranges s) = snd s ++ l
            /\ Forall (fun i => stage i = 6%nat) l.
Proof.
  unfold check_ranges. generalize numeric_validations. intros vs.
  revert s. induction vs as [|v vs IH]; intros s; simpl.
  - exists []. split; [now rewrite app_nil_r | constructor].
  - destruct (IH (check_range s v)) as (l & E & F). rewrite E.
    destruct s as [df errs]. destruct v as [col [lo hi]]. unfold check_range.
    destruct (has_col col df); [destruct (negb _)|]; cbn [snd].
    + eexists. rewrite <- app_assoc. split; [reflexivity|].
      constructor; [reflexivity | exact F].
    + exists l. split; [reflexivity | exact F].
    + exists l. split; [reflexivity | exact F].
Qed.

(** The issues of the steps before the capping, in step order. *)
Lemma validate_rows_staged cy data :
  staged 5 (snd (validate_rows cy data)).
Proof.
  unfold validate_rows.
  destruct (check_nulls_errors (required_cols data)
              (check_weeks (check_seasons cy (remove_duplicates (data, [])))))
    as (l5 & -> & F5).
  destruct (check_weeks_errors (check_seasons cy (remove_duplicates (data, []))))
    as (l4 & -> & F4).
  destruct (check_seasons_errors cy (remove_duplicates (data, [])))
    as (l3 & -> & F3).
  destruct (remove_duplicates_errors (data, [])) as (l2 & -> & F2).
  cbn [snd app].
  apply staged_app with (n := 4%nat); [|exact F5|lia].
  apply staged_app with (n := 3%nat); [|exact F4|lia].
  apply staged_app with (n := 2%nat); [|exact F3|lia].
  apply (staged_app 0 2 [] l2); [|exact F2|lia].
  split; constructor.
Qed.

Lemma validate_staged cy data :
  staged 6 (snd (validate cy data)).
Proof.
  unfold validate. destruct (missing_cols data) eqn:M.
  - destruct (check_ranges_stage (validate_rows cy data)) as (l & -> & F).
    apply staged_app with (n := 5%nat); [apply validate_rows_staged|exact F|lia].
  - cbn [snd]. split; repeat constructor.
Qed.

Lemma sorted_pair (l1 l2 l3 : list Issue) (x y : Issue) :
  StronglySorted stage_le (l1 ++ x :: l2 ++ y :: l3) -> stage_le x y.
Proof.
  induction l1 as [|z l1 IH]; simpl; intros S.
  - apply StronglySorted_inv in S. destruct S as [_ F].
    rewrite Forall_forall in F. apply F, in_or_app. right. now left.
  - apply StronglySorted_inv in S. tauto.
Qed.

(** C6, as the code has it.  [validate] rejects the batch on a missing
    required column with that one issue; otherwise it removes duplicates,
    drops the records outside the temporal domain (season, then week),
    drops the records with a null in a required column, and only then
    caps the numeric columns.  The issues come out in that order: of two
    issues of the list, the earlier one is from the same or an earlier
    step; so every null issue precedes every capping issue, and no
    capping issue is followed by a null issue. *)
Theorem validate_issues_in_step_order (cy : Z) (data : DataFrame) :
  validate cy data
  = match missing_cols data with
    | _ :: _ => (empty_frame, [MissingRequiredColumns (missing_cols data)])
    | [] =>
        check_ranges
          (check_nulls (required_cols data)
             (check_weeks (check_seasons cy (remove_duplicates (data, [])))))
    end
  /\ (forall l1 x l2 y l3,
        snd (validate cy data) = l1 ++ x :: l2 ++ y :: l3 ->
        (stage x <= stage y)%nat)
  /\ (forall l1 l2 l3 n col min_val max_val null_count col',
        snd (validate cy data)
        <> l1 ++ OutOfRange n col min_val max_val
              :: l2 ++ NullValues null_count col' :: l3).
Proof.
  split; [reflexivity|].
  assert (S : forall l1 x l2 y l3,
             snd (validate cy data) = l1 ++ x :: l2 ++ y :: l3 ->
             (stage x <= stage y)%nat).
  { intros l1 x l2 y l3 E. destruct (validate_staged cy data) as [S _].
    rewrite E in S. exact (sorted_pair _ _ _ _ _ S). }
  split; [exact S|].
  intros l1 l2 l3 n col lo hi k col' E. apply S in E. simpl in E. lia.
Qed.

(** C6 as stated fails: the null issue comes before the capping issue,
    and the record dropped for its null is no longer there to be counted
    when the numeric columns are checked. *)
Lemma null_issue_precedes_capping_issue :
  snd (validate 2025 weekly_batch)
  = [ NullValues 1 "player_id";
      OutOfRange 1 "fantasy_points_ppr" (-10) 100 ]
  /\ ~ (forall l1 x l2 y l3,
          snd (validate 2025 weekly_batch) = l1 ++ x :: l2 ++ y :: l3 ->
          stage x = 5%nat -> stage y <> 6%nat).
Proof.
  assert (E : snd (validate 2025 weekly_batch)
              = [ NullValues 1 "player_id";
                  OutOfRange 1 "fantasy_points_ppr" (-10) 100 ])
    by (vm_compute; reflexivity).
  split; [exact E|].
  intros H.
  apply (H [] (NullValues 1 "player_id") []
           (OutOfRange 1 "fantasy_points_ppr" (-10) 100) []);
    [exact E | reflexivity | reflexivity].
Qed.

Lemma validate_issues_in_step_order_witness :
  (stage (NullValues 1 "player_id")
   <= stage (OutOfRange 1 "fantasy_points_ppr" (-10) 100))%nat.
Proof.
  apply (proj1 (proj2 (validate_issues_in_step_order 2025 weekly_batch))
           [] (NullValues 1 "player_id") []
           (OutOfRange 1 "fantasy_points_ppr" (-10) 100) []).
  vm_compute. reflexivity.
Defined.

(** ** The temporal drop and the null drop *)

Lemma season_valid_not_invalid cy r :
  season_valid cy r = true -> season_invalid cy r = false.
Proof.
  unfold season_valid, season_invalid, ge, le, lt, gt.
  destruct (r "season"); try discriminate.
  destruct (Qltb q 2000), (Qltb (inject_Z cy + 1) q); simpl; congruence.
Qed.

Lemma check_seasons_valid cy s r :
  has_col "season" (fst s) = true ->
  In r (rows (fst (check_seasons cy s))) -> season_invalid cy r = false.
Proof.
  destruct s as [df errs]. cbn [fst]. intros C. unfold check_seasons.
  rewrite C, (empty_select "season" _ _ C).
  destruct (filter (season_invalid cy) (rows df)) eqn:F; cbn [negb fst].
  - exact (filter_nil_none _ _ _ r F).
  - cbn [select rows]. intros I. apply filter_In in I.
    apply season_valid_not_invalid. tauto.
Qed.

Lemma check_seasons_counted cy df errs :
  has_col "season" df = true ->
  (0 < List.length (filter (season_invalid cy) (rows df)))%nat ->
  snd (check_seasons cy (df, errs))
  = errs ++ [InvalidSeasons (List.length (filter (season_invalid cy) (rows df)))].
Proof.
  intros C N. unfold check_seasons.
  rewrite C, (empty_select "season" _ _ C).
  destruct (filter (season_invalid cy) (rows df)) eqn:F;
    [simpl in N; lia|].
  cbn [negb snd]. unfold len, select. cbn [rows]. now rewrite F.
Qed.

Lemma check_null_notna s col r :
  In r (rows (fst (check_null s col))) -> isnull (r col) = false.
Proof.
  destruct s as [df errs]. unfold check_null.
  destruct (filter (fun r => isnull (r col)) (rows df)) eqn:F;
    cbn [List.length Nat.ltb Nat.leb fst].
  - exact (filter_nil_none _ (fun r => isnull (r col)) _ r F).
  - cbn [select rows]. intros I. apply filter_In in I.
    destruct I as [_ I]. unfold notna in I. now destruct (isnull (r col)).
Qed.

Lemma check_nulls_notna cols s col r :
  In col cols ->
  In r (rows (fst (check_nulls cols s))) -> isnull (r col) = false.
Proof.
  revert s. induction cols as [|c cols IH]; intros s; [intros []|].
  intros [->|I] R.
  - apply (check_null_notna s col).
    exact (proj2 (check_nulls_frame cols (check_null s col)) r R).
  - exact (IH (check_null s c) I R).
Qed.

Lemma required_cols_season data : In "season" (required_cols data).
Proof.
  unfold required_cols.
  destruct (has_col "play_id" data); [|destruct (has_col "player_id" data)];
    simpl; tauto.
Qed.

Lemma missing_cols_nil data col :
  missing_cols data = [] -> In col (required_cols data) ->
  has_col col data = true.
Proof.
  intros M I. pose proof (filter_nil_none _ _ _ col M I) as H.
  simpl in H. now destruct (has_col col data).
Qed.

(** ** The capping *)

Lemma cap_same col lo hi r :
  lo <= hi -> cap col lo hi r col = clamp lo hi (r col).
Proof.
  intros L. unfold cap, clamp.
  destruct (lt (r col) lo) eqn:E.
  - rewrite upd_same. cbn [gt].
    replace (Qltb hi lo) with false by (symmetry; now apply Qltb_ge).
    apply upd_same.
  - destruct (gt (r col) hi); [apply upd_same | reflexivity].
Qed.

Lemma cap_other col lo hi r c :
  String.eqb c col = false -> cap col lo hi r c = r c.
Proof.
  intros N. unfold cap.
  destruct (lt (r col) lo); [rewrite upd_same|];
    destruct (gt _ hi); rewrite ?upd_other by exact N; reflexivity.
Qed.

Lemma cap_in_range col lo hi r :
  out_of_range col lo hi r = false -> cap col lo hi r = r.
Proof.
  unfold out_of_range, cap. intros H. apply orb_false_elim in H.
  destruct H as [-> ->]. reflexivity.
Qed.

Lemma out_of_range_ext col lo hi r r' :
  r' col = r col -> out_of_range col lo hi r' = out_of_range col lo hi r.
Proof. unfold out_of_range. now intros ->. Qed.

Lemma count_out_of_range_map col lo hi (f : row -> row) rs :
  (forall r, f r col = r col) ->
  count_out_of_range col lo hi (map f rs) = count_out_of_range col lo hi rs.
Proof.
  intros H. unfold count_out_of_range.
  induction rs as [|r rs IH]; [reflexivity|]. cbn [map filter].
  rewrite (out_of_range_ext col lo hi r (f r) (H r)).
  destruct (out_of_range col lo hi r); cbn [List.length]; now rewrite IH.
Qed.

(** One turn of the loop caps the column when the batch has it, and
    reports the records found out of range when there are any. *)
Lemma check_range_spec df errs col lo hi :
  check_range (df, errs) (col, (lo, hi))
  = (mkDF (columns df)
          (map (fun r => if has_col col df then cap col lo hi r else r)
               (rows df)),
     errs ++ if has_col col df
                && (0 <? count_out_of_range col lo hi (rows df))%nat
             then [OutOfRange (count_out_of_range col lo hi (rows df))
                              col lo hi]
             else []).
Proof.
  unfold check_range, count_out_of_range.
  destruct (has_col col df) eqn:C.
  - rewrite (empty_select col _ _ C). unfold len, select. cbn [rows].
    destruct (filter (out_of_range col lo hi) (rows df)) eqn:F.
    + cbn [negb andb List.length Nat.ltb Nat.leb]. rewrite app_nil_r.
      destruct df as [cs rs]. cbn [columns rows] in *. f_equal. f_equal.
      rewrite <- (map_id rs) at 1. apply map_ext_in. intros r I.
      symmetry. apply cap_in_range.
      exact (filter_nil_none _ _ _ r F I).
    + reflexivity.
  - cbn [andb]. rewrite app_nil_r, map_id. now destruct df.
Qed.

Lemma cond_cap_other (b : bool) col lo hi r c :
  String.eqb c col = false ->
  (if b then cap col lo hi r else r) c = r c.
Proof. intros N. destruct b; [now apply cap_other | reflexivity]. Qed.

Lemma check_ranges_rows df errs :
  fst (check_ranges (df, errs))
  = mkDF (columns df) (map (cap_present df) (rows df)).
Proof.
  unfold check_ranges, numeric_validations. cbn [fold_left].
  rewrite !check_range_spec. cbn [fst columns rows].
  rewrite !map_map. reflexivity.
Qed.

Lemma check_ranges_errors df errs :
  snd (check_ranges (df, errs))
  = errs
    ++ flat_map
         (fun v =>
            if has_col (fst v) df
               && (0 <? count_out_of_range (fst v) (fst (snd v)) (snd (snd v))
                                           (rows df))%nat
            then [OutOfRange (count_out_of_range (fst v) (fst (snd v))
                                                 (snd (snd v)) (rows df))
                             (fst v) (fst (snd v)) (snd (snd v))]
            else [])
         numeric_validations.
Proof.
  unfold check_ranges, numeric_validations. cbn [fold_left].
  rewrite !check_range_spec. cbn [snd flat_map fst].
  unfold has_col at 2 4 6. cbn [columns rows]. fold (has_col "air_yards" df).
  fold (has_col "yards_after_catch" df). fold (has_col "fantasy_points_ppr" df).
  rewrite !map_map.
  rewrite !count_out_of_range_map
    by (intros r; rewrite !cond_cap_other by reflexivity; reflexivity).
  rewrite app_nil_r, <- !app_assoc. reflexivity.
Qed.

Lemma cap_present_columns df df' :
  columns df = columns df' -> cap_present df = cap_present df'.
Proof. unfold cap_present, has_col. now intros ->. Qed.

Lemma cap_present_clamps df r col lo hi :
  In (col, (lo, hi)) numeric_validations -> has_col col df = true ->
  cap_present df r col = clamp lo hi (r col).
Proof.
  unfold cap_present, numeric_validations. cbn [fold_left fst snd].
  intros [E|[E|[E|[E|[]]]]] H; injection E as <- <- <-; rewrite H;
    cbv iota; rewrite ?cond_cap_other by reflexivity;
    (rewrite cap_same by discriminate);
    rewrite ?cond_cap_other by reflexivity; reflexivity.
Qed.

Lemma cap_present_other df r c :
  ~ In c (map fst numeric_validations) -> cap_present df r c = r c.
Proof.
  unfold cap_present, numeric_validations. cbn [fold_left fst snd map].
  intros N.
  rewrite !cond_cap_other
    by (apply String.eqb_neq; intros ->; apply N; simpl; tauto).
  reflexivity.
Qed.

Lemma clamp_below lo hi v : v < lo -> clamp lo hi (VNum v) = VNum lo.
Proof.
  intros L. unfold clamp, lt. apply Qltb_lt in L. now rewrite L.
Qed.

(** C5.  On a batch that has its required columns, the last step of
    [validate] keeps every record it is given and brings each configured
    measurement column the batch has back into its range (a value below
    the lower bound becomes the bound: -150 against [-99, 99] becomes
    -99), touching no other column; no record of the output has a season
    below 2000 or above next year, or no season at all; and both kinds
    of violation are in the issue list with their counts. *)
Theorem validate_caps_values_but_drops_records (cy : Z) (data : DataFrame) :
  missing_cols data = [] ->
  rows (fst (validate cy data))
  = map (cap_present data) (rows (fst (validate_rows cy data)))
  /\ (forall r col lo hi,
        In (col, (lo, hi)) numeric_validations -> has_col col data = true ->
        cap_present data r col = clamp lo hi (r col))
  /\ (forall lo hi v, v < lo -> clamp lo hi (VNum v) = VNum lo)
  /\ (forall r c,
        ~ In c (map fst numeric_validations) -> cap_present data r c = r c)
  /\ (forall r,
        In r (rows (fst (validate cy data))) ->
        season_invalid cy r = false /\ isnull (r "season") = false)
  /\ (forall col lo hi,
        In (col, (lo, hi)) numeric_validations -> has_col col data = true ->
        (0 < count_out_of_range col lo hi (rows (fst (validate_rows cy data))))%nat ->
        In (OutOfRange
              (count_out_of_range col lo hi (rows (fst (validate_rows cy data))))
              col lo hi)
           (snd (validate cy data)))
  /\ ((0 < List.length (filter (season_invalid cy)
                          (rows (fst (remove_duplicates (data, []))))))%nat ->
      In (InvalidSeasons
            (List.length (filter (season_invalid cy)
                            (rows (fst (remove_duplicates (data, [])))))))
         (snd (validate cy data))).
Proof.
  intros M.
  assert (V : validate cy data = check_ranges (validate_rows cy data))
    by (unfold validate; now rewrite M).
  destruct (validate_rows_frame cy data) as [C I].
  assert (R : rows (fst (validate cy data))
              = map (cap_present data) (rows (fst (validate_rows cy data)))).
  { rewrite V. destruct (validate_rows cy data) as [df errs].
    rewrite check_ranges_rows. cbn [rows fst] in *.
    now rewrite (cap_present_columns df data C). }
  assert (S : has_col "season" data = true)
    by (apply missing_cols_nil; [exact M | apply required_cols_season]).
  split; [exact R|].
  split; [intros r col lo hi; apply cap_present_clamps|].
  split; [apply clamp_below|].
  split; [intros r c; apply cap_present_other|].
  split; [|split].
  - intros r Hr. rewrite R in Hr. apply in_map_iff in Hr.
    destruct Hr as (r0 & <- & Hr0).
    unfold season_invalid.
    rewrite (cap_present_other data r0 "season")
      by (simpl; intros [E|[E|[E|[E|[]]]]]; discriminate).
    split.
    + apply (check_seasons_valid cy (remove_duplicates (data, []))).
      * unfold has_col.
        rewrite (proj1 (remove_duplicates_frame (data, []))). exact S.
      * apply (proj2 (check_weeks_frame _)).
        apply (proj2 (check_nulls_frame (required_cols data) _)).
        exact Hr0.
    + apply (check_nulls_notna (required_cols data)
               (check_weeks (check_seasons cy (remove_duplicates (data, []))))).
      * apply required_cols_season.
      * exact Hr0.
  - intros col lo hi Hin Hc N. rewrite V.
    destruct (validate_rows cy data) as [df errs]. cbn [fst rows] in *.
    rewrite check_ranges_errors. apply in_or_app. right.
    apply in_flat_map. exists (col, (lo, hi)). split; [exact Hin|].
    cbn [fst snd]. unfold has_col. rewrite C. fold (has_col col data).
    rewrite Hc. apply Nat.ltb_lt in N. rewrite N. now left.
  - intros N. rewrite V. unfold validate_rows.
    destruct (check_ranges_stage
                (check_nulls (required_cols data)
                   (check_weeks (check_seasons cy (remove_duplicates (data, []))))))
      as (l6 & -> & _).
    destruct (check_nulls_errors (required_cols data)
                (check_weeks (check_seasons cy (remove_duplicates (data, [])))))
      as (l5 & -> & _).
    destruct (check_weeks_errors (check_seasons cy (remove_duplicates (data, []))))
      as (l4 & -> & _).
    do 3 (apply in_or_app; left).
    destruct (remove_duplicates (data, [])) as [df errs] eqn:D.
    rewrite check_seasons_counted.
    + apply in_or_app. right. now left.
    + pose proof (proj1 (remove_duplicates_frame (data, []))) as E.
      rewrite D in E. cbn [fst] in E. unfold has_col. rewrite E. exact S.
    + exact N.
Qed.

(** The scenario of C5 run through [validate]. *)
Lemma validate_plays_batch :
  cells (fst (validate 2025 plays_batch))
  = [ [VStr "2023_05_KC_MIN"; VNum 1; VNum 2023; VNum 5; VNum (-99)];
      [VStr "2023_05_KC_MIN"; VNum 3; VNum 2023; VNum 5; VNum 7] ]
  /\ snd (validate 2025 plays_batch)
     = [InvalidSeasons 1; OutOfRange 1 "yards_gained" (-99) 99].
Proof. split; vm_compute; reflexivity. Qed.

Lemma validate_caps_values_but_drops_records_witness :
  missing_cols plays_batch = []
  /\ In (OutOfRange 1 "yards_gained" (-99) 99) (snd (validate 2025 plays_batch))
  /\ In (InvalidSeasons 1) (snd (validate 2025 plays_batch))
  /\ (forall r, In r (rows (fst (validate 2025 plays_batch))) ->
        season_invalid 2025 r = false).
Proof.
  pose proof (validate_caps_values_but_drops_records 2025 plays_batch
                eq_refl) as (_ & _ & _ & _ & D & C & S).
  split; [reflexivity|]. split; [|split].
  - apply (C "yards_gained" (-99) 99); [now left | reflexivity |].
    vm_compute. reflexivity.
  - apply S. vm_compute. reflexivity.
  - intros r Hr. exact (proj1 (D r Hr)).
Defined.

End ValidatorFacts.

(* ================================================================= *)
(** * Properties of the incremental planner *)

Module PlannerFacts.
Import Frame NFLverseExtractor Scenarios FrameFacts.

Section Planner.

Variable extract : request -> result DataFrame.

Lemma gt_inv (v : value) (b : Q) :
  gt v b = true -> exists w, v = VNum w /\ b < w.
Proof.
  destruct v as [|w|s]; try discriminate. simpl. intros H.
  exists w. split; [reflexivity | now apply Qltb_lt].
Qed.

(** C7.  With the high-water mark [(max_season, max_week)] in the
    current season and [max_week] below 22 (so for (2023, 10) in season
    2023), and a provider that answers the request with a batch that has
    a [week] column, the planner makes one request, for the current
    season alone, and returns the records of that batch whose week is
    above [max_week], and only those.  The request for every configured
    season is not made.  If the provider's batch holds only records of
    the requested season, in weeks up to 22, so does the planner's. *)
Theorem extract_incremental_later_weeks_only
  (current_year current_month max_season max_week : Z) (data : DataFrame) :
  max_season = current_season current_year current_month ->
  (max_week < 22)%Z ->
  extract (Some [max_season]) = Ok data ->
  has_col "week" data = true ->
  let planned :=
    extract_incremental extract false
      (Ok (Some (Some max_season, Some max_week)))
      current_year current_month in
  let later := select (fun r => gt (r "week") (inject_Z max_week)) data in
  planned = ([Some [max_season]], Ok later)
  /\ ~ In None (fst planned)
  /\ (forall r, In r (rows later) <->
                In r (rows data)
                /\ exists w, r "week" = VNum w /\ inject_Z max_week < w)
  /\ ((forall r, In r (rows data) ->
                 r "season" = VNum (inject_Z max_season)
                 /\ le (r "week") 22 = true) ->
      forall r, In r (rows later) ->
                r "season" = VNum (inject_Z max_season)
                /\ exists w, r "week" = VNum w
                             /\ inject_Z max_week < w /\ w <= 22).
Proof.
  intros S W E C planned later.
  assert (P : planned = ([Some [max_season]], Ok later)).
  { subst planned later. unfold extract_incremental, plan.
    rewrite <- S, Z.ltb_irrefl, Z.eqb_refl.
    apply Z.ltb_lt in W. rewrite W. cbn [andb]. now rewrite E, C. }
  assert (L : forall r, In r (rows later) <->
                In r (rows data)
                /\ exists w, r "week" = VNum w /\ inject_Z max_week < w).
  { intros r. subst later. unfold select. cbn [rows]. rewrite filter_In.
    split; intros [I G]; (split; [exact I|]).
    - now apply gt_inv.
    - destruct G as (w & -> & G). now apply Qltb_lt. }
  split; [exact P|]. split; [|split; [exact L|]].
  - rewrite P. simpl. intros [H|[]]. discriminate.
  - intros H r Hr. apply L in Hr. destruct Hr as (I & w & Ew & G).
    destruct (H r I) as [Hs Hw]. split; [exact Hs|].
    exists w. split; [exact Ew|]. split; [exact G|].
    rewrite Ew in Hw. simpl in Hw. apply negb_true_iff in Hw.
    now apply Qltb_ge.
Qed.

End Planner.

Lemma extract_incremental_later_weeks_only_witness :
  extract_incremental provider false (Ok (Some (Some 2023, Some 10)))%Z
                      2023 10
  = ([Some [2023%Z]],
     Ok (select (fun r => gt (r "week") 10) season_2023))
  /\ map (fun r => r "week")
         (rows (select (fun r => gt (r "week") 10) season_2023))
     = [VNum 11; VNum 12].
Proof.
  split; [|reflexivity].
  apply (extract_incremental_later_weeks_only provider 2023 10 2023 10
           season_2023); reflexivity.
Defined.

End PlannerFacts.

(* ================================================================= *)
(** * Properties of the roll-ups *)

Module AggregatorFacts.
Import Frame StatsAggregator Scenarios FrameFacts.

(** ** Reading a cell of an aggregated record *)

Lemma present_In df l c : In c (present df l) <-> In c l /\ has_col c df = true.
Proof. unfold present. apply filter_In. Qed.

(** ** Columns that later assignments leave alone *)

Lemma apply_metric_other df res m x :
  List.length (rows df) = List.length (rows res) ->
  String.eqb x (m_name m) = false ->
  map (fun r => r x) (rows (apply_metric df res m)) = map (fun r => r x) (rows res)
  /\ List.length (rows (apply_metric df res m)) = List.length (rows res).
Proof.
  intros L N. unfold apply_metric.
  destruct (source_of df m) as [[num den]|]; [|split; reflexivity].
  cbn [rows]. split.
  - rewrite map_map.
    rewrite <- (map_snd_combine _ _ (rows df) (rows res) L) at 2.
    rewrite map_map. apply map_ext. intros p. unfold upd. now rewrite N.
  - rewrite length_map, length_combine. lia.
Qed.

Lemma metrics_other df ms res x :
  List.length (rows df) = List.length (rows res) ->
  forallb (fun m => negb (String.eqb x (m_name m))) ms = true ->
  map (fun r => r x) (rows (fold_left (apply_metric df) ms res))
  = map (fun r => r x) (rows res)
  /\ List.length (rows (fold_left (apply_metric df) ms res))
     = List.length (rows res).
Proof.
  revert res. induction ms as [|m ms IH]; intros res L N; simpl.
  - split; reflexivity.
  - simpl in N. apply andb_true_iff in N. destruct N as [N1 N2].
    apply negb_true_iff in N1.
    destruct (apply_metric_other df res m x L N1) as [E1 L1].
    destruct (IH (apply_metric df res m)) as [E2 L2]; [congruence|exact N2|].
    split; congruence.
Qed.

Lemma apply_metric_has_col df res m x :
  has_col x res = true -> has_col x (apply_metric df res m) = true.
Proof.
  intros H. unfold apply_metric.
  destruct (source_of df m) as [[num den]|]; [|exact H].
  unfold has_col in *. cbn [columns].
  destruct (existsb (String.eqb (m_name m)) (columns res)); [exact H|].
  rewrite existsb_app, H. reflexivity.
Qed.

Lemma metrics_has_col df ms res x :
  has_col x res = true -> has_col x (fold_left (apply_metric df) ms res) = true.
Proof.
  revert res. induction ms as [|m ms IH]; intros res H; simpl; [exact H|].
  apply IH, apply_metric_has_col, H.
Qed.

Lemma names_notin ms x :
  ~ In x (map m_name ms) ->
  forallb (fun m => negb (String.eqb x (m_name m))) ms = true.
Proof.
  intros N. apply forallb_forall. intros m I. apply negb_true_iff.
  apply String.eqb_neq. intros ->. apply N, in_map, I.
Qed.

(** ** The aggregation succeeds once it has a key and its sources *)

Lemma forallb_sources df (key : string -> string) (f : reducer) l :
  forallb (fun e : string * (string * reducer) => has_col (fst (snd e)) df)
          (map (fun col => (key col, (col, f))) (present df l)) = true.
Proof.
  apply forallb_forall. intros e I. apply in_map_iff in I.
  destruct I as (col & <- & I). apply present_In in I. tauto.
Qed.

Lemma agg_ok groupby_cols d df :
  groupby_cols <> [] ->
  forallb (fun e => has_col (fst (snd e)) df) d = true ->
  agg groupby_cols d df
  = Ok (mkDF (groupby_cols ++ map fst d)
             (map (agg_row groupby_cols d) (groupby groupby_cols df))).
Proof.
  intros N F. unfold agg. destruct groupby_cols; [congruence|]. now rewrite F.
Qed.

Lemma agg_inv groupby_cols d df out :
  agg groupby_cols d df = Ok out ->
  out = mkDF (groupby_cols ++ map fst d)
             (map (agg_row groupby_cols d) (groupby groupby_cols df)).
Proof.
  unfold agg. destruct groupby_cols; [discriminate|].
  destruct (forallb _ d); [|discriminate]. now intros [= <-].
Qed.

(** ** Game level to week level *)

Lemma sum_column_notin (l : list string) (c : string) :
  disjointb SUM_COLUMNS l = true -> In c SUM_COLUMNS -> ~ In c l.
Proof. intros D I I'. exact (disjointb_spec _ _ c D I I'). Qed.

Lemma agg_cells_cons e d rs :
  agg_cells (e :: d) rs
  = (fst e, reduce (snd (snd e)) (fst (snd e)) rs) :: agg_cells d rs.
Proof. reflexivity. Qed.

Lemma agg_cells_app d d' rs :
  agg_cells (d ++ d') rs = agg_cells d rs ++ agg_cells d' rs.
Proof. apply map_app. Qed.

Lemma agg_cells_map (key : string -> string) (f : reducer) l rs :
  agg_cells (map (fun col => (key col, (col, f))) l) rs
  = map (fun col => (key col, reduce f col rs)) l.
Proof. unfold agg_cells. rewrite map_map. reflexivity. Qed.

Lemma lookup_cons_ne k v l c :
  String.eqb c k = false -> lookup ((k, v) :: l) c = lookup l c.
Proof. simpl. now intros ->. Qed.

Lemma forallb_cons_sources df (e : string * (string * reducer)) d :
  has_col (fst (snd e)) df = true ->
  forallb (fun e => has_col (fst (snd e)) df) d = true ->
  forallb (fun e => has_col (fst (snd e)) df) (e :: d) = true.
Proof. intros H1 H2. cbn [forallb]. now rewrite H1, H2. Qed.

Lemma games_played_source df (a b : string * reducer) :
  has_col (fst a) df || has_col (fst b) df = true ->
  has_col (fst (if has_col (fst a) df then a else b)) df = true.
Proof.
  intros H. destruct (has_col (fst a) df) eqn:G; [exact G | exact H].
Qed.

Lemma week_dict_sources df games sums means maxes :
  has_col (fst games) df = true ->
  (forall c, In c sums -> has_col c df = true) ->
  (forall c, In c means -> has_col c df = true) ->
  (forall c, In c maxes -> has_col c df = true) ->
  forallb (fun e => has_col (fst (snd e)) df)
          (week_dict games sums means maxes) = true.
Proof.
  intros G S M X. apply forallb_forall. intros e [<-|I]; [exact G|].
  apply in_app_or in I. destruct I as [I|I];
    [|apply in_app_or in I; destruct I as [I|I]];
    apply in_map_iff in I; destruct I as (c & <- & I); auto.
Qed.

Lemma present_has_col df l c : In c (present df l) -> has_col c df = true.
Proof. intros I. apply present_In in I. tauto. Qed.

Lemma week_sources df :
  has_col "game_id" df || has_col "player_id" df = true ->
  forallb (fun e => has_col (fst (snd e)) df) (week_agg_dict df) = true.
Proof.
  intros H. unfold week_agg_dict.
  apply week_dict_sources; try apply present_has_col.
  exact (games_played_source df ("game_id", r_nunique)
           ("player_id", r_count) H).
Qed.

Lemma week_dict_sum_cell cols games sums means maxes k rs c :
  ~ In c cols -> String.eqb c "games_played" = false -> In c sums ->
  agg_row cols (week_dict games sums means maxes) (k, rs) c
  = VNum (col_sum c rs).
Proof.
  intros N G I. unfold agg_row. rewrite group_row_cell by exact N.
  unfold week_dict.
  rewrite agg_cells_cons, agg_cells_app, agg_cells_map.
  rewrite lookup_cons_ne by exact G.
  now apply (lookup_map_In (fun col => col)
               (fun col => reduce r_sum col rs)); [auto|].
Qed.

Lemma week_dict_columns games sums means maxes c :
  In c sums -> In c (map fst (week_dict games sums means maxes)).
Proof.
  intros I. unfold week_dict. right. rewrite map_app. apply in_or_app. left.
  rewrite map_map. apply in_map_iff. exists c. now split.
Qed.

Lemma week_keys_notin df c :
  In c SUM_COLUMNS -> ~ In c (week_groupby_cols df).
Proof.
  intros I I'. apply present_In in I'. destruct I' as [I' _].
  revert I'. now apply sum_column_notin.
Qed.

Lemma sum_column_neq (x c : string) :
  disjointb SUM_COLUMNS [x] = true -> In c SUM_COLUMNS ->
  String.eqb c x = false.
Proof.
  intros D I. apply String.eqb_neq. intros ->.
  apply (sum_column_notin [x] x D I). now left.
Qed.

Lemma week_sum_cell df g c :
  In c SUM_COLUMNS -> has_col c df = true ->
  agg_row (week_groupby_cols df) (week_agg_dict df) g c
  = VNum (col_sum c (snd g)).
Proof.
  intros I H. destruct g as [k rs]. unfold week_agg_dict.
  apply week_dict_sum_cell.
  - now apply week_keys_notin.
  - now apply sum_column_neq.
  - apply present_In. tauto.
Qed.

Lemma week_columns df c :
  In c SUM_COLUMNS -> has_col c df = true ->
  In c (week_groupby_cols df ++ map fst (week_agg_dict df)).
Proof.
  intros I H. apply in_or_app. right. unfold week_agg_dict.
  apply week_dict_columns, present_In. tauto.
Qed.

(** The derived metrics and the composite key leave the summed columns
    as the aggregation made them. *)
Lemma efficiency_metrics_other df x :
  ~ In x (map m_name METRICS) ->
  map (fun r => r x) (rows (_calculate_efficiency_metrics df))
  = map (fun r => r x) (rows df).
Proof.
  intros N. unfold _calculate_efficiency_metrics.
  apply metrics_other; [reflexivity | now apply names_notin].
Qed.

Lemma efficiency_metrics_has_col df x :
  has_col x df = true -> has_col x (_calculate_efficiency_metrics df) = true.
Proof. apply metrics_has_col. Qed.

Lemma week_finish_other astype_str ws x :
  ~ In x (map m_name METRICS) -> String.eqb x "player_week_key" = false ->
  map (fun r => r x) (rows (week_finish astype_str ws))
  = map (fun r => r x) (rows ws)
  /\ (has_col x ws = true -> has_col x (week_finish astype_str ws) = true).
Proof.
  intros N K. unfold week_finish.
  generalize (efficiency_metrics_other ws x N).
  generalize (efficiency_metrics_has_col ws x).
  generalize (_calculate_efficiency_metrics ws). intros ws' C M.
  destruct (forallb _ _).
  - split.
    + now rewrite with_column_other.
    + intros H. rewrite with_column_has_col, (C H). reflexivity.
  - split; assumption.
Qed.

Lemma week_sum_column astype_str df out c :
  aggregate_to_week_level astype_str df = Ok out ->
  In c SUM_COLUMNS -> has_col c df = true ->
  has_col c out = true
  /\ map (fun r => r c) (rows out)
     = map (fun g => VNum (col_sum c (snd g)))
           (groupby (week_groupby_cols df) df).
Proof.
  unfold aggregate_to_week_level. intros A I H.
  destruct (agg _ _ df) as [week_stats|] eqn:E; [|discriminate].
  apply agg_inv in E.
  assert (O : out = week_finish astype_str week_stats) by congruence.
  destruct (week_finish_other astype_str week_stats c) as [R C].
  { now apply sum_column_notin. }
  { now apply sum_column_neq. }
  rewrite O. split.
  - apply C. rewrite E. apply has_col_In. now apply week_columns.
  - rewrite R, E. unfold rows at 1. rewrite map_map.
    apply map_ext. intros g. now apply week_sum_cell.
Qed.

(** ** Week level to season level *)

Lemma total_inj c c' : total_ c' = total_ c -> c' = c.
Proof. unfold total_. simpl. now intros [= ->]. Qed.

Lemma avg_inj c c' : avg_ c' = avg_ c -> c' = c.
Proof. unfold avg_. simpl. now intros [= ->]. Qed.

Lemma avg_eqb c c' : String.eqb (avg_ c) (avg_ c') = String.eqb c c'.
Proof. reflexivity. Qed.

Lemma total_avg_eqb c c' : String.eqb (total_ c) (avg_ c') = false.
Proof. reflexivity. Qed.

Lemma avg_total_eqb c c' : String.eqb (avg_ c) (total_ c') = false.
Proof. reflexivity. Qed.

Lemma season_keys_notin df x :
  forallb (fun k => negb (String.eqb x k))
          ["player_id"; "player_name"; "position"; "team"; "season"] = true ->
  ~ In x (season_groupby_cols df).
Proof.
  intros F I. apply present_In in I. destruct I as [I _].
  rewrite forallb_forall in F. specialize (F x I).
  now rewrite String.eqb_refl in F.
Qed.

Lemma season_dict_total_cell cols games sums means k rs c :
  ~ In (total_ c) cols -> In c sums ->
  agg_row cols (season_dict games sums means) (k, rs) (total_ c)
  = VNum (col_sum c rs).
Proof.
  intros N I. unfold agg_row. rewrite group_row_cell by exact N.
  unfold season_dict.
  rewrite agg_cells_cons, agg_cells_app, agg_cells_map.
  rewrite lookup_cons_ne by reflexivity.
  now apply (lookup_map_In total_ (fun col => reduce r_sum col rs));
    [intros c'; apply total_inj|].
Qed.

Lemma season_dict_avg_cell cols games sums means k rs c :
  ~ In (avg_ c) cols -> In c means ->
  agg_row cols (season_dict games sums means) (k, rs) (avg_ c)
  = col_mean c rs.
Proof.
  intros N I. unfold agg_row. rewrite group_row_cell by exact N.
  unfold season_dict.
  rewrite agg_cells_cons, agg_cells_app, !agg_cells_map.
  rewrite lookup_cons_ne by reflexivity.
  rewrite lookup_map_notin
    by (intros c' _ E; apply (f_equal (fun s => String.eqb s (avg_ c))) in E;
        rewrite String.eqb_refl in E; discriminate E).
  rewrite <- (app_nil_r (map _ means)).
  now apply (lookup_map_In avg_ (fun col => reduce r_mean col rs));
    [intros c'; apply avg_inj|].
Qed.

Lemma season_dict_games_cell cols games sums means k rs :
  ~ In "games_played" cols ->
  agg_row cols (season_dict games sums means) (k, rs) "games_played"
  = reduce (snd games) (fst games) rs.
Proof.
  intros N. unfold agg_row. rewrite group_row_cell by exact N. reflexivity.
Qed.

Lemma season_dict_columns games sums means c :
  In c sums -> In (total_ c) (map fst (season_dict games sums means)).
Proof.
  intros I. unfold season_dict. right. rewrite map_app. apply in_or_app. left.
  rewrite map_map. apply in_map_iff. exists c. now split.
Qed.

Lemma season_dict_sources df games sums means :
  has_col (fst games) df = true ->
  (forall c, In c sums -> has_col c df = true) ->
  (forall c, In c means -> has_col c df = true) ->
  forallb (fun e => has_col (fst (snd e)) df)
          (season_dict games sums means) = true.
Proof.
  intros G S M. apply forallb_forall. intros e [<-|I]; [exact G|].
  apply in_app_or in I. destruct I as [I|I];
    apply in_map_iff in I; destruct I as (c & <- & I); auto.
Qed.

Lemma season_sources df :
  has_col "games_played" df || has_col "week" df = true ->
  forallb (fun e => has_col (fst (snd e)) df) (season_agg_dict df) = true.
Proof.
  intros H. unfold season_agg_dict.
  apply season_dict_sources; try apply present_has_col.
  exact (games_played_source df ("games_played", r_sum)
           ("week", r_nunique) H).
Qed.

(** The per-game averages. *)

Lemma per_game_average_other stats col x :
  String.eqb x (avg_ col) = false ->
  map (fun r => r x) (rows (per_game_average stats col))
  = map (fun r => r x) (rows stats).
Proof.
  intros N. unfold per_game_average.
  destruct (has_col (total_ col) stats); [|reflexivity].
  now apply with_column_other.
Qed.

Lemma per_game_average_has_col stats col x :
  has_col x stats = true -> has_col x (per_game_average stats col) = true.
Proof.
  intros H. unfold per_game_average.
  destruct (has_col (total_ col) stats); [|exact H].
  now rewrite with_column_has_col, H.
Qed.

Lemma per_game_fold_other l stats x :
  (forall col, In col l -> String.eqb x (avg_ col) = false) ->
  map (fun r => r x) (rows (fold_left per_game_average l stats))
  = map (fun r => r x) (rows stats).
Proof.
  revert stats. induction l as [|col l IH]; intros stats N; simpl;
    [reflexivity|].
  rewrite IH by (intros col' I; apply N; now right).
  apply per_game_average_other, N. now left.
Qed.

Lemma per_game_fold_has_col l stats x :
  has_col x stats = true ->
  has_col x (fold_left per_game_average l stats) = true.
Proof.
  revert stats. induction l as [|col l IH]; intros stats H; simpl; [exact H|].
  apply IH, per_game_average_has_col, H.
Qed.

Lemma per_game_average_keeps stats col c :
  (has_col (total_ col) stats = true -> col = c
   \/ forall r, In r (rows stats) -> per_game c r) ->
  (has_col (total_ col) stats = false ->
   forall r, In r (rows stats) -> per_game c r) ->
  forall r, In r (rows (per_game_average stats col)) -> per_game c r.
Proof.
  intros HT HF r. unfold per_game_average.
  destruct (has_col (total_ col) stats); [|now apply HF].
  unfold with_column. cbn [rows]. intros I. apply in_map_iff in I.
  destruct I as (r0 & <- & I). unfold per_game, upd.
  rewrite avg_eqb, total_avg_eqb.
  replace (String.eqb "games_played" (avg_ col)) with false by reflexivity.
  destruct (String.eqb_spec c col) as [->|N]; [reflexivity|].
  destruct (HT eq_refl) as [E|K]; [congruence | exact (K r0 I)].
Qed.

Lemma per_game_fold_keeps l stats c :
  (forall r, In r (rows stats) -> per_game c r) ->
  forall r, In r (rows (fold_left per_game_average l stats)) -> per_game c r.
Proof.
  revert stats. induction l as [|col l IH]; intros stats K; simpl; [exact K|].
  apply IH. apply per_game_average_keeps; intros _; [right|]; exact K.
Qed.

Lemma per_game_fold_sets l stats c :
  In c l -> has_col (total_ c) stats = true ->
  forall r, In r (rows (fold_left per_game_average l stats)) -> per_game c r.
Proof.
  revert stats. induction l as [|col l IH]; intros stats I H; [destruct I|].
  simpl. destruct (String.eqb_spec col c) as [->|N].
  - apply per_game_fold_keeps.
    apply per_game_average_keeps; [now left | congruence].
  - destruct I as [E|I]; [congruence|].
    apply IH; [exact I | now apply per_game_average_has_col].
Qed.

Lemma season_finish_other astype_str stats x :
  (forall col, In col SUM_COLUMNS -> String.eqb x (avg_ col) = false) ->
  String.eqb x "season_key" = false ->
  map (fun r => r x) (rows (season_finish astype_str stats))
  = map (fun r => r x) (rows stats)
  /\ (has_col x stats = true ->
      has_col x (season_finish astype_str stats) = true).
Proof.
  intros N K. unfold season_finish.
  assert (M : map (fun r => r x) (rows (per_game_averages stats))
              = map (fun r => r x) (rows stats)).
  { unfold per_game_averages. destruct (_ && _); [|reflexivity].
    now apply per_game_fold_other. }
  assert (C : has_col x stats = true ->
              has_col x (per_game_averages stats) = true).
  { unfold per_game_averages. destruct (_ && _); [|auto].
    apply per_game_fold_has_col. }
  revert M C. generalize (per_game_averages stats). intros stats' M C.
  destruct (_ && _).
  - split.
    + now rewrite with_column_other.
    + intros H. rewrite with_column_has_col, (C H). reflexivity.
  - split; assumption.
Qed.

Lemma season_finish_per_game astype_str stats c :
  In c SUM_COLUMNS ->
  has_col (total_ c) stats = true ->
  has_col "games_played" stats = true ->
  (forall r, In r (rows stats) -> notna (r "games_played") = true) ->
  forall r, In r (rows (season_finish astype_str stats)) -> per_game c r.
Proof.
  intros I T G NN.
  assert (P : forall r, In r (rows (per_game_averages stats)) -> per_game c r).
  { unfold per_game_averages. rewrite G. cbn [andb].
    destruct (existsb (fun r => notna (r "games_played")) (rows stats)) eqn:E.
    - now apply per_game_fold_sets.
    - rewrite (existsb_false_nil _ _ _ NN E). intros r []. }
  unfold season_finish. revert P. generalize (per_game_averages stats).
  intros stats' P r. destruct (_ && _); [|apply P].
  unfold with_column. cbn [rows]. intros R. apply in_map_iff in R.
  destruct R as (r0 & <- & R). specialize (P r0 R).
  unfold per_game, upd in *.
  replace (String.eqb (avg_ c) "season_key") with false by reflexivity.
  replace (String.eqb (total_ c) "season_key") with false by reflexivity.
  exact P.
Qed.

Lemma mean_column_avg_neq c col :
  In c MEAN_COLUMNS -> In col SUM_COLUMNS ->
  String.eqb (avg_ c) (avg_ col) = false.
Proof.
  intros I I'. rewrite avg_eqb. apply String.eqb_neq. intros ->.
  apply (disjointb_spec SUM_COLUMNS MEAN_COLUMNS col); auto.
Qed.

Lemma season_games_played_notna df g :
  notna (agg_row (season_groupby_cols df) (season_agg_dict df) g
                 "games_played") = true.
Proof.
  destruct g as [k rs]. unfold season_agg_dict.
  rewrite season_dict_games_cell by now apply season_keys_notin.
  destruct (has_col "games_played" df); reflexivity.
Qed.

Lemma agg_frame groupby_cols d df out :
  agg groupby_cols d df = Ok out ->
  columns out = groupby_cols ++ map fst d
  /\ rows out = map (agg_row groupby_cols d) (groupby groupby_cols df).
Proof. intros A. apply agg_inv in A. subst out. split; reflexivity. Qed.

Lemma season_dict_games_column games sums means :
  In "games_played" (map fst (season_dict games sums means)).
Proof. now left. Qed.

Lemma season_total_column df c :
  In c SUM_COLUMNS -> has_col c df = true ->
  In (total_ c) (season_groupby_cols df ++ map fst (season_agg_dict df)).
Proof.
  intros I H. apply in_or_app. right. unfold season_agg_dict.
  apply season_dict_columns, present_In. tauto.
Qed.

Lemma season_games_column df :
  In "games_played" (season_groupby_cols df ++ map fst (season_agg_dict df)).
Proof.
  apply in_or_app. right. unfold season_agg_dict.
  apply season_dict_games_column.
Qed.

Lemma season_total_cell df g c :
  In c SUM_COLUMNS -> has_col c df = true ->
  agg_row (season_groupby_cols df) (season_agg_dict df) g (total_ c)
  = VNum (col_sum c (snd g)).
Proof.
  intros I H. destruct g as [k rs]. unfold season_agg_dict.
  apply season_dict_total_cell.
  - now apply season_keys_notin.
  - apply present_In. tauto.
Qed.

Lemma season_avg_cell df g c :
  In c MEAN_COLUMNS -> has_col c df = true ->
  agg_row (season_groupby_cols df) (season_agg_dict df) g (avg_ c)
  = col_mean c (snd g).
Proof.
  intros I H. destruct g as [k rs]. unfold season_agg_dict.
  apply season_dict_avg_cell.
  - now apply season_keys_notin.
  - apply present_In. tauto.
Qed.

(** What [aggregate_to_season_level] returns, column by column. *)
Lemma season_columns astype_str df out :
  aggregate_to_season_level astype_str df = Ok out ->
  (forall c, In c SUM_COLUMNS -> has_col c df = true ->
     has_col (total_ c) out = true
     /\ map (fun r => r (total_ c)) (rows out)
        = map (fun g => VNum (col_sum c (snd g)))
              (groupby (season_groupby_cols df) df)
     /\ forall r, In r (rows out) -> per_game c r)
  /\ (forall c, In c MEAN_COLUMNS -> has_col c df = true ->
      map (fun r => r (avg_ c)) (rows out)
      = map (fun g => col_mean c (snd g))
            (groupby (season_groupby_cols df) df)).
Proof.
  unfold aggregate_to_season_level. intros A.
  destruct (agg _ _ df) as [stats|] eqn:E; [|discriminate].
  apply agg_frame in E. destruct E as [EC ER].
  assert (O : out = season_finish astype_str stats) by congruence.
  clear A. subst out. split.
  - intros c I H.
    assert (T : has_col (total_ c) stats = true).
    { apply has_col_In. rewrite EC. now apply season_total_column. }
    destruct (season_finish_other astype_str stats (total_ c)) as [R C];
      [intros col _; apply total_avg_eqb | reflexivity |].
    split; [exact (C T)|]. split.
    + rewrite R, ER, map_map. apply map_ext.
      intros g. now apply season_total_cell.
    + apply season_finish_per_game; [exact I | exact T | |].
      * apply has_col_In. rewrite EC. apply season_games_column.
      * rewrite ER. intros r R'. apply in_map_iff in R'.
        destruct R' as (g & <- & _). apply season_games_played_notna.
  - intros c I H.
    destruct (season_finish_other astype_str stats (avg_ c)) as [R _];
      [intros col; now apply mean_column_avg_neq | reflexivity |].
    rewrite R, ER, map_map. apply map_ext.
    intros g. now apply season_avg_cell.
Qed.

Lemma week_rollup_ok astype_str df :
  week_groupby_cols df <> [] ->
  has_col "game_id" df || has_col "player_id" df = true ->
  exists out, aggregate_to_week_level astype_str df = Ok out.
Proof.
  intros K G. unfold aggregate_to_week_level.
  rewrite (agg_ok _ _ df K (week_sources df G)). eexists. reflexivity.
Qed.

Lemma season_rollup_ok astype_str df :
  season_groupby_cols df <> [] ->
  has_col "games_played" df || has_col "week" df = true ->
  exists out, aggregate_to_season_level astype_str df = Ok out.
Proof.
  intros K G. unfold aggregate_to_season_level.
  rewrite (agg_ok _ _ df K (season_sources df G)). eexists. reflexivity.
Qed.

Lemma rolled_up_total (x c : string) (cols : list string) (df out : DataFrame) :
  map (fun r => r x) (rows out)
  = map (fun g => VNum (col_sum c (snd g))) (groupby cols df) ->
  col_sum x (rows out) == col_sum c (complete cols (rows df)).
Proof.
  intros M. rewrite col_sum_cells, M, sum_of_group_sums. apply groupby_sum.
Qed.

(** Roll-up exactness where every record reaches a group.  Both
    roll-ups return once the batch has a grouping column and the column
    [games_played] is computed from; and then, for every summed column
    [c] of the batch, the output has the column ([c] at week level,
    [total_c] at season level) and its total over the output records is
    the total of [c] over the input records whose grouping cells are all
    present.  It is the total over all the input records when no
    grouping cell is missing. *)
Theorem roll_up_totals (astype_str : value -> string) (df : DataFrame) :
  (week_groupby_cols df <> [] ->
   has_col "game_id" df || has_col "player_id" df = true ->
   exists out,
     aggregate_to_week_level astype_str df = Ok out
     /\ forall c, In c SUM_COLUMNS -> has_col c df = true ->
          has_col c out = true
          /\ col_sum c (rows out)
             == col_sum c (complete (week_groupby_cols df) (rows df))
          /\ ((forall r, In r (rows df) ->
                         has_null_key (week_groupby_cols df) r = false) ->
              col_sum c (rows out) == col_sum c (rows df)))
  /\ (season_groupby_cols df <> [] ->
      has_col "games_played" df || has_col "week" df = true ->
      exists out,
        aggregate_to_season_level astype_str df = Ok out
        /\ forall c, In c SUM_COLUMNS -> has_col c df = true ->
             has_col (total_ c) out = true
             /\ col_sum (total_ c) (rows out)
                == col_sum c (complete (season_groupby_cols df) (rows df))
             /\ ((forall r, In r (rows df) ->
                            has_null_key (season_groupby_cols df) r = false) ->
                 col_sum (total_ c) (rows out) == col_sum c (rows df))).
Proof.
  split; intros K G.
  - destruct (week_rollup_ok astype_str df K G) as [out A].
    exists out. split; [exact A|]. intros c I H.
    destruct (week_sum_column astype_str df out c A I H) as [C M].
    split; [exact C|].
    pose proof (rolled_up_total c c _ df out M) as T.
    split; [exact T|]. intros N. rewrite T.
    now rewrite (complete_all _ _ N).
  - destruct (season_rollup_ok astype_str df K G) as [out A].
    exists out. split; [exact A|]. intros c I H.
    destruct (proj1 (season_columns astype_str df out A) c I H) as (C & M & _).
    split; [exact C|].
    pose proof (rolled_up_total (total_ c) c _ df out M) as T.
    split; [exact T|]. intros N. rewrite T.
    now rewrite (complete_all _ _ N).
Qed.

(** C8, as the code has it.  At season level the per-game average of a
    summed column is its season total over the games played, rounded to
    two places (and no number when no game was played); the season total
    is the sum of the weekly values of the group.  An averaged column of
    [MEAN_COLUMNS] is carried up as the arithmetic mean of the weekly
    values of the group. *)
Theorem season_averages (astype_str : value -> string) (df out : DataFrame) :
  aggregate_to_season_level astype_str df = Ok out ->
  (forall c, In c SUM_COLUMNS -> has_col c df = true ->
     (forall r, In r (rows out) ->
        r (avg_ c) = vround2 (vdiv (r (total_ c)) (r "games_played")))
     /\ map (fun r => r (total_ c)) (rows out)
        = map (fun g => VNum (col_sum c (snd g)))
              (groupby (season_groupby_cols df) df))
  /\ (forall c, In c MEAN_COLUMNS -> has_col c df = true ->
      map (fun r => r (avg_ c)) (rows out)
      = map (fun g => col_mean c (snd g))
            (groupby (season_groupby_cols df) df)).
Proof.
  intros A. destruct (season_columns astype_str df out A) as [S M].
  split; [|exact M]. intros c I H.
  destruct (S c I H) as (_ & T & P). split; [exact P | exact T].
Qed.

(** ** The derived ratios *)

Lemma apply_metric_length df res m :
  List.length (rows df) = List.length (rows res) ->
  List.length (rows (apply_metric df res m)) = List.length (rows res).
Proof.
  intros L. unfold apply_metric.
  destruct (source_of df m) as [[num den]|]; [|reflexivity].
  cbn [rows]. rewrite length_map, length_combine. lia.
Qed.

Lemma apply_metric_sets df res m num den :
  List.length (rows df) = List.length (rows res) ->
  source_of df m = Some (num, den) ->
  map (fun r => r (m_name m)) (rows (apply_metric df res m))
  = map (ratio num den (m_pct m)) (rows df).
Proof.
  intros L S. unfold apply_metric. rewrite S. cbn [rows].
  rewrite map_map.
  rewrite <- (map_fst_combine _ _ (rows df) (rows res) L) at 2.
  rewrite map_map. apply map_ext. intros p. apply upd_same.
Qed.

Lemma metrics_sets df ms res m num den :
  List.length (rows df) = List.length (rows res) ->
  NoDup (map m_name ms) -> In m ms ->
  source_of df m = Some (num, den) ->
  map (fun r => r (m_name m)) (rows (fold_left (apply_metric df) ms res))
  = map (ratio num den (m_pct m)) (rows df).
Proof.
  revert res. induction ms as [|m0 ms IH]; intros res L D I S; [destruct I|].
  simpl. simpl in D. apply NoDup_cons_iff in D. destruct D as [D0 D].
  pose proof (apply_metric_length df res m0 L) as L0.
  destruct I as [->|I].
  - destruct (metrics_other df ms (apply_metric df res m) (m_name m))
      as [E _]; [congruence | now apply names_notin |].
    rewrite E. now apply apply_metric_sets.
  - apply IH; [congruence | exact D | exact I | exact S].
Qed.

Lemma metric_names_distinct : NoDup (map m_name METRICS).
Proof.
  unfold METRICS. cbn [map m_name].
  repeat (apply NoDup_cons; [simpl; intuition discriminate|]).
  apply NoDup_nil.
Qed.

Lemma efficiency_metrics_sets df m num den :
  In m METRICS -> source_of df m = Some (num, den) ->
  map (fun r => r (m_name m)) (rows (_calculate_efficiency_metrics df))
  = map (ratio num den (m_pct m)) (rows df).
Proof.
  intros I S. unfold _calculate_efficiency_metrics.
  now apply metrics_sets; [| apply metric_names_distinct | |].
Qed.

(** The ratio is 0 unless the denominator is a number above 0. *)
Lemma ratio_zero num den pct r :
  gt (r den) 0 = false -> ratio num den pct r = VNum 0.
Proof. unfold ratio, np_where. now intros ->. Qed.

Lemma ratio_zero_denominator num den pct r d :
  r den = VNum d -> d == 0 -> ratio num den pct r = VNum 0.
Proof.
  intros E Z. apply ratio_zero. rewrite E. simpl.
  apply Qltb_ge. rewrite Z. apply Qle_refl.
Qed.

(** On two numbers the ratio is a number. *)
Lemma ratio_number num den pct r n d :
  r num = VNum n -> r den = VNum d -> exists q, ratio num den pct r = VNum q.
Proof.
  intros En Ed. unfold ratio, np_where. rewrite En, Ed. simpl.
  destruct (Qltb 0 d) eqn:G; [|now eexists].
  replace (Qeq_bool d 0) with false.
  - destruct pct; now eexists.
  - symmetry. apply not_true_is_false. intros E. apply Qeq_bool_eq in E.
    apply Qltb_lt in G. rewrite E in G.
    exact (Qlt_irrefl 0 G).
Qed.

(** The summed columns of the aggregated frame are those of the batch. *)
Lemma week_dict_columns_inv games sums means maxes c :
  In c (map fst (week_dict games sums means maxes)) ->
  c = "games_played" \/ In c sums \/ In c means \/ In c maxes.
Proof.
  unfold week_dict. intros [E|I]; [now left|]. right.
  rewrite !map_app, !map_map in I. cbn [fst] in I. rewrite !map_id in I.
  apply in_app_or in I. destruct I as [I|I]; [tauto|].
  apply in_app_or in I. tauto.
Qed.

Lemma week_columns_inv df c :
  In c SUM_COLUMNS ->
  In c (week_groupby_cols df ++ map fst (week_agg_dict df)) ->
  has_col c df = true.
Proof.
  intros I H. apply in_app_or in H. destruct H as [H|H].
  - now apply week_keys_notin in H.
  - unfold week_agg_dict in H. apply week_dict_columns_inv in H.
    destruct H as [->|[H|[H|H]]].
    + exfalso.
      apply (sum_column_notin ["games_played"] "games_played" eq_refl I).
      now left.
    + now apply present_has_col in H.
    + apply present_In in H. destruct H as [H _]. exfalso.
      now apply (disjointb_spec SUM_COLUMNS MEAN_COLUMNS c).
    + apply present_In in H. destruct H as [H _]. exfalso.
      now apply (disjointb_spec SUM_COLUMNS MAX_COLUMNS c).
Qed.

(** The columns the metrics read are summed columns. *)
Lemma metric_sources_summed m num den :
  In m METRICS -> In (num, den) (m_sources m) ->
  In num SUM_COLUMNS /\ In den SUM_COLUMNS.
Proof.
  unfold METRICS. intros I S.
  repeat (destruct I as [<-|I];
          [cbn [m_sources] in S;
           repeat (destruct S as [[= <- <-]|S]; [split; vm_compute; tauto|]);
           destruct S|]).
  destruct I.
Qed.

Lemma source_of_In df m num den :
  source_of df m = Some (num, den) ->
  In (num, den) (m_sources m)
  /\ has_col num df = true /\ has_col den df = true.
Proof.
  unfold source_of. intros F. apply find_some in F. cbn [fst snd] in F.
  destruct F as [I H]. apply andb_true_iff in H. tauto.
Qed.

Lemma week_has_col df ws c :
  agg (week_groupby_cols df) (week_agg_dict df) df = Ok ws ->
  In c SUM_COLUMNS -> has_col c ws = has_col c df.
Proof.
  intros A I. apply agg_frame in A. destruct A as [EC _].
  destruct (has_col c df) eqn:H.
  - apply has_col_In. rewrite EC. now apply week_columns.
  - destruct (has_col c ws) eqn:H'; [|reflexivity].
    apply has_col_In in H'. rewrite EC in H'.
    apply (week_columns_inv df c I) in H'. congruence.
Qed.

Lemma week_source_of df ws m :
  agg (week_groupby_cols df) (week_agg_dict df) df = Ok ws ->
  In m METRICS -> source_of ws m = source_of df m.
Proof.
  intros A I. unfold source_of. apply find_ext_in. intros [num den] S.
  destruct (metric_sources_summed m num den I S) as [In_num In_den].
  cbn [fst snd].
  now rewrite (week_has_col df ws num A In_num),
              (week_has_col df ws den A In_den).
Qed.

Lemma week_finish_metric astype_str ws x :
  String.eqb x "player_week_key" = false ->
  map (fun r => r x) (rows (week_finish astype_str ws))
  = map (fun r => r x) (rows (_calculate_efficiency_metrics ws)).
Proof.
  intros K. unfold week_finish.
  generalize (_calculate_efficiency_metrics ws). intros ws'.
  destruct (forallb _ _); [|reflexivity]. now apply with_column_other.
Qed.

Lemma metric_name_not_key m :
  In m METRICS -> String.eqb (m_name m) "player_week_key" = false.
Proof.
  intros I.
  assert (F : forallb (fun m => negb (String.eqb (m_name m) "player_week_key"))
                      METRICS = true) by reflexivity.
  rewrite forallb_forall in F. apply negb_true_iff. now apply F.
Qed.

(** C9.  [_calculate_efficiency_metrics] writes each ratio it has the
    two columns for, record by record, as [ratio] computes it, and
    [ratio] is 0 whenever the denominator is 0 (more generally, not a
    number above 0) and a number whenever numerator and denominator are
    numbers.  In the output of the week roll-up, where numerators and
    denominators are sums, every ratio cell is a number, and it is 0 in
    every record whose denominator is 0. *)
Theorem efficiency_ratios (m : metric) (num den : string) :
  In m METRICS ->
  (forall df,
     source_of df m = Some (num, den) ->
     map (fun r => r (m_name m)) (rows (_calculate_efficiency_metrics df))
     = map (ratio num den (m_pct m)) (rows df))
  /\ (forall r,
        (forall d, r den = VNum d -> d == 0 ->
                   ratio num den (m_pct m) r = VNum 0)
        /\ (gt (r den) 0 = false -> ratio num den (m_pct m) r = VNum 0)
        /\ (forall n d, r num = VNum n -> r den = VNum d ->
                        exists q, ratio num den (m_pct m) r = VNum q))
  /\ (forall astype_str df out,
        aggregate_to_week_level astype_str df = Ok out ->
        source_of df m = Some (num, den) ->
        forall r, In r (rows out) ->
          (exists q, r (m_name m) = VNum q)
          /\ (forall d, r den = VNum d -> d == 0 -> r (m_name m) = VNum 0)).
Proof.
  intros I. split; [|split].
  - intros df S. now apply efficiency_metrics_sets.
  - intros r. split; [|split].
    + apply ratio_zero_denominator.
    + apply ratio_zero.
    + apply ratio_number.
  - intros astype_str df out A S r R.
    unfold aggregate_to_week_level in A.
    destruct (agg _ _ df) as [ws|] eqn:E; [|discriminate].
    assert (O : out = week_finish astype_str ws) by congruence.
    clear A. subst out.
    pose proof (week_source_of df ws m E I) as S'. rewrite S in S'.
    destruct (source_of_In df m num den S) as (Src & Hn & Hd).
    destruct (metric_sources_summed m num den I Src) as [In_num In_den].
    pose proof (agg_frame _ _ _ _ E) as [_ ER].
    assert (P : map (fun r => (r den, r (m_name m)))
                    (rows (week_finish astype_str ws))
                = map (fun r0 => (r0 den, ratio num den (m_pct m) r0))
                      (rows ws)).
    { apply map_pair.
      - apply week_finish_other;
          [now apply sum_column_notin | now apply sum_column_neq].
      - rewrite week_finish_metric by now apply metric_name_not_key.
        now apply efficiency_metrics_sets. }
    apply (in_map (fun r => (r den, r (m_name m)))) in R.
    rewrite P in R. apply in_map_iff in R.
    destruct R as (r0 & [= Ed Er] & R0).
    rewrite ER in R0. apply in_map_iff in R0. destruct R0 as (g & <- & _).
    rewrite <- Er, <- Ed. split.
    + apply (ratio_number num den (m_pct m) _
               (col_sum num (snd g)) (col_sum den (snd g)));
        now apply week_sum_cell.
    + apply ratio_zero_denominator.
Qed.

(** ** Examples *)

(** C1 at a batch with a missing grouping cell.  Validation leaves
    [stat_lines] as it is, with no issue; the season roll-up returns one
    record, and its [total_targets] is 10 where the targets of the
    weekly records add up to 19: the record without a team is in no
    group. *)
Lemma season_rollup_leaves_out_record_without_team :
  snd (NFLverseExtractor.validate 2025 stat_lines) = []
  /\ cells (fst (NFLverseExtractor.validate 2025 stat_lines))
     = cells stat_lines
  /\ exists out,
       aggregate_to_season_level render stat_lines = Ok out
       /\ map (fun r => [r "player_id"; r "total_targets"]) (rows out)
          = [[VStr "00-0033873"; VNum 10]]
       /\ col_sum "total_targets" (rows out) == 10
       /\ col_sum "targets" (rows stat_lines) == 19
       /\ ~ col_sum "total_targets" (rows out)
            == col_sum "targets" (rows stat_lines).
Proof.
  split; [vm_compute; reflexivity|]. split; [vm_compute; reflexivity|].
  eexists. split; [reflexivity|]. vm_compute. repeat split; discriminate.
Qed.

Lemma roll_up_totals_witness :
  exists out,
    aggregate_to_season_level render week_lines = Ok out
    /\ col_sum "total_targets" (rows out) == col_sum "targets" (rows week_lines).
Proof.
  destruct (proj2 (roll_up_totals render week_lines)) as (out & A & T).
  - discriminate.
  - reflexivity.
  - exists out. split; [exact A|].
    apply (T "targets"); [vm_compute; tauto | reflexivity |].
    intros r [<-|[<-|[]]]; reflexivity.
Defined.

(** C8 as stated fails: the season's [avg_catch_rate] is 50, the mean of
    the weekly rates 100 and 0, while the season's sums (1 reception on
    10 targets) give a rate of 10. *)
Lemma season_rate_is_mean_of_weekly_rates :
  exists out,
    aggregate_to_season_level render week_lines = Ok out
    /\ map (fun r => r "avg_catch_rate") (rows out)
       = [col_mean "catch_rate" (rows week_lines)]
    /\ (exists q, col_mean "catch_rate" (rows week_lines) = VNum q /\ q == 50)
    /\ map (fun r => r "total_receptions") (rows out) = [VNum 1]
    /\ map (fun r => r "total_targets") (rows out) = [VNum 10].
Proof.
  eexists. split; [reflexivity|]. split; [reflexivity|]. split.
  - eexists. split; [reflexivity|]. reflexivity.
  - split; vm_compute; reflexivity.
Qed.

Lemma season_averages_witness :
  exists out,
    aggregate_to_season_level render week_lines = Ok out
    /\ map (fun r => r "avg_targets") (rows out) = [VNum 5]
    /\ map (fun r => r "avg_catch_rate") (rows out)
       = map (fun g => col_mean "catch_rate" (snd g))
             (groupby (season_groupby_cols week_lines) week_lines).
Proof.
  eexists. split; [reflexivity|]. split; [vm_compute; reflexivity|].
  apply (proj2 (season_averages render week_lines _ eq_refl) "catch_rate").
  - vm_compute. tauto.
  - reflexivity.
Defined.

Lemma efficiency_ratios_witness :
  exists out,
    aggregate_to_week_level render bench_lines = Ok out
    /\ map (fun r => r "catch_rate") (rows out) = [VNum 0; VNum 66.67]
    /\ forall r, In r (rows out) ->
         (exists q, r "catch_rate" = VNum q)
         /\ (forall d, r "targets" = VNum d -> d == 0 ->
                       r "catch_rate" = VNum 0).
Proof.
  eexists. split; [reflexivity|]. split; [vm_compute; reflexivity|].
  intros r R.
  assert (I : In (mkMetric "catch_rate" [("receptions", "targets")] true)
                 METRICS) by (right; left; reflexivity).
  exact (proj2 (proj2 (efficiency_ratios _ "receptions" "targets" I))
               render bench_lines _ eq_refl eq_refl r R).
Defined.

End AggregatorFacts.

(* ================================================================= *)
(** * Properties of the consensus merge *)

Module ConsensusFacts.
Import Frame ConsensusAggregator Scenarios FrameFacts.

(** ** Fantasy points *)

(** The three columns written on one record, each read from the record
    as it stands when its expression is evaluated. *)
Lemma calculate_fantasy_points_rows df out :
  calculate_fantasy_points df = Ok out ->
  rows out
  = map (fun r =>
           let r1 := upd r "fantasy_points_standard" (standard_points r) in
           let r2 := upd r1 "fantasy_points_ppr" (ppr_points r1) in
           upd r2 "fantasy_points_half_ppr" (half_ppr_points r2))
        (rows df).
Proof.
  unfold calculate_fantasy_points. destruct (forallb _ PROJ_COLUMNS);
    [|discriminate].
  intros [= <-]. unfold with_column. cbn [rows]. rewrite !map_map. reflexivity.
Qed.

Lemma fill_null_numeric v :
  numeric v = true -> fill_null v 0 = VNum (num_of v).
Proof. destruct v; simpl; congruence. Qed.

(** C10.  In every record [calculate_fantasy_points] returns, the PPR
    points are the standard points plus 1.0 times the projected
    receptions and the half-PPR points the standard points plus 0.5
    times the projected receptions, a missing value read as 0; on the
    numbers of a record of numeric columns this gives
    [ppr >= half_ppr >= standard] whenever the receptions are missing
    or not negative. *)
Theorem fantasy_points_scoring (df out : DataFrame) (r : row) :
  calculate_fantasy_points df = Ok out ->
  In r (rows out) ->
  r "fantasy_points_ppr"
  = vadd (r "fantasy_points_standard")
         (vtimes (fill_null (r "proj_receiving_receptions") 0) 1)
  /\ r "fantasy_points_half_ppr"
     = vadd (r "fantasy_points_standard")
            (vtimes (fill_null (r "proj_receiving_receptions") 0) (1 # 2))
  /\ ((forall c, In c PROJ_COLUMNS -> numeric (r c) = true) ->
      exists standard ppr half_ppr,
        r "fantasy_points_standard" = VNum standard
        /\ r "fantasy_points_ppr" = VNum ppr
        /\ r "fantasy_points_half_ppr" = VNum half_ppr
        /\ ppr == standard + 1 * num_of (r "proj_receiving_receptions")
        /\ half_ppr
           == standard + (1 # 2) * num_of (r "proj_receiving_receptions")
        /\ (0 <= num_of (r "proj_receiving_receptions") ->
            standard <= half_ppr /\ half_ppr <= ppr)).
Proof.
  intros A R. rewrite (calculate_fantasy_points_rows df out A) in R.
  apply in_map_iff in R. destruct R as (r0 & <- & _). cbv zeta.
  split; [reflexivity|]. split; [reflexivity|].
  intros N.
  assert (N0 : forall c, In c PROJ_COLUMNS -> numeric (r0 c) = true).
  { intros c I. specialize (N c I). unfold PROJ_COLUMNS in I.
    repeat (destruct I as [<-|I]; [exact N|]). destruct I. }
  clear N. unfold upd. cbn [String.eqb Ascii.eqb Bool.eqb].
  unfold ppr_points, half_ppr_points, standard_points, upd.
  cbn [String.eqb Ascii.eqb Bool.eqb].
  rewrite !fill_null_numeric by (apply N0; simpl; tauto).
  cbn [vtimes vadd].
  do 3 eexists. split; [reflexivity|]. split; [reflexivity|].
  split; [reflexivity|].
  set (s := _ + _ * 6). set (rec := num_of (r0 "proj_receiving_receptions")).
  split; [ring|]. split; [ring|]. intros P. split; lra.
Qed.

(** ** Confidence *)

Lemma silver_to_gold_rows df out :
  silver_to_gold df = Ok (Some out) ->
  rows out = map (rated df) (groupby GROUP_KEYS (surviving df)).
Proof.
  unfold silver_to_gold. destruct (empty df); [discriminate|].
  destruct (forallb _ _); [|discriminate].
  intros [= <-]. unfold with_column, aggregated. cbn [rows].
  rewrite map_map. reflexivity.
Qed.

Lemma merged_cell k rs c :
  ~ In c GROUP_KEYS -> merged (k, rs) c = lookup (consensus_cells rs) c.
Proof. apply group_row_cell. Qed.

Lemma merged_source_count k rs :
  merged (k, rs) "source_count"
  = VNum (inject_Z (Z.of_nat (col_count "source" rs))).
Proof.
  rewrite merged_cell by (simpl; intuition discriminate). reflexivity.
Qed.

Lemma merged_std k rs :
  merged (k, rs) "fantasy_points_ppr_std"
  = col_std_round2 "fantasy_points_ppr" rs.
Proof.
  rewrite merged_cell by (simpl; intuition discriminate). reflexivity.
Qed.

Lemma rated_cells df g :
  rated df g "source_count" = merged g "source_count"
  /\ rated df g "fantasy_points_ppr_std" = merged g "fantasy_points_ppr_std"
  /\ rated df g "confidence_rating"
     = VStr (if ge (merged g "source_count") 2
                && lt (merged g "fantasy_points_ppr_std") 2
             then "HIGH"
             else if ge (merged g "source_count") 2
                     || lt (merged g "fantasy_points_ppr_std") 4
                  then "MEDIUM" else "LOW").
Proof. repeat split. Qed.

Lemma insert_by_source_In r l x :
  In x (insert_by_source r l) -> x = r \/ In x l.
Proof.
  induction l as [|y l IH]; simpl.
  - intros [<-|[]]. now left.
  - destruct (source_leb (y "source") (r "source")); simpl.
    + intros [<-|I]; [right; now left|].
      destruct (IH I) as [->|I']; [now left | right; now right].
    + intros [<-|I]; [now left | now right].
Qed.

Lemma sort_by_source_In rs x : In x (sort_by_source rs) -> In x rs.
Proof.
  unfold sort_by_source.
  assert (H : forall acc, In x (fold_left (fun acc r => insert_by_source r acc)
                                          rs acc) -> In x rs \/ In x acc).
  { induction rs as [|r rs IH]; intros acc I; simpl in I; [now right|].
    destruct (IH _ I) as [I'|I']; [left; now right|].
    destruct (insert_by_source_In _ _ _ I') as [->|I''];
      [left; now left | now right]. }
  intros I. destruct (H [] I) as [I'|[]]. exact I'.
Qed.

Lemma surviving_In df x : In x (rows (surviving df)) -> In x (rows df).
Proof.
  unfold surviving, select. cbn [rows]. intros I. apply filter_In in I.
  apply sort_by_source_In. tauto.
Qed.

(** C4.  Every merged record is rated from its own source count and
    the rounded standard deviation of its PPR points: HIGH exactly when
    the count is at least 2 and the deviation below 2, MEDIUM exactly
    when the count is at least 2 or the deviation below 4 and the record
    is not HIGH, LOW exactly otherwise.  The count is the number of
    records of the group that name their source, the deviation is
    missing for a group of one record, and a comparison with a missing
    deviation is false: a group of one record is LOW, and so is every
    merged record with a source count of 1 when each input record names
    its source. *)
Theorem consensus_confidence (df out : DataFrame) :
  silver_to_gold df = Ok (Some out) ->
  (forall r, In r (rows out) ->
     (r "confidence_rating" = VStr "HIGH" <->
      ge (r "source_count") 2 = true
      /\ lt (r "fantasy_points_ppr_std") 2 = true)
     /\ (r "confidence_rating" = VStr "MEDIUM" <->
         (ge (r "source_count") 2 = true
          \/ lt (r "fantasy_points_ppr_std") 4 = true)
         /\ r "confidence_rating" <> VStr "HIGH")
     /\ (r "confidence_rating" = VStr "LOW" <->
         ~ (ge (r "source_count") 2 = true
            \/ lt (r "fantasy_points_ppr_std") 4 = true)))
  /\ rows out = map (rated df) (groupby GROUP_KEYS (surviving df))
  /\ (forall g, In g (groupby GROUP_KEYS (surviving df)) ->
        rated df g "source_count"
        = VNum (inject_Z (Z.of_nat (col_count "source" (snd g))))
        /\ rated df g "fantasy_points_ppr_std"
           = col_std_round2 "fantasy_points_ppr" (snd g)
        /\ (List.length (snd g) = 1%nat ->
            rated df g "confidence_rating" = VStr "LOW"))
  /\ ((forall r0, In r0 (rows df) -> notna (r0 "source") = true) ->
      forall r, In r (rows out) ->
        r "source_count" = VNum 1 -> r "confidence_rating" = VStr "LOW").
Proof.
  intros A. pose proof (silver_to_gold_rows df out A) as R.
  assert (G1 : forall g, List.length (snd g) = 1%nat ->
                 rated df g "confidence_rating" = VStr "LOW").
  { intros [k rs] L. destruct (rated_cells df (k, rs)) as (_ & _ & ->).
    rewrite merged_std, merged_source_count.
    cbn [snd] in L. rewrite std_of_one by lia.
    destruct rs as [|r0 [|r1 rs]]; try discriminate.
    unfold col_count. simpl. destruct (notna (r0 "source")); reflexivity. }
  split; [|split; [exact R|split]].
  - intros r I. rewrite R in I. apply in_map_iff in I.
    destruct I as (g & <- & _).
    destruct (rated_cells df g) as (-> & -> & ->).
    destruct (ge (merged g "source_count") 2),
             (lt (merged g "fantasy_points_ppr_std") 2),
             (lt (merged g "fantasy_points_ppr_std") 4); cbn [andb orb];
      (split; [|split]); split;
        try discriminate; try tauto; try (intros; exfalso; intuition congruence);
        try (intros; split; [tauto | discriminate]);
        intuition discriminate.
  - intros [k rs] _. destruct (rated_cells df (k, rs)) as (-> & -> & _).
    split; [apply merged_source_count|].
    split; [apply merged_std | apply G1].
  - intros S r I C. rewrite R in I. apply in_map_iff in I.
    destruct I as (g & <- & G). apply G1.
    destruct g as [k rs]. destruct (rated_cells df (k, rs)) as (E & _ & _).
    rewrite E, merged_source_count in C. cbn [snd].
    rewrite col_count_all in C.
    + injection C as C. change 1%Z with (Z.of_nat 1) in C.
      apply Nat2Z.inj in C. exact C.
    + intros r0 I0. apply S, surviving_In.
      exact (groupby_members _ _ _ _ G I0).
Qed.

(** ** Examples *)

Lemma fantasy_points_scoring_witness :
  exists out,
    calculate_fantasy_points raw_projection = Ok out
    /\ forall r, In r (rows out) ->
         exists standard ppr half_ppr,
           r "fantasy_points_standard" = VNum standard
           /\ r "fantasy_points_ppr" = VNum ppr
           /\ r "fantasy_points_half_ppr" = VNum half_ppr
           /\ ppr == standard + 1 * num_of (r "proj_receiving_receptions")
           /\ half_ppr
              == standard + (1 # 2) * num_of (r "proj_receiving_receptions")
           /\ (0 <= num_of (r "proj_receiving_receptions") ->
               standard <= half_ppr /\ half_ppr <= ppr).
Proof.
  eexists. split; [reflexivity|]. intros r R.
  apply (proj2 (proj2 (fantasy_points_scoring raw_projection _ r eq_refl R))).
  destruct R as [<-|[]]. intros c I. unfold PROJ_COLUMNS in I.
  repeat (destruct I as [<-|I]; [reflexivity|]). destruct I.
Defined.

Lemma consensus_confidence_witness :
  exists out,
    silver_to_gold silver_week = Ok (Some out)
    /\ map (fun r => [ r "player_name"; r "position_first"; r "source_count";
                       r "fantasy_points_ppr_mean"; r "fantasy_points_ppr_std";
                       r "confidence_rating" ])
           (rows out)
       = [ [ VStr "Rashee Rice"; VStr "WR"; VNum 1; VNum 13.1; VNull;
             VStr "LOW" ];
           [ VStr "Travis Kelce"; VStr "TE"; VNum 2; VNum (51 # 5);
             VNum (7 # 25); VStr "HIGH" ] ]
    /\ forall r, In r (rows out) ->
         r "source_count" = VNum 1 -> r "confidence_rating" = VStr "LOW".
Proof.
  eexists. split; [reflexivity|]. split; [vm_compute; reflexivity|].
  apply (proj2 (proj2 (proj2 (consensus_confidence silver_week _ eq_refl)))).
  intros r0 [<-|[<-|[<-|[]]]]; reflexivity.
Defined.

End ConsensusFacts.

(* ================================================================= *)
(** * Properties of the configured seasons and of the planner's scope *)

Module ScopeFacts.
Import Frame NFLverseExtractor Config FrameFacts.

Lemma range_In (a b s : Z) : In s (range a b) <-> (a <= s < b)%Z.
Proof.
  unfold range. rewrite in_map_iff. split.
  - intros (i & <- & I). apply in_seq in I. lia.
  - intros H. exists (Z.to_nat (s - a)). split; [lia|].
    apply in_seq. lia.
Qed.

Lemma range_length (a b : Z) : List.length (range a b) = Z.to_nat (b - a).
Proof. unfold range. now rewrite length_map, length_seq. Qed.

Lemma five_seasons (k : Z) :
  range (k - 4) (k + 1) = [k - 4; k - 3; k - 2; k - 1; k]%Z.
Proof.
  unfold range. replace (k + 1 - (k - 4))%Z with 5%Z by lia.
  change (Z.to_nat 5) with 5%nat. cbn [seq map].
  repeat (f_equal; try lia).
Qed.

(** The seasons the configuration asks for are the five seasons that
    end with the season in progress, the one the planner calls the
    current season; and from 2005 on, a record dated in any of them
    passes the validator's season check. *)
Theorem configured_seasons_are_valid (year month : Z) :
  (2005 <= year)%Z ->
  let last := MOST_RECENT_SEASON year month in
  get_seasons_to_extract year month
  = [last - 4; last - 3; last - 2; last - 1; last]%Z
  /\ last = current_season year month
  /\ forall s r,
       In s (get_seasons_to_extract year month) ->
       r "season" = VNum (inject_Z s) ->
       season_valid year r = true /\ season_invalid year r = false.
Proof.
  intros Y last. split; [apply five_seasons|]. split; [reflexivity|].
  intros s r I E. unfold get_seasons_to_extract, SEASONS_TO_EXTRACT in I.
  apply range_In in I. fold last in I.
  assert (L : (year - 1 <= last <= year)%Z).
  { unfold last, MOST_RECENT_SEASON. destruct (9 <=? month)%Z; lia. }
  assert (V : season_valid year r = true).
  { unfold season_valid. rewrite E. cbn [ge le].
    apply andb_true_intro. split; apply negb_true_iff, Qltb_ge.
    - change 2000 with (inject_Z 2000). rewrite <- Zle_Qle. lia.
    - change 1 with (inject_Z 1). rewrite <- inject_Z_plus, <- Zle_Qle. lia. }
  split; [exact V|]. unfold season_valid, season_invalid in *.
  rewrite E in *. cbn [ge le lt gt] in *.
  destruct (Qltb (inject_Z s) 2000), (Qltb (inject_Z year + 1) (inject_Z s));
    simpl in *; congruence.
Qed.

Lemma configured_seasons_are_valid_witness :
  get_seasons_to_extract 2025 11 = [2021; 2022; 2023; 2024; 2025]%Z
  /\ get_seasons_to_extract 2025 3 = [2020; 2021; 2022; 2023; 2024]%Z.
Proof.
  split.
  - apply (configured_seasons_are_valid 2025 11). lia.
  - apply (configured_seasons_are_valid 2025 3). lia.
Defined.

Section Planner.

Variable extract : request -> result DataFrame.

(** The planner asks the provider once, and a second time only when
    the first request (or the look at the stored data) raised: the
    second request is the one for every configured season.  So it
    makes no more than two requests, it raises only when that full
    request raises, and it makes no request only when the stored data
    are up to date, returning an empty batch. *)
Theorem extract_incremental_requests (force_full : bool)
  (existing_data : high_water_mark) (current_year current_month : Z) :
  let planned :=
    extract_incremental extract force_full existing_data
                        current_year current_month in
  (List.length (fst planned) <= 2)%nat
  /\ (fst planned = [] -> snd planned = Ok empty_frame)
  /\ (forall q rest, fst planned = q :: rest ->
        rest = []
        \/ (rest = [None] /\ exists e, extract q = Raise e))
  /\ (forall e, snd planned = Raise e ->
        extract None = Raise e /\ last (fst planned) (Some []) = None).
Proof.
  assert (G : forall (made : list request) (res : result DataFrame),
             (made = [] /\ res = Ok empty_frame)
             \/ (exists q, made = [q]
                           /\ ((exists d, res = Ok d)
                               \/ (q = None /\ res = extract None)))
             \/ (exists q e, made = [q; None] /\ extract q = Raise e
                             /\ res = extract None) ->
             (List.length made <= 2)%nat
             /\ (made = [] -> res = Ok empty_frame)
             /\ (forall q rest, made = q :: rest ->
                   rest = []
                   \/ (rest = [None] /\ exists e, extract q = Raise e))
             /\ (forall e, res = Raise e ->
                   extract None = Raise e /\ last made (Some []) = None)).
  { intros made res [[-> ->]|[(q & -> & R)|(q & e & -> & X & ->)]];
      cbn [List.length last].
    - split; [lia|]. split; [reflexivity|]. split; discriminate.
    - split; [lia|]. split; [discriminate|].
      split; [intros q' rest [= <- <-]; now left|].
      intros e E. destruct R as [[d ->]|[-> ->]]; [discriminate|].
      now split.
    - split; [lia|]. split; [discriminate|].
      split; [intros q' rest [= <- <-]; right; split; [reflexivity|];
              now exists e|].
      intros e' E. now split. }
  cbv zeta. apply G. unfold extract_incremental, fetch.
  destruct force_full.
  { right; left. exists None. split; [reflexivity|]. right. now split. }
  unfold plan, fetch.
  assert (N : forall (made : list request) (res : result DataFrame),
             made = [] -> res = extract None ->
             (exists q : request, made ++ [None] = [q]
                /\ ((exists d, res = Ok d)
                    \/ (q = None /\ res = extract None)))).
  { intros made res -> ->. exists None. split; [reflexivity|].
    right. now split. }
  destruct existing_data as [[[[max_season|] [max_week|]]|]|e0].
  - destruct (max_season <? current_season current_year current_month)%Z.
    + right.
      destruct (extract (Some (range _ _))) as [d|e] eqn:X.
      * left. eexists. split; [reflexivity|]. left. eexists. reflexivity.
      * right. eexists. exists e. split; [reflexivity|]. now split.
    + destruct ((max_season =? current_season current_year current_month)%Z
                && (max_week <? 22)%Z).
      * right.
        destruct (extract (Some [_])) as [d|e] eqn:X.
        -- left. eexists. split; [reflexivity|]. left. eexists. reflexivity.
        -- right. eexists. exists e. split; [reflexivity|]. now split.
      * left. now split.
  - right; left. now apply N.
  - right. destruct (extract None) as [d|e] eqn:X.
    + left. eexists. split; [reflexivity|]. left. eexists. reflexivity.
    + right. eexists. exists e. split; [reflexivity|]. now split.
  - right. destruct (extract None) as [d|e] eqn:X.
    + left. eexists. split; [reflexivity|]. left. eexists. reflexivity.
    + right. eexists. exists e. split; [reflexivity|]. now split.
  - right. destruct (extract None) as [d|e] eqn:X.
    + left. eexists. split; [reflexivity|]. left. eexists. reflexivity.
    + right. eexists. exists e. split; [reflexivity|]. now split.
  - right; left. now apply N.
Qed.

(** With stored data that end in an earlier season, the planner asks
    for the seasons after the last stored one up to the current one, and
    for no season it already holds; with stored data that reach week 22
    of the current season, or a later season, it asks for nothing. *)
Theorem extract_incremental_scope
  (current_year current_month max_season max_week : Z) :
  let current := current_season current_year current_month in
  let planned :=
    extract_incremental extract false
      (Ok (Some (Some max_season, Some max_week)))
      current_year current_month in
  ((max_season < current)%Z ->
   forall data,
     extract (Some (range (max_season + 1) (current + 1))) = Ok data ->
     planned = ([Some (range (max_season + 1) (current + 1))], Ok data)
     /\ forall s, In s (range (max_season + 1) (current + 1))
                  <-> (max_season < s <= current)%Z)
  /\ ((current < max_season)%Z
      \/ (max_season = current /\ (22 <= max_week)%Z) ->
      planned = ([], Ok empty_frame)).
Proof.
  cbv zeta. unfold extract_incremental, plan, fetch. split.
  - intros L data X. apply Z.ltb_lt in L. rewrite L, X.
    split; [reflexivity|]. intros s. rewrite range_In. lia.
  - intros H.
    replace (max_season <? current_season current_year current_month)%Z
      with false by (symmetry; apply Z.ltb_ge; lia).
    replace ((max_season =? current_season current_year current_month)%Z
             && (max_week <? 22)%Z) with false; [reflexivity|].
    symmetry. apply andb_false_iff. destruct H as [H|[H W]].
    + left. apply Z.eqb_neq. lia.
    + right. apply Z.ltb_ge. exact W.
Qed.

End Planner.

Lemma extract_incremental_scope_witness :
  extract_incremental Scenarios.provider false
    (Ok (Some (Some 2022, Some 18)))%Z 2023 10
  = ([Some [2023%Z]], Ok Scenarios.season_2023)
  /\ extract_incremental Scenarios.provider false
       (Ok (Some (Some 2023, Some 22)))%Z 2023 10
     = ([], Ok empty_frame).
Proof.
  split.
  - apply (proj1 (extract_incremental_scope Scenarios.provider
                    2023 10 2022 18)); [reflexivity|reflexivity].
  - apply (proj2 (extract_incremental_scope Scenarios.provider
                    2023 10 2023 22)). right. split; [reflexivity|lia].
Defined.

End ScopeFacts.

(* ================================================================= *)
(** * Properties of a run and of its report *)

Module ReportFacts.
Import Frame BaseExtractor FrameFacts.

Section Report.

Variable Issue : Type.
Variable max_retries : nat.
Variable extract : nat -> result (option DataFrame).
Variable validate : DataFrame -> result (DataFrame * list Issue).
Variable insert_dataframe : DataFrame -> bool.
Variable now : value.
Variable name : string.

Local Notation "'loop'" := (retry_loop Issue max_retries extract).
Local Notation "'attempts'" := (extract_with_retry Issue max_retries extract).
Local Notation "'run'" :=
  (run_extraction Issue max_retries extract validate insert_dataframe now).
Local Notation "'timed'" :=
  (ExtractionReport.run_extraction Issue max_retries extract validate
     insert_dataframe now name).

(** ** The budget of the retry loop *)

(** What [n] turns of the loop, from attempt number [a] on, can do. *)
Lemma retry_loop_budget (n a : nat) (st : Extractor Issue) :
  (a + n = max_retries)%nat ->
  let r := loop n a st in
  (calls st <= calls (fst r) <= calls st + n)%nat
  /\ (slept st <= slept (fst r) <= slept st + (n - 1))%nat
  /\ (List.length (errors (fst r)) - List.length (errors st)
      <= calls (fst r) - calls st)%nat
  /\ records_extracted (fst r) = records_extracted st
  /\ records_failed (fst r) = records_failed st
  /\ (forall data, snd r = Some data ->
        empty data = false
        /\ (calls st < calls (fst r))%nat
        /\ extract (calls (fst r) - 1) = Ok (Some data))
  /\ (snd r = None -> calls (fst r) = (calls st + n)%nat).
Proof.
  revert a st. induction n as [|n IH]; intros a st E; cbv zeta.
  - cbn [retry_loop fst snd]. repeat split; try lia; discriminate.
  - cbn [retry_loop].
    assert (Step : forall st', calls st' = S (calls st) ->
              (slept st <= slept st' <= slept st + match n with O => 0 | S _ => 1 end)%nat ->
              (List.length (errors st') <= List.length (errors st) + 1)%nat ->
              (List.length (errors st) <= List.length (errors st'))%nat ->
              records_extracted st' = records_extracted st ->
              records_failed st' = records_failed st ->
              let r := loop n (S a) st' in
              (calls st <= calls (fst r) <= calls st + S n)%nat
              /\ (slept st <= slept (fst r) <= slept st + (S n - 1))%nat
              /\ (List.length (errors (fst r)) - List.length (errors st)
                  <= calls (fst r) - calls st)%nat
              /\ records_extracted (fst r) = records_extracted st
              /\ records_failed (fst r) = records_failed st
              /\ (forall data, snd r = Some data ->
                    empty data = false
                    /\ (calls st < calls (fst r))%nat
                    /\ extract (calls (fst r) - 1) = Ok (Some data))
              /\ (snd r = None -> calls (fst r) = (calls st + S n)%nat)).
    { intros st' C Sl E1 E2 R1 R2. cbv zeta.
      destruct (IH (S a) st') as (I1 & I2 & I3 & I4 & I5 & I6 & I7); [lia|].
      cbv zeta in *.
      split; [lia|]. split; [destruct n; lia|]. split; [lia|].
      split; [congruence|]. split; [congruence|]. split.
      - intros data D. destruct (I6 data D) as (H1 & H2 & H3).
        split; [exact H1|]. split; [lia | exact H3].
      - intros D. rewrite (I7 D). lia. }
    destruct (extract (calls st)) as [[data|]|e] eqn:X.
    + destruct (empty data) eqn:Em; cbn [negb].
      * apply Step; cbn [call calls slept errors records_extracted records_failed];
          try reflexivity; try lia; destruct n; lia.
      * cbn [fst snd call calls slept errors records_extracted
             records_failed].
        split; [lia|]. split; [lia|]. split; [lia|].
        split; [reflexivity|]. split; [reflexivity|]. split.
        -- intros d [= <-]. split; [exact Em|]. split; [lia|].
           replace (S (calls st) - 1)%nat with (calls st) by lia. exact X.
        -- discriminate.
    + apply Step; cbn [call calls slept errors records_extracted records_failed];
        try reflexivity; try lia; destruct n; lia.
    + destruct (Nat.ltb_spec a (max_retries - 1)).
      * apply Step; cbn [sleep append_error call calls slept errors
                      records_extracted records_failed];
          try reflexivity; try (rewrite ?length_app; cbn [List.length]; lia);
          destruct n; lia.
      * apply Step; cbn [sleep append_error call calls slept errors
                      records_extracted records_failed];
          try reflexivity; try (rewrite ?length_app; cbn [List.length]; lia);
          destruct n; lia.
Qed.

(** Whatever the provider does, [extract_with_retry] calls it at least
    once when it returns data and never more than [max_retries] times,
    all [max_retries] times when it returns [None]; it sleeps fewer
    than [max_retries] times, so never after the last attempt; it adds
    no more entries to [self.errors] than it made calls; and the data
    it returns are not empty and are what its last call returned. *)
Theorem extract_with_retry_budget (st : Extractor Issue) :
  let r := attempts st in
  (calls st <= calls (fst r) <= calls st + max_retries)%nat
  /\ (slept st <= slept (fst r) <= slept st + (max_retries - 1))%nat
  /\ (List.length (errors (fst r)) - List.length (errors st)
      <= calls (fst r) - calls st)%nat
  /\ (forall data, snd r = Some data ->
        empty data = false
        /\ (calls st < calls (fst r))%nat
        /\ extract (calls (fst r) - 1) = Ok (Some data))
  /\ (snd r = None -> calls (fst r) = (calls st + max_retries)%nat).
Proof.
  cbv zeta. unfold extract_with_retry.
  destruct (retry_loop_budget max_retries 0 st eq_refl)
    as (H1 & H2 & H3 & _ & _ & H6 & H7).
  cbv zeta in *. tauto.
Qed.

(** ** The two counters *)

Lemma len_with_column c f df : len (with_column c f df) = len df.
Proof. unfold len, with_column. cbn [rows]. apply length_map. Qed.

(** A run changes one counter at most, and only when it reaches the
    load: a batch that is stored adds its size to [records_extracted],
    a batch the store refuses adds its size to [records_failed].  The
    size is that of the validated batch.  A run that ends with any
    other status leaves both counters as they were: what was extracted
    and then rejected by the validator is counted nowhere. *)
Theorem run_extraction_counters (st : Extractor Issue) :
  let st' := fst (run st) in
  match snd (run st) with
  | success =>
      exists data validated issues,
        snd (attempts st) = Some data
        /\ validate data = Ok (validated, issues)
        /\ records_extracted st'
           = (records_extracted st + len validated)%nat
        /\ records_failed st' = records_failed st
  | load_failed =>
      exists data validated issues,
        snd (attempts st) = Some data
        /\ validate data = Ok (validated, issues)
        /\ records_extracted st' = records_extracted st
        /\ records_failed st' = (records_failed st + len validated)%nat
  | _ =>
      records_extracted st' = records_extracted st
      /\ records_failed st' = records_failed st
  end.
Proof.
  cbv zeta. unfold run_extraction.
  destruct (retry_loop_budget max_retries 0 st eq_refl)
    as (_ & _ & _ & R1 & R2 & _ & _).
  cbv zeta in R1, R2. fold (attempts st) in R1, R2.
  destruct (attempts st) as [st1 [data|]]; cbn [fst snd] in *;
    [|now split].
  destruct (empty data); [now split|].
  destruct (validate data) as [[validated issues]|e] eqn:V; [|now split].
  assert (R : records_extracted
                match issues with
                | [] => st1
                | _ :: _ => extend_errors Issue issues st1
                end = records_extracted st
              /\ records_failed
                   match issues with
                   | [] => st1
                   | _ :: _ => extend_errors Issue issues st1
                   end = records_failed st)
    by (destruct issues; now split).
  destruct R as [R3 R4].
  destruct (empty validated); [now split|].
  unfold load_to_bronze. rewrite len_with_column.
  destruct (insert_dataframe _); cbn [fst snd records_extracted records_failed];
    exists data, validated, issues.
  - rewrite R3, R4. now repeat split.
  - rewrite R3, R4. now repeat split.
Qed.

(** ** The report *)

(** The dictionary a run returns is built before the run's end time is
    taken.  So the report carries the start time of the run, but the
    end time left by the run before it, and no end time and no duration
    at all on the first run of an extractor; a duration it does carry is
    measured from the start of this run to the end of the last one, so
    it is not positive when the clock does not run backwards.  The end
    time of the run is on the extractor afterwards, where
    [get_extraction_metadata] reads it.  The status, the counters and
    the errors of the report are those of the run. *)
Theorem report_is_built_before_the_run_ends (started finished : Q)
  (c : ExtractionReport.Clock) (st : Extractor Issue) :
  let c' := fst (fst (timed started finished c st)) in
  let st' := snd (fst (timed started finished c st)) in
  let report := snd (timed started finished c st) in
  ExtractionReport.start_time report = Some started
  /\ ExtractionReport.end_time report = ExtractionReport.extraction_end_time c
  /\ ExtractionReport.duration_seconds report
     = match ExtractionReport.extraction_end_time c with
       | Some previous => Some (previous - started)
       | None => None
       end
  /\ (forall previous d,
        ExtractionReport.extraction_end_time c = Some previous ->
        previous <= started ->
        ExtractionReport.duration_seconds report = Some d -> d <= 0)
  /\ ExtractionReport.extraction_end_time c' = Some finished
  /\ ExtractionReport.last_extraction
       (ExtractionReport.get_extraction_metadata Issue name c' st')
     = Some finished
  /\ (st', ExtractionReport.status report) = run st
  /\ ExtractionReport.records_extracted report = records_extracted st'
  /\ ExtractionReport.records_failed report = records_failed st'
  /\ ExtractionReport.errors report = errors st'.
Proof.
  cbv zeta. unfold ExtractionReport.run_extraction.
  destruct (run st) as [st1 status].
  cbn [fst snd ExtractionReport._get_extraction_results
       ExtractionReport.start_time ExtractionReport.end_time
       ExtractionReport.duration_seconds ExtractionReport.status
       ExtractionReport.records_extracted ExtractionReport.records_failed
       ExtractionReport.errors ExtractionReport.extraction_start_time
       ExtractionReport.extraction_end_time
       ExtractionReport.get_extraction_metadata
       ExtractionReport.last_extraction].
  repeat split.
  intros previous d -> L [= <-]. lra.
Qed.

End Report.

End ReportFacts.

(* ================================================================= *)
(** * Validating a validated batch *)

Module RevalidationFacts.
Import Frame NFLverseExtractor Cells FrameFacts ValidatorFacts.

(** ** Duplicates *)

Lemma within_cons k seen1 seen2 :
  within seen1 seen2 -> within (k :: seen1) (k :: seen2).
Proof.
  intros W k'. cbn [existsb]. intros H. apply orb_true_iff in H.
  apply orb_true_iff. destruct H as [H|H]; [now left | right; now apply W].
Qed.

Lemma within_tl k seen : within seen (k :: seen).
Proof. intros k' H. cbn [existsb]. rewrite H. apply orb_true_r. Qed.

Lemma drop_duplicates_length cols seen rs :
  (List.length (drop_duplicates cols seen rs) <= List.length rs)%nat.
Proof.
  revert seen. induction rs as [|r rs IH]; intros seen; simpl; [lia|].
  destruct (existsb _ seen); simpl.
  - specialize (IH seen). lia.
  - specialize (IH (key_of cols r :: seen)). lia.
Qed.

(** A list that [drop_duplicates] leaves alone, given the keys seen. *)
Lemma fresh_cons cols seen r rs :
  drop_duplicates cols seen (r :: rs) = r :: rs ->
  existsb (key_eqb (key_of cols r)) seen = false
  /\ drop_duplicates cols (key_of cols r :: seen) rs = rs.
Proof.
  simpl. destruct (existsb _ seen) eqn:E.
  - intros H. pose proof (drop_duplicates_length cols seen rs) as L.
    rewrite H in L. simpl in L. lia.
  - intros [= H]. now split.
Qed.

Lemma fresh_within cols seen1 seen2 rs :
  within seen1 seen2 ->
  drop_duplicates cols seen2 rs = rs -> drop_duplicates cols seen1 rs = rs.
Proof.
  revert seen1 seen2. induction rs as [|r rs IH]; intros seen1 seen2 W F;
    [reflexivity|].
  apply fresh_cons in F. destruct F as [N F].
  simpl. destruct (existsb _ seen1) eqn:E.
  - apply W in E. congruence.
  - f_equal. apply (IH _ (key_of cols r :: seen2)); [|exact F].
    now apply within_cons.
Qed.

Lemma fresh_filter cols seen (p : row -> bool) rs :
  drop_duplicates cols seen rs = rs ->
  drop_duplicates cols seen (filter p rs) = filter p rs.
Proof.
  revert seen. induction rs as [|r rs IH]; intros seen F; [reflexivity|].
  apply fresh_cons in F. destruct F as [N F].
  cbn [filter]. destruct (p r).
  - cbn [drop_duplicates]. rewrite N. f_equal. now apply IH.
  - apply (fresh_within cols seen (key_of cols r :: seen));
      [apply within_tl | now apply IH].
Qed.

Lemma drop_duplicates_fresh cols seen rs :
  drop_duplicates cols seen (drop_duplicates cols seen rs)
  = drop_duplicates cols seen rs.
Proof.
  revert seen. induction rs as [|r rs IH]; intros seen; [reflexivity|].
  simpl. destruct (existsb _ seen) eqn:E; [apply IH|].
  simpl. rewrite E. f_equal. apply IH.
Qed.

Lemma drop_duplicates_map cols seen (f : row -> row) rs :
  (forall r, key_of cols (f r) = key_of cols r) ->
  drop_duplicates cols seen (map f rs) = map f (drop_duplicates cols seen rs).
Proof.
  intros K. revert seen. induction rs as [|r rs IH]; intros seen;
    [reflexivity|].
  simpl. rewrite K. destruct (existsb _ seen); [apply IH|].
  simpl. f_equal. apply IH.
Qed.

(** ** The steps that drop records keep a selection of them *)

Lemma filter_all (A : Type) (p : A -> bool) (l : list A) :
  (forall x, In x l -> p x = true) -> filter p l = l.
Proof.
  induction l as [|x l IH]; intros H; [reflexivity|]. simpl.
  rewrite (H x) by now left. f_equal. apply IH. intros y I. apply H.
  now right.
Qed.

Lemma kept_refl l : kept l l.
Proof. exists (fun _ => true). symmetry. now apply filter_all. Qed.

Lemma filter_filter (A : Type) (p q : A -> bool) (l : list A) :
  filter p (filter q l) = filter (fun x => q x && p x) l.
Proof.
  induction l as [|x l IH]; [reflexivity|]. simpl.
  destruct (q x); simpl; [destruct (p x)|]; now rewrite IH.
Qed.

Lemma kept_trans l1 l2 l3 : kept l2 l1 -> kept l3 l2 -> kept l3 l1.
Proof.
  intros [q ->] [p ->]. eexists. apply filter_filter.
Qed.

Lemma check_seasons_kept cy s :
  kept (rows (fst (check_seasons cy s))) (rows (fst s)).
Proof.
  destruct s as [df errs]. unfold check_seasons.
  destruct (has_col "season" df); [|apply kept_refl].
  destruct (negb _); [|apply kept_refl]. now eexists.
Qed.

Lemma check_weeks_kept s : kept (rows (fst (check_weeks s))) (rows (fst s)).
Proof.
  destruct s as [df errs]. unfold check_weeks.
  destruct (has_col "week" df); [|apply kept_refl].
  destruct (negb _); [|apply kept_refl]. now eexists.
Qed.

Lemma check_nulls_kept cols s :
  kept (rows (fst (check_nulls cols s))) (rows (fst s)).
Proof.
  revert s. induction cols as [|c cols IH]; intros s; [apply kept_refl|].
  simpl. apply (kept_trans _ (rows (fst (check_null s c)))); [|apply IH].
  destruct s as [df errs]. unfold check_null.
  destruct (_ <? _)%nat; [now eexists | apply kept_refl].
Qed.

Lemma validate_rows_kept cy data :
  kept (rows (fst (validate_rows cy data)))
       (rows (fst (remove_duplicates (data, [])))).
Proof.
  unfold validate_rows.
  eapply kept_trans; [|apply check_nulls_kept].
  eapply kept_trans; [|apply check_weeks_kept].
  apply check_seasons_kept.
Qed.

(** ** What holds of every record of a validated batch *)

Lemma week_valid_not_invalid r : week_valid r = true -> week_invalid r = false.
Proof.
  unfold week_valid, week_invalid, ge, le, lt, gt.
  destruct (r "week"); try discriminate.
  destruct (Qltb q 1), (Qltb 22 q); simpl; congruence.
Qed.

Lemma check_weeks_valid s r :
  has_col "week" (fst s) = true ->
  In r (rows (fst (check_weeks s))) -> week_invalid r = false.
Proof.
  destruct s as [df errs]. cbn [fst]. intros C. unfold check_weeks.
  rewrite C, (empty_select "week" _ _ C).
  destruct (filter week_invalid (rows df)) eqn:F; cbn [negb fst].
  - exact (filter_nil_none _ _ _ r F).
  - cbn [select rows]. intros I. apply filter_In in I.
    apply week_valid_not_invalid. tauto.
Qed.

Lemma has_col_columns c df df' :
  columns df = columns df' -> has_col c df = has_col c df'.
Proof. unfold has_col. now intros ->. Qed.

Lemma validate_rows_clean cy data r :
  In r (rows (fst (validate_rows cy data))) ->
  (has_col "season" data = true -> season_invalid cy r = false)
  /\ (has_col "week" data = true -> week_invalid r = false)
  /\ (forall col, In col (required_cols data) -> isnull (r col) = false).
Proof.
  unfold validate_rows. intros R.
  pose proof (proj2 (check_nulls_frame _ _) r R) as R4.
  pose proof (proj2 (check_weeks_frame _) r R4) as R3.
  pose proof (proj1 (remove_duplicates_frame (data, []))) as C2.
  pose proof (proj1 (check_seasons_frame cy (remove_duplicates (data, []))))
    as C3.
  cbn [fst] in C2.
  split; [|split].
  - intros C. apply (check_seasons_valid cy (remove_duplicates (data, [])));
      [|exact R3].
    now rewrite (has_col_columns _ _ data C2).
  - intros C.
    apply (check_weeks_valid (check_seasons cy (remove_duplicates (data, []))));
      [|exact R4].
    rewrite (has_col_columns _ _ data); [exact C | congruence].
  - intros col I. exact (check_nulls_notna _ _ col r I R).
Qed.

(** ** Steps that find nothing change nothing *)

Lemma frame_eta df : mkDF (columns df) (rows df) = df.
Proof. now destruct df. Qed.

Lemma remove_duplicates_fresh df errs :
  (has_col "play_id" df && has_col "game_id" df = true ->
   drop_duplicates ["game_id"; "play_id"] [] (rows df) = rows df) ->
  remove_duplicates (df, errs) = (df, errs).
Proof.
  intros F. unfold remove_duplicates.
  destruct (has_col "play_id" df && has_col "game_id" df); [|reflexivity].
  rewrite (F eq_refl). unfold len. cbn [rows]. rewrite Nat.ltb_irrefl.
  now rewrite frame_eta.
Qed.

Lemma filter_none (A : Type) (p : A -> bool) (l : list A) :
  (forall x, In x l -> p x = false) -> filter p l = [].
Proof.
  induction l as [|x l IH]; intros H; [reflexivity|]. simpl.
  rewrite (H x) by now left. apply IH. intros y I. apply H. now right.
Qed.

Lemma check_seasons_clean cy df errs :
  (forall r, In r (rows df) -> season_invalid cy r = false) ->
  check_seasons cy (df, errs) = (df, errs).
Proof.
  intros H. unfold check_seasons.
  destruct (has_col "season" df) eqn:C; [|reflexivity].
  rewrite (empty_select "season" _ _ C), (filter_none _ _ _ H). reflexivity.
Qed.

Lemma check_weeks_clean df errs :
  (has_col "week" df = true ->
   forall r, In r (rows df) -> week_invalid r = false) ->
  check_weeks (df, errs) = (df, errs).
Proof.
  intros H. unfold check_weeks.
  destruct (has_col "week" df) eqn:C; [|reflexivity].
  rewrite (empty_select "week" _ _ C), (filter_none _ _ _ (H eq_refl)).
  reflexivity.
Qed.

Lemma check_nulls_clean cols df errs :
  (forall r col, In r (rows df) -> In col cols -> isnull (r col) = false) ->
  check_nulls cols (df, errs) = (df, errs).
Proof.
  induction cols as [|c cols IH]; intros H; [reflexivity|].
  cbn [check_nulls fold_left]. unfold check_null at 2.
  rewrite (filter_none _ (fun r => isnull (r c)) (rows df))
    by (intros r I; apply H; [exact I | now left]).
  cbn [List.length Nat.ltb Nat.leb]. apply IH.
  intros r col I J. apply H; [exact I | now right].
Qed.

(** ** The capping *)

Lemma clamp_in_range lo hi v :
  lo <= hi -> lt (clamp lo hi v) lo = false /\ gt (clamp lo hi v) hi = false.
Proof.
  intros L. unfold clamp.
  destruct (lt v lo) eqn:E1.
  - cbn [lt gt]. split; apply Qltb_ge; [apply Qle_refl | exact L].
  - destruct (gt v hi) eqn:E2.
    + cbn [lt gt]. split; apply Qltb_ge; [exact L | apply Qle_refl].
    + now split.
Qed.

Lemma bounds_in_order col lo hi :
  In (col, (lo, hi)) numeric_validations -> lo <= hi.
Proof.
  unfold numeric_validations.
  intros [E|[E|[E|[E|[]]]]]; injection E as <- <- <-; discriminate.
Qed.

Lemma capped_in_range df r col lo hi :
  In (col, (lo, hi)) numeric_validations -> has_col col df = true ->
  out_of_range col lo hi (cap_present df r) = false.
Proof.
  intros I C. unfold out_of_range.
  rewrite (cap_present_clamps df r col lo hi I C).
  destruct (clamp_in_range lo hi (r col) (bounds_in_order col lo hi I))
    as [-> ->]. reflexivity.
Qed.

Lemma cap_present_in_range df r :
  (forall col lo hi, In (col, (lo, hi)) numeric_validations ->
     has_col col df = true -> out_of_range col lo hi r = false) ->
  cap_present df r = r.
Proof.
  intros H. unfold cap_present, numeric_validations. cbn [fold_left fst snd].
  assert (S : forall col lo hi,
             In (col, (lo, hi)) numeric_validations ->
             (if has_col col df then cap col lo hi r else r) = r).
  { intros col lo hi I. destruct (has_col col df) eqn:C; [|reflexivity].
    apply cap_in_range. now apply H. }
  rewrite (S "yards_gained" (-99) 99) by (simpl; tauto).
  rewrite (S "air_yards" (-99) 99) by (simpl; tauto).
  rewrite (S "yards_after_catch" 0 99) by (simpl; tauto).
  apply (S "fantasy_points_ppr" (-10) 100). simpl. tauto.
Qed.

Lemma check_ranges_clean df :
  (forall r col lo hi, In r (rows df) ->
     In (col, (lo, hi)) numeric_validations -> has_col col df = true ->
     out_of_range col lo hi r = false) ->
  check_ranges (df, []) = (df, []).
Proof.
  intros H.
  rewrite (surjective_pairing (check_ranges (df, []))).
  rewrite check_ranges_rows, check_ranges_errors. f_equal.
  - transitivity (mkDF (columns df) (rows df)); [|apply frame_eta]. f_equal.
    transitivity (map (fun r => r) (rows df)); [|apply map_id].
    apply map_ext_in.
    intros r I. apply cap_present_in_range. intros col lo hi. now apply H.
  - cbn [app]. unfold numeric_validations. cbn [flat_map fst snd].
    assert (Z0 : forall col lo hi,
               In (col, (lo, hi)) numeric_validations ->
               has_col col df
               && (0 <? count_out_of_range col lo hi (rows df))%nat = false).
    { intros col lo hi I. destruct (has_col col df) eqn:C; [|reflexivity].
      unfold count_out_of_range. rewrite filter_none; [reflexivity|].
      intros r J. now apply (H r col lo hi). }
    rewrite (Z0 "yards_gained" (-99) 99) by (simpl; tauto).
    rewrite (Z0 "air_yards" (-99) 99) by (simpl; tauto).
    rewrite (Z0 "yards_after_catch" 0 99) by (simpl; tauto).
    rewrite (Z0 "fantasy_points_ppr" (-10) 100) by (simpl; tauto).
    reflexivity.
Qed.

(** ** The second pass *)

Lemma required_cols_columns df df' :
  columns df = columns df' -> required_cols df = required_cols df'.
Proof.
  intros E. unfold required_cols.
  now rewrite (has_col_columns "play_id" df df' E),
              (has_col_columns "player_id" df df' E).
Qed.

Lemma missing_cols_columns df df' :
  columns df = columns df' -> missing_cols df = missing_cols df'.
Proof.
  intros E. unfold missing_cols. rewrite (required_cols_columns df df' E).
  apply filter_ext. intros c. now rewrite (has_col_columns c df df' E).
Qed.

Lemma required_not_capped data c :
  In c (required_cols data) -> ~ In c (map fst numeric_validations).
Proof.
  unfold required_cols.
  destruct (has_col "play_id" data); [|destruct (has_col "player_id" data)];
    simpl; intros I N;
    repeat (destruct I as [<-|I];
            [repeat (destruct N as [N|N]; [discriminate|]); destruct N|]);
    destruct I.
Qed.

(** Validating a validated batch changes nothing and reports nothing:
    on a batch that has its required columns, what [validate] returns
    is a batch on which [validate] finds no duplicate, no season or week
    out of its domain, no null in a required column and no measurement
    out of its range, and which it returns as it is. *)
Theorem validate_twice (cy : Z) (data : DataFrame) :
  missing_cols data = [] ->
  validate cy (fst (validate cy data)) = (fst (validate cy data), []).
Proof.
  intros M.
  assert (V : validate cy data = check_ranges (validate_rows cy data))
    by (unfold validate; now rewrite M).
  rewrite V.
  pose proof (validate_rows_frame cy data) as [C1 _].
  pose proof (validate_rows_kept cy data) as K.
  pose proof (validate_rows_clean cy data) as Cl.
  destruct (validate_rows cy data) as [df1 e1]. cbn [fst] in *.
  rewrite check_ranges_rows.
  set (v := mkDF (columns df1) (map (cap_present df1) (rows df1))).
  assert (Cv : columns v = columns data) by exact C1.
  assert (Sn : has_col "season" data = true)
    by (apply missing_cols_nil; [exact M | apply required_cols_season]).
  assert (cell : forall r c, In c (required_cols data) \/ c = "week"
                             \/ c = "game_id" \/ c = "play_id" ->
                             cap_present df1 r c = r c).
  { intros r c H. apply cap_present_other.
    destruct H as [H | [-> | [-> | ->]]];
      [now apply (required_not_capped data)| | |];
      simpl; intros N;
      repeat (destruct N as [N|N]; [discriminate|]); destruct N. }
  unfold validate. rewrite (missing_cols_columns v data Cv), M.
  unfold validate_rows.
  rewrite (required_cols_columns v data Cv).
  rewrite remove_duplicates_fresh.
  - rewrite check_seasons_clean.
    + rewrite check_weeks_clean.
      * rewrite check_nulls_clean.
        -- apply check_ranges_clean.
           intros r col lo hi I J C. cbn [rows v] in I.
           apply in_map_iff in I. destruct I as (r0 & <- & _).
           apply capped_in_range; [exact J|].
           now rewrite (has_col_columns col df1 v eq_refl).
        -- intros r col I J. cbn [rows v] in I.
           apply in_map_iff in I. destruct I as (r0 & <- & I).
           rewrite cell by now left. now apply (proj2 (proj2 (Cl r0 I))).
      * intros W r I. cbn [rows v] in I.
        apply in_map_iff in I. destruct I as (r0 & <- & I).
        unfold week_invalid. rewrite cell by tauto.
        apply (proj1 (proj2 (Cl r0 I))).
        now rewrite <- (has_col_columns "week" v data Cv).
    + intros r I. cbn [rows v] in I.
      apply in_map_iff in I. destruct I as (r0 & <- & I).
      unfold season_invalid.
      rewrite cell by (left; apply required_cols_season).
      now apply (proj1 (Cl r0 I)).
  - intros F. cbn [rows v].
    rewrite drop_duplicates_map.
    + f_equal.
      rewrite (has_col_columns "play_id" v data Cv),
              (has_col_columns "game_id" v data Cv) in F.
      destruct K as [p K]. rewrite K.
      apply fresh_filter. unfold remove_duplicates. rewrite F.
      destruct (_ <? _)%nat; cbn [fst rows]; apply drop_duplicates_fresh.
    + intros r. unfold key_of. cbn [map]. now rewrite !cell by tauto.
Qed.

Lemma validate_twice_witness :
  snd (validate 2025 Scenarios.plays_batch)
  = [InvalidSeasons 1; OutOfRange 1 "yards_gained" (-99) 99]
  /\ validate 2025 (fst (validate 2025 Scenarios.plays_batch))
     = (fst (validate 2025 Scenarios.plays_batch), []).
Proof.
  split; [vm_compute; reflexivity|].
  apply (validate_twice 2025 Scenarios.plays_batch). reflexivity.
Defined.

End RevalidationFacts.

(* ================================================================= *)
(** * Properties of the game level *)

Module GameLevelFacts.
Import Frame StatsAggregator GameLevel Cells FrameFacts AggregatorFacts.

(** ** Counting through the groups *)

Lemma col_count_cons c r rs :
  col_count c (r :: rs) = (counted c r + col_count c rs)%nat.
Proof.
  unfold col_count, counted. simpl. destruct (notna (r c)); reflexivity.
Qed.

Lemma col_count_app c rs rs' :
  col_count c (rs ++ rs') = (col_count c rs + col_count c rs')%nat.
Proof. unfold col_count. now rewrite filter_app, length_app. Qed.

Lemma insert_group_count c k r gs :
  list_sum (map (fun g => col_count c (snd g)) (insert_group k r gs))
  = (counted c r + list_sum (map (fun g => col_count c (snd g)) gs))%nat.
Proof.
  induction gs as [|[k' rs] gs IH]; simpl.
  - rewrite col_count_cons. unfold col_count. simpl. lia.
  - destruct (key_compare k k'); simpl.
    + rewrite col_count_app, col_count_cons. unfold col_count at 2. simpl. lia.
    + rewrite col_count_cons. unfold col_count at 1. simpl. lia.
    + rewrite IH. lia.
Qed.

Lemma groups_of_count c cols rs acc :
  list_sum (map (fun g => col_count c (snd g)) (groups_of cols rs acc))
  = (col_count c (complete cols rs)
     + list_sum (map (fun g => col_count c (snd g)) acc))%nat.
Proof.
  revert acc. induction rs as [|r rs IH]; intros acc; simpl.
  - reflexivity.
  - unfold complete. cbn [filter]. fold (complete cols rs).
    destruct (has_null_key cols r); cbn [negb].
    + apply IH.
    + rewrite IH, insert_group_count, col_count_cons. lia.
Qed.

(** Grouping loses no cell and counts none twice. *)
Lemma groupby_count c cols df :
  list_sum (map (fun g => col_count c (snd g)) (groupby cols df))
  = col_count c (complete cols (rows df)).
Proof. unfold groupby. rewrite groups_of_count. simpl. lia. Qed.

Lemma Qsum_of_nat (l : list nat) :
  Qsum (map (fun n => inject_Z (Z.of_nat n)) l)
  == inject_Z (Z.of_nat (list_sum l)).
Proof.
  induction l as [|n l IH]; simpl; [reflexivity|].
  rewrite IH, Nat2Z.inj_add, inject_Z_plus. reflexivity.
Qed.

(** ** Renaming *)

Lemma rename_other old new df x :
  String.eqb x old = false -> String.eqb x new = false ->
  map (fun r => r x) (rows (rename old new df)) = map (fun r => r x) (rows df)
  /\ has_col x (rename old new df) = has_col x df.
Proof.
  intros O N. unfold rename, has_col. cbn [rows columns]. split.
  - rewrite map_map. apply map_ext. intros r. now rewrite N, O.
  - induction (columns df) as [|c cs IH]; [reflexivity|]. cbn [map existsb].
    rewrite IH. f_equal. destruct (String.eqb_spec c old) as [->|_].
    + now rewrite N, O.
    + reflexivity.
Qed.

Lemma rename_new old new df :
  has_col old df = true ->
  map (fun r => r new) (rows (rename old new df))
  = map (fun r => r old) (rows df)
  /\ has_col new (rename old new df) = true.
Proof.
  intros H. unfold rename, has_col. cbn [rows columns]. split.
  - rewrite map_map. apply map_ext. intros r. now rewrite String.eqb_refl.
  - apply existsb_exists. exists new. split; [|apply String.eqb_refl].
    apply in_map_iff. exists old. rewrite String.eqb_refl.
    split; [reflexivity|]. now apply has_col_In.
Qed.

(** ** The cells of a game record *)

Lemma game_dict_sources df counts sums maxes :
  (forall c, In c counts -> has_col c df = true) ->
  (forall c, In c sums -> has_col c df = true) ->
  (forall c, In c maxes -> has_col c df = true) ->
  forallb (fun e => has_col (fst (snd e)) df) (game_dict counts sums maxes)
  = true.
Proof.
  intros C S M. apply forallb_forall. intros e I. unfold game_dict in I.
  apply in_app_or in I. destruct I as [I|I];
    [|apply in_app_or in I; destruct I as [I|I]];
    apply in_map_iff in I; destruct I as (c & <- & I); auto.
Qed.

Lemma game_dict_sum_cell cols counts sums maxes k rs c :
  ~ In c cols -> ~ In c counts -> In c sums ->
  agg_row cols (game_dict counts sums maxes) (k, rs) c = VNum (col_sum c rs).
Proof.
  intros N C I. unfold agg_row. rewrite group_row_cell by exact N.
  unfold game_dict. rewrite !agg_cells_app, !agg_cells_map.
  rewrite (lookup_map_notin (fun col => col) (fun col => reduce r_count col rs))
    by (intros c' I' ->; contradiction).
  now apply (lookup_map_In (fun col => col) (fun col => reduce r_sum col rs));
    [auto|].
Qed.

Lemma game_dict_count_cell cols counts sums maxes k rs c :
  ~ In c cols -> In c counts ->
  agg_row cols (game_dict counts sums maxes) (k, rs) c
  = of_nat (col_count c rs).
Proof.
  intros N I. unfold agg_row. rewrite group_row_cell by exact N.
  unfold game_dict. rewrite !agg_cells_app, !agg_cells_map.
  now apply (lookup_map_In (fun col => col)
               (fun col => reduce r_count col rs)); [auto|].
Qed.

Lemma game_dict_columns counts sums maxes c :
  In c counts \/ In c sums ->
  In c (map fst (game_dict counts sums maxes)).
Proof.
  intros I. unfold game_dict. rewrite !map_app, !map_map. cbn [fst].
  rewrite !map_id. apply in_or_app. destruct I as [I|I]; [now left|].
  right. apply in_or_app. now left.
Qed.

Lemma game_keys_notin df c :
  disjointb [c] ["game_id"; "player_id"; "player_name"; "position"; "team";
                 "season"; "week"; "game_date"] = true ->
  ~ In c (game_groupby_cols df).
Proof.
  intros D I. apply present_In in I. destruct I as [I _].
  exact (disjointb_spec _ _ c D (or_introl eq_refl) I).
Qed.

Lemma game_sum_keys_notin df c :
  In c SUM_COLUMNS -> ~ In c (game_groupby_cols df).
Proof.
  intros I I'. apply present_In in I'. destruct I' as [I' _].
  revert I'. now apply sum_column_notin.
Qed.

Lemma play_id_counted df c : In c (present df ["play_id"]) -> c = "play_id".
Proof.
  intros I. apply present_In in I. destruct I as [[<-|[]] _]. reflexivity.
Qed.

(** The count of plays takes its name, and neither that nor what
    follows touches a summed column. *)
Lemma game_finish_other astype_str gs x :
  ~ In x (map m_name METRICS) -> String.eqb x "player_game_key" = false ->
  String.eqb x "play_id" = false -> String.eqb x "plays" = false ->
  map (fun r => r x) (rows (game_finish astype_str gs))
  = map (fun r => r x) (rows gs)
  /\ (has_col x gs = true -> has_col x (game_finish astype_str gs) = true).
Proof.
  intros N K P Q. unfold game_finish.
  destruct (rename_other "play_id" "plays" gs x P Q) as [R1 R2].
  assert (S : map (fun r => r x)
                  (rows (if has_col "play_id" gs
                         then rename "play_id" "plays" gs else gs))
              = map (fun r => r x) (rows gs)
              /\ has_col x (if has_col "play_id" gs
                            then rename "play_id" "plays" gs else gs)
                 = has_col x gs)
    by (destruct (has_col "play_id" gs); [now split | now split]).
  destruct S as [S1 S2]. revert S1 S2.
  generalize (if has_col "play_id" gs then rename "play_id" "plays" gs else gs).
  intros gs1 S1 S2.
  generalize (efficiency_metrics_other gs1 x N).
  generalize (efficiency_metrics_has_col gs1 x).
  generalize (_calculate_efficiency_metrics gs1). intros gs2 C M.
  destruct (has_col "player_id" gs2 && has_col "game_id" gs2).
  - split.
    + rewrite with_column_other by exact K. congruence.
    + intros H. rewrite with_column_has_col, C; [reflexivity | congruence].
  - split; [congruence|]. intros H. apply C. congruence.
Qed.

Lemma game_finish_plays astype_str gs :
  has_col "play_id" gs = true ->
  map (fun r => r "plays") (rows (game_finish astype_str gs))
  = map (fun r => r "play_id") (rows gs)
  /\ has_col "plays" (game_finish astype_str gs) = true.
Proof.
  intros H. unfold game_finish. rewrite H.
  destruct (rename_new "play_id" "plays" gs H) as [R1 R2].
  revert R1 R2. generalize (rename "play_id" "plays" gs). intros gs1 R1 R2.
  assert (N : ~ In "plays" (map m_name METRICS)).
  { simpl. intros I. repeat (destruct I as [I|I]; [discriminate|]).
    destruct I. }
  generalize (efficiency_metrics_other gs1 "plays" N).
  generalize (efficiency_metrics_has_col gs1 "plays" R2).
  generalize (_calculate_efficiency_metrics gs1). intros gs2 C M.
  destruct (has_col "player_id" gs2 && has_col "game_id" gs2).
  - split.
    + rewrite with_column_other by reflexivity. congruence.
    + rewrite with_column_has_col, C. reflexivity.
  - split; [congruence | exact C].
Qed.

(** Play-by-play records roll up to game records with nothing lost and
    nothing counted twice.  On a batch with a grouping column and a
    summed column [c], [aggregate_to_game_level] returns; the output
    has the column [c], and its total over the output is the total of
    [c] over the plays whose grouping cells are all present.  When the
    batch has a [play_id], the output has the column [plays], and its
    total is the number of those plays that have a [play_id].  Without
    any grouping column the function returns the empty frame. *)
Theorem game_level_totals (astype_str : value -> string) (df : DataFrame)
  (c : string) :
  (game_groupby_cols df <> [] ->
   In c SUM_COLUMNS -> has_col c df = true ->
   exists out,
     aggregate_to_game_level astype_str df = Ok out
     /\ has_col c out = true
     /\ col_sum c (rows out)
        == col_sum c (complete (game_groupby_cols df) (rows df))
     /\ ((forall r, In r (rows df) ->
                    has_null_key (game_groupby_cols df) r = false) ->
         col_sum c (rows out) == col_sum c (rows df))
     /\ (has_col "play_id" df = true ->
         has_col "plays" out = true
         /\ col_sum "plays" (rows out)
            == inject_Z (Z.of_nat (col_count "play_id"
                                     (complete (game_groupby_cols df)
                                               (rows df))))))
  /\ (game_groupby_cols df = [] ->
      aggregate_to_game_level astype_str df = Ok empty_frame).
Proof.
  split.
  2: { intros E. unfold aggregate_to_game_level. now rewrite E. }
  intros K I H.
  assert (Ic : In c (present df SUM_COLUMNS)) by (apply present_In; tauto).
  assert (Src : forallb (fun e => has_col (fst (snd e)) df) (game_agg_dict df)
                = true)
    by (apply game_dict_sources; apply present_has_col).
  assert (In c (map fst (game_agg_dict df))) as Col
    by (apply game_dict_columns; now right).
  unfold aggregate_to_game_level.
  destruct (game_groupby_cols df) as [|k0 ks] eqn:G; [congruence|].
  destruct (game_agg_dict df) as [|e0 es] eqn:D; [destruct Col|].
  rewrite <- G, <- D in *. clear G D k0 ks e0 es.
  rewrite (agg_ok _ _ df K Src).
  set (gs := mkDF _ _).
  exists (game_finish astype_str gs).
  split; [reflexivity|].
  destruct (game_finish_other astype_str gs c) as [R C].
  { now apply sum_column_notin. }
  { now apply sum_column_neq. }
  { now apply sum_column_neq. }
  { now apply sum_column_neq. }
  assert (M : map (fun r => r c) (rows (game_finish astype_str gs))
              = map (fun g => VNum (col_sum c (snd g)))
                    (groupby (game_groupby_cols df) df)).
  { rewrite R. unfold gs. cbn [rows]. rewrite map_map.
    apply map_ext. intros [k rs]. unfold game_agg_dict.
    apply game_dict_sum_cell.
    - now apply game_sum_keys_notin.
    - intros J. apply play_id_counted in J. subst c.
      exact (sum_column_notin ["play_id"] "play_id" eq_refl I
               (or_introl eq_refl)).
    - exact Ic. }
  pose proof (rolled_up_total c c _ df _ M) as T.
  split; [|split; [exact T|split]].
  - apply C. unfold gs. apply has_col_In. cbn [columns].
    apply in_or_app. now right.
  - intros N. rewrite T. now rewrite (complete_all _ _ N).
  - intros P.
    assert (Pc : In "play_id" (present df ["play_id"]))
      by (apply present_In; split; [now left | exact P]).
    destruct (game_finish_plays astype_str gs) as [R' C'].
    { unfold gs. apply has_col_In. cbn [columns]. apply in_or_app. right.
      apply game_dict_columns. now left. }
    split; [exact C'|].
    rewrite col_sum_cells, R'. unfold gs. cbn [rows]. rewrite !map_map.
    rewrite <- groupby_count.
    rewrite <- Qsum_of_nat, map_map.
    assert (E : forall g : group,
               num_of (agg_row (game_groupby_cols df) (game_agg_dict df) g
                         "play_id")
               = inject_Z (Z.of_nat (col_count "play_id" (snd g)))).
    { intros [k rs]. unfold game_agg_dict.
      rewrite game_dict_count_cell; [reflexivity| |exact Pc].
      now apply game_keys_notin. }
    rewrite (map_ext _ _ E). reflexivity.
Qed.

Lemma game_level_totals_witness :
  exists out,
    aggregate_to_game_level Scenarios.render Examples.game_plays = Ok out
    /\ col_sum "targets" (rows out) == 3
    /\ col_sum "plays" (rows out) == 2.
Proof.
  destruct (proj1 (game_level_totals Scenarios.render Examples.game_plays
                     "targets"))
    as (out & A & _ & T & _ & P).
  - discriminate.
  - vm_compute. tauto.
  - reflexivity.
  - exists out. split; [exact A|]. split.
    + rewrite T. vm_compute. reflexivity.
    + rewrite (proj2 (P eq_refl)). vm_compute. reflexivity.
Defined.

End GameLevelFacts.

(* ================================================================= *)
(** * Rounding, and the reducers that order a column *)

Module RoundingFacts.
Import Frame FrameFacts.

Lemma round_half_even_comp (x y : Q) :
  x == y -> round_half_even x = round_half_even y.
Proof.
  intros E. unfold round_half_even. rewrite (Qfloor_comp x y E).
  assert (C : (x - inject_Z (Qfloor y) ?= 1 # 2)
              = (y - inject_Z (Qfloor y) ?= 1 # 2))
    by (now rewrite E).
  now rewrite C.
Qed.

Lemma round2_comp (x y : Q) : x == y -> round2 x = round2 y.
Proof.
  intros E. unfold round2.
  rewrite (round_half_even_comp (x * 100) (y * 100)); [reflexivity|].
  now rewrite E.
Qed.

(** The integer nearest to [x] is within a half of it. *)
Lemma round_half_even_near (x : Q) :
  inject_Z (round_half_even x) - (1 # 2) <= x
  /\ x <= inject_Z (round_half_even x) + (1 # 2).
Proof.
  unfold round_half_even.
  pose proof (Qfloor_le x) as L. pose proof (Qlt_floor x) as U.
  rewrite inject_Z_plus in U. change (inject_Z 1) with 1 in U.
  destruct (x - inject_Z (Qfloor x) ?= 1 # 2) eqn:C.
  - apply Qeq_alt in C. destruct (Z.even (Qfloor x));
      rewrite ?inject_Z_plus; change (inject_Z 1) with 1; split; lra.
  - apply Qlt_alt in C. split; lra.
  - apply Qgt_alt in C. rewrite inject_Z_plus. change (inject_Z 1) with 1.
    split; lra.
Qed.

Lemma round_half_even_floor (x : Q) :
  (Qfloor x <= round_half_even x <= Qfloor x + 1)%Z.
Proof.
  unfold round_half_even.
  destruct (x - inject_Z (Qfloor x) ?= 1 # 2);
    [destruct (Z.even (Qfloor x))| |]; lia.
Qed.

Lemma round_half_even_le (x y : Q) :
  x <= y -> (round_half_even x <= round_half_even y)%Z.
Proof.
  intros L. pose proof (Qfloor_resp_le x y L) as F.
  destruct (Z.eq_dec (Qfloor x) (Qfloor y)) as [E|N].
  - unfold round_half_even. rewrite E.
    destruct (x - inject_Z (Qfloor y) ?= 1 # 2) eqn:Cx;
      destruct (y - inject_Z (Qfloor y) ?= 1 # 2) eqn:Cy;
      try (destruct (Z.even (Qfloor y))); try lia; exfalso;
      first [apply Qeq_alt in Cx | apply Qlt_alt in Cx | apply Qgt_alt in Cx];
      first [apply Qeq_alt in Cy | apply Qlt_alt in Cy | apply Qgt_alt in Cy];
      lra.
  - pose proof (round_half_even_floor x). pose proof (round_half_even_floor y).
    lia.
Qed.

Lemma hundredths_le (a b : Z) : a # 100 <= b # 100 <-> (a <= b)%Z.
Proof. unfold Qle. simpl. lia. Qed.

Lemma round2_le (x y : Q) : x <= y -> round2 x <= round2 y.
Proof.
  intros L. unfold round2. apply Qred_le, hundredths_le, round_half_even_le.
  apply Qmult_le_compat_r; [exact L | discriminate].
Qed.

Lemma round2_0 : round2 0 = 0.
Proof. reflexivity. Qed.

Lemma round2_100 : round2 100 = 100.
Proof. reflexivity. Qed.

(** ** Minimum, mean and maximum of a list of numbers *)









End RoundingFacts.

(* ================================================================= *)
(** * The floor and the ceiling of a consensus *)

Module GoldFacts.
Import Frame ConsensusAggregator FrameFacts ConsensusFacts RoundingFacts.

(** ** No group is empty *)




(** ** The numbers of a column whose cells are all numbers *)








End GoldFacts.

(* ================================================================= *)
(** * Properties of the fantasy point calculator *)

Module FantasyCalculatorFacts.
Import Frame FantasyCalculator Cells FrameFacts RoundingFacts.

(** ** Equal cells *)

Lemma veq_refl v : veq v v.
Proof. destruct v; simpl; reflexivity. Qed.

Lemma veq_vround2 a b : veq a b -> veq (vround2 a) (vround2 b).
Proof.
  destruct a, b; simpl; try tauto. intros E. now rewrite (round2_comp _ _ E).
Qed.

(** ** Rounding a number moved by a whole number of hundredths *)

Lemma Qfloor_unique (x : Q) (f : Z) :
  inject_Z f <= x -> x < inject_Z (f + 1) -> Qfloor x = f.
Proof.
  intros L U. apply Z.le_antisymm.
  - pose proof (Qfloor_le x) as L'.
    assert (H : inject_Z (Qfloor x) < inject_Z (f + 1)) by lra.
    rewrite <- Zlt_Qlt in H. lia.
  - rewrite <- (Qfloor_Z f). now apply Qfloor_resp_le.
Qed.

Lemma Qfloor_shift (x : Q) (k : Z) : Qfloor (x + inject_Z k) = (Qfloor x + k)%Z.
Proof.
  apply Qfloor_unique.
  - rewrite inject_Z_plus. pose proof (Qfloor_le x). lra.
  - pose proof (Qlt_floor x) as U. rewrite !inject_Z_plus in *. lra.
Qed.

Lemma round_half_even_shift (x : Q) (k : Z) :
  Z.even k = true ->
  round_half_even (x + inject_Z k) = (round_half_even x + k)%Z.
Proof.
  intros E. unfold round_half_even. rewrite Qfloor_shift.
  assert (C : (x + inject_Z k - inject_Z (Qfloor x + k) ?= 1 # 2)
              = (x - inject_Z (Qfloor x) ?= 1 # 2)).
  { apply Qcompare_comp; [|reflexivity]. rewrite inject_Z_plus. ring. }
  rewrite C, Z.even_add, E.
  destruct (x - inject_Z (Qfloor x) ?= 1 # 2); try lia.
  destruct (Z.even (Qfloor x)); simpl; lia.
Qed.

Lemma round2_shift (x d : Q) (k : Z) :
  Z.even k = true -> d * 100 == inject_Z k -> round2 (x + d) == round2 x + d.
Proof.
  intros E D. unfold round2. rewrite !Qred_correct.
  rewrite (round_half_even_comp ((x + d) * 100) (x * 100 + inject_Z k))
    by (rewrite <- D; ring).
  rewrite round_half_even_shift by exact E.
  assert (H : d == inject_Z k / 100) by (rewrite <- D; field).
  rewrite H. unfold Qeq, Qdiv, Qmult, Qplus, Qinv, inject_Z. simpl. lia.
Qed.

(** ** The points column, record by record *)

Lemma Forall2_map_l (A B C : Type) (R : A -> C -> Prop) (R' : B -> C -> Prop)
  (f : A -> B) (l' : list A) (l : list C) :
  Forall2 R l' l -> (forall a c, R a c -> R' (f a) c) ->
  Forall2 R' (map f l') l.
Proof.
  intros F H. induction F; simpl; constructor; auto.
Qed.

Lemma Forall2_same (A : Type) (R : A -> A -> Prop) (l : list A) :
  (forall a, R a a) -> Forall2 R l l.
Proof. intros H. induction l; constructor; auto. Qed.

Lemma Forall2_join (A B C : Type) (R1 : A -> C -> Prop) (R2 : B -> C -> Prop)
  (R : A -> B -> Prop) (l1 : list A) (l2 : list B) (l : list C) :
  Forall2 R1 l1 l -> Forall2 R2 l2 l ->
  (forall a b c, In c l -> R1 a c -> R2 b c -> R a b) ->
  Forall2 R l1 l2.
Proof.
  intros F1. revert l2. induction F1 as [|a c l1 l H1 F1 IH]; intros l2 F2 H.
  - inversion F2. constructor.
  - inversion F2 as [|b c' l2' l' H2 F2']; subst. constructor.
    + apply (H a b c); [now left | exact H1 | exact H2].
    + apply IH; [exact F2'|]. intros a' b' c' I. apply H. now right.
Qed.

Lemma Forall2_Forall_l (A B : Type) (R : A -> B -> Prop) (P : A -> Prop)
  (l1 : list A) (l2 : list B) :
  Forall2 R l1 l2 -> (forall a b, In b l2 -> R a b -> P a) -> Forall P l1.
Proof.
  intros F. induction F as [|a b l1 l2 H F IH]; intros Q; constructor.
  - apply (Q a b); [now left | exact H].
  - apply IH. intros a' b' I. apply Q. now right.
Qed.

Lemma with_column_columns c f df :
  has_col c df = true -> columns (with_column c f df) = columns df.
Proof. intros H. unfold with_column. now rewrite H. Qed.

Lemma add_stat_columns pc res rule :
  has_col pc res = true -> columns (add_stat pc res rule) = columns res.
Proof.
  intros H. unfold add_stat. destruct (has_col (fst rule) res); [|reflexivity].
  now apply with_column_columns.
Qed.

Lemma fold_add_stat_columns pc rules res :
  has_col pc res = true ->
  columns (fold_left (add_stat pc) rules res) = columns res.
Proof.
  revert res. induction rules as [|rule rules IH]; intros res H; [reflexivity|].
  simpl. rewrite IH.
  - now apply add_stat_columns.
  - unfold has_col. rewrite add_stat_columns by exact H. exact H.
Qed.

Lemma fold_add_stat_rows pc rules df res (acc : row -> value) :
  (forall rule, In rule rules -> String.eqb (fst rule) pc = false) ->
  has_col pc res = true ->
  (forall x, String.eqb x pc = false -> has_col x res = has_col x df) ->
  Forall2 (fun r' r => forall x,
             r' x = if String.eqb x pc then acc r else r x)
          (rows res) (rows df) ->
  Forall2 (fun r' r => forall x,
             r' x = if String.eqb x pc
                    then fold_left (credit df r) rules (acc r) else r x)
          (rows (fold_left (add_stat pc) rules res)) (rows df).
Proof.
  revert res acc. induction rules as [|[stat m] rules IH];
    intros res acc K P C F; [exact F|].
  cbn [fold_left].
  assert (Ks : String.eqb stat pc = false) by (apply (K (stat, m)); now left).
  apply IH.
  - intros rule I. apply K. now right.
  - unfold has_col. rewrite add_stat_columns by exact P. exact P.
  - intros x N. unfold has_col. rewrite add_stat_columns by exact P.
    now apply C.
  - unfold add_stat, credit. cbn [fst snd]. rewrite (C stat Ks).
    destruct (has_col stat df); [|exact F].
    unfold with_column. cbn [rows].
    apply (Forall2_map_l _ _ _ _ _ _ _ _ F).
    intros r' r H x. unfold upd. destruct (String.eqb x pc) eqn:E.
    + rewrite (H pc), String.eqb_refl, (H stat), Ks. reflexivity.
    + now rewrite (H x), E.
Qed.

(** Each record of the output is the record of the input with its
    rounded score in the points column. *)
Lemma calculate_dataframe_points_rows calc df suffix :
  (forall rule, In rule (scoring_rules calc) ->
     String.eqb (fst rule) (points_col calc suffix) = false) ->
  Forall2 (fun r' r => forall x,
             r' x = if String.eqb x (points_col calc suffix)
                    then vround2 (score (scoring_rules calc) df r) else r x)
          (rows (calculate_dataframe_points calc df suffix)) (rows df)
  /\ forall x, has_col x (calculate_dataframe_points calc df suffix)
               = has_col x df || String.eqb x (points_col calc suffix).
Proof.
  intros K. unfold calculate_dataframe_points.
  set (pc := points_col calc suffix) in *.
  set (res0 := with_column pc (fun _ => VNum 0) df).
  assert (P0 : has_col pc res0 = true)
    by (unfold res0; now rewrite with_column_has_col, String.eqb_refl,
          orb_true_r).
  assert (C0 : forall x, String.eqb x pc = false ->
                 has_col x res0 = has_col x df)
    by (intros x N; unfold res0;
        now rewrite with_column_has_col, N, orb_false_r).
  assert (F0 : Forall2 (fun r' r => forall x,
                          r' x = if String.eqb x pc then VNum 0 else r x)
                       (rows res0) (rows df)).
  { unfold res0, with_column. cbn [rows].
    apply (Forall2_map_l _ _ _ (fun r' r : row => r' = r)).
    - apply Forall2_same. reflexivity.
    - intros r' r -> x. reflexivity. }
  pose proof (fold_add_stat_rows pc (scoring_rules calc) df res0
                (fun _ => VNum 0) K P0 C0 F0) as F.
  pose proof (fold_add_stat_columns pc (scoring_rules calc) res0 P0) as Cs.
  split.
  - unfold with_column at 1. cbn [rows].
    apply (Forall2_map_l _ _ _ _ _ _ _ _ F).
    intros r' r H x. unfold upd, score. destruct (String.eqb x pc) eqn:E.
    + now rewrite (H pc), String.eqb_refl.
    + now rewrite (H x), E.
  - intros x. rewrite with_column_has_col. unfold has_col at 1. rewrite Cs.
    fold (has_col x res0). unfold res0. rewrite with_column_has_col.
    now destruct (has_col x df), (String.eqb x pc).
Qed.

(** ** The three calculators *)

Lemma init_inv (s : string) (calc : Calculator) :
  __init__ s = Ok calc ->
  calc = mkCalculator "standard" STANDARD_SCORING
  \/ calc = mkCalculator "ppr" PPR_SCORING
  \/ calc = mkCalculator "half_ppr" HALF_PPR_SCORING.
Proof.
  unfold __init__. cbv zeta.
  destruct (String.eqb_spec (lower s) "standard") as [->|_];
    [intros [= <-]; now left|].
  destruct (String.eqb_spec (lower s) "ppr") as [->|_];
    [intros [= <-]; right; now left|].
  destruct (String.eqb_spec (lower s) "half_ppr") as [->|_];
    [intros [= <-]; right; now right | discriminate].
Qed.

(** No rule is named as a column the calculator writes. *)
Lemma rules_apart (s : string) (calc : Calculator) (x : string) :
  __init__ s = Ok calc ->
  In x [points_col calc ""; "fantasy_points_calculated"; "points_diff";
        "points_match"] ->
  forall rule, In rule (scoring_rules calc) -> String.eqb (fst rule) x = false.
Proof.
  intros A I rule J.
  assert (F : forallb (fun rule : string * Q => negb (String.eqb (fst rule) x))
                      (scoring_rules calc) = true).
  { destruct (init_inv s calc A) as [-> | [-> | ->]];
      cbn [In points_col scoring_system] in I;
      repeat (destruct I as [<-|I]; [vm_compute; reflexivity|]); destruct I. }
  rewrite forallb_forall in F. apply negb_true_iff. now apply F.
Qed.

Lemma receptions_rule (s : string) (calc : Calculator) :
  __init__ s = Ok calc ->
  exists per_reception,
    dict_get (scoring_rules calc) "receptions" = Some per_reception
    /\ scoring_rules calc
       = dict_set STANDARD_SCORING "receptions" per_reception
    /\ exists k, Z.even k = true /\ per_reception * 100 == inject_Z k.
Proof.
  intros A. destruct (init_inv s calc A) as [-> | [-> | ->]].
  - exists 0. split; [reflexivity|]. split; [reflexivity|].
    exists 0%Z. split; reflexivity.
  - exists 1. split; [reflexivity|]. split; [reflexivity|].
    exists 100%Z. split; reflexivity.
  - exists (1 # 2). split; [reflexivity|]. split; [reflexivity|].
    exists 50%Z. split; reflexivity.
Qed.

(** ** A rule changed *)

Lemma numeric_vadd a b : ConsensusAggregator.numeric (vadd a b) = true.
Proof. destruct a, b; reflexivity. Qed.

Lemma numeric_credit df r a rule :
  ConsensusAggregator.numeric a = true ->
  ConsensusAggregator.numeric (credit df r a rule) = true.
Proof.
  intros H. unfold credit. destruct (has_col (fst rule) df); [|exact H].
  apply numeric_vadd.
Qed.

Lemma vadd_shift a1 a2 d t :
  veq a1 (vadd a2 d) -> veq (vadd a1 t) (vadd (vadd a2 t) d).
Proof.
  destruct a1, a2, d, t; simpl; try tauto. intros E. rewrite E. ring.
Qed.

Lemma fold_credit_shift df r rules a1 a2 d :
  veq a1 (vadd a2 d) ->
  veq (fold_left (credit df r) rules a1)
      (vadd (fold_left (credit df r) rules a2) d).
Proof.
  revert a1 a2. induction rules as [|rule rules IH]; intros a1 a2 E;
    [exact E|].
  cbn [fold_left]. apply IH. unfold credit.
  destruct (has_col (fst rule) df); [|exact E]. now apply vadd_shift.
Qed.

(** What the change of one rule adds to a score. *)
Lemma score_dict_set df r rules k v v0 a :
  dict_get rules k = Some v0 ->
  ConsensusAggregator.numeric a = true ->
  veq (fold_left (credit df r) (dict_set rules k v) a)
      (vadd (fold_left (credit df r) rules a)
            (if has_col k df then vtimes (fillna (r k) 0) (v - v0)
             else VNum 0)).
Proof.
  revert a. induction rules as [|[k' v'] rules IH]; intros a G N;
    [discriminate|].
  cbn [dict_get] in G. cbn [dict_set].
  rewrite String.eqb_sym in G.
  destruct (String.eqb_spec k' k) as [->|Ne].
  - injection G as ->. cbn [fold_left]. apply fold_credit_shift.
    unfold credit. cbn [fst snd].
    destruct (has_col k df).
    + destruct a as [|x|t]; try discriminate; [simpl; trivial|].
      destruct (fillna (r k) 0) as [|y|t]; simpl; trivial. ring.
    + destruct a as [|x|t]; try discriminate; simpl; [trivial | ring].
  - cbn [fold_left]. apply IH; [exact G | now apply numeric_credit].
Qed.

Lemma numeric_fold_credit df r rules a :
  ConsensusAggregator.numeric a = true ->
  ConsensusAggregator.numeric (fold_left (credit df r) rules a) = true.
Proof.
  revert a. induction rules as [|rule rules IH]; intros a N; [exact N|].
  cbn [fold_left]. now apply IH, numeric_credit.
Qed.

Lemma numeric_score rules df r :
  ConsensusAggregator.numeric (score rules df r) = true.
Proof. now apply numeric_fold_credit. Qed.

Lemma fold_credit_ext df df' r r' rules a :
  (forall rule, In rule rules ->
     has_col (fst rule) df' = has_col (fst rule) df
     /\ r' (fst rule) = r (fst rule)) ->
  fold_left (credit df' r') rules a = fold_left (credit df r) rules a.
Proof.
  revert a. induction rules as [|rule rules IH]; intros a H; [reflexivity|].
  cbn [fold_left]. rewrite IH by (intros x I; apply H; now right).
  f_equal. unfold credit. destruct (H rule) as [-> ->]; [now left|].
  reflexivity.
Qed.

Lemma fold_credit_number df r rules x :
  (forall rule, In rule rules ->
     has_col (fst rule) df = true ->
     ConsensusAggregator.numeric (r (fst rule)) = true) ->
  exists y, fold_left (credit df r) rules (VNum x) = VNum y.
Proof.
  revert x. induction rules as [|rule rules IH]; intros x H;
    [now exists x|].
  cbn [fold_left]. unfold credit at 2.
  destruct (has_col (fst rule) df) eqn:C.
  - specialize (H rule (or_introl eq_refl) C) as N.
    destruct (r (fst rule)) as [|q|t]; try discriminate; simpl;
      apply IH; intros x' I; apply H; now right.
  - apply IH. intros x' I. apply H. now right.
Qed.

(** ** Standard points, PPR points and half-PPR points *)

(** Under each of the three systems, the points of a record are its
    standard points plus its receptions times what the system gives for
    a reception (0, 1 or a half), when the scored statistics are
    numbers: the rounding to two places does not get in the way, the
    receptions being a whole number, or none at all. *)
Theorem points_are_standard_points_plus_receptions
  (s : string) (calc : Calculator) (df : DataFrame) :
  __init__ s = Ok calc ->
  numeric_stats (scoring_rules calc) df = true ->
  (has_col "receptions" df = true ->
   forall r, In r (rows df) ->
     r "receptions" = VNull
     \/ exists n : Z, r "receptions" = VNum (inject_Z n)) ->
  exists per_reception,
    dict_get (scoring_rules calc) "receptions" = Some per_reception
    /\ Forall2
         (fun rc rs =>
            veq (rc (points_col calc ""))
                (vadd (rs "fantasy_points_standard")
                      (vtimes (catches df rs) per_reception)))
         (rows (calculate_dataframe_points calc df ""))
         (rows (calculate_dataframe_points
                  (mkCalculator "standard" STANDARD_SCORING) df "")).
Proof.
  intros A _ W.
  destruct (receptions_rule s calc A) as (pr & G & Rules & k & Ev & D).
  exists pr. split; [exact G|].
  destruct (calculate_dataframe_points_rows calc df "") as [Fc _].
  { apply (rules_apart s calc _ A). now left. }
  destruct (calculate_dataframe_points_rows
              (mkCalculator "standard" STANDARD_SCORING) df "") as [Fs _].
  { apply (rules_apart "standard" _ _ eq_refl). now left. }
  apply (Forall2_join _ _ _ _ _ _ _ _ _ Fc Fs).
  intros rc rs r I Hc Hs.
  rewrite (Hc (points_col calc "")), String.eqb_refl.
  rewrite (Hs "fantasy_points_standard").
  change (points_col (mkCalculator "standard" STANDARD_SCORING) "")
    with "fantasy_points_standard" in *.
  rewrite String.eqb_refl.
  assert (Ec : catches df rs = catches df r).
  { unfold catches. now rewrite (Hs "receptions"). }
  rewrite Ec. cbn [scoring_rules]. rewrite Rules.
  pose proof (score_dict_set df r STANDARD_SCORING "receptions" pr 0
                (VNum 0) eq_refl eq_refl) as E.
  fold (score (dict_set STANDARD_SCORING "receptions" pr) df r) in E.
  fold (score STANDARD_SCORING df r) in E.
  assert (N : exists (n : Z) (d : Q),
             catches df r = VNum (inject_Z n)
             /\ (if has_col "receptions" df
                 then vtimes (fillna (r "receptions") 0) (pr - 0)
                 else VNum 0) = VNum d
             /\ d == inject_Z n * pr).
  { unfold catches. destruct (has_col "receptions" df) eqn:C.
    - destruct (W eq_refl r I) as [-> | [n ->]].
      + exists 0%Z, (0 * (pr - 0)). split; [|split]; try reflexivity; ring.
      + exists n, (inject_Z n * (pr - 0)). split; [|split]; try reflexivity; ring.
    - exists 0%Z, 0. split; [|split]; try reflexivity; ring. }
  destruct N as (n & d & -> & Delta & Ed). rewrite Delta in E.
  pose proof (numeric_score STANDARD_SCORING df r) as Ns.
  destruct (score STANDARD_SCORING df r) as [|y|t]; try discriminate;
    destruct (score (dict_set STANDARD_SCORING "receptions" pr) df r)
      as [|x|t]; simpl in E |- *; try tauto.
  rewrite (round2_comp x (y + inject_Z n * pr)) by (rewrite E, Ed; ring).
  apply (round2_shift y (inject_Z n * pr) (n * k)).
  - rewrite Z.even_mul, Ev. apply orb_true_r.
  - rewrite inject_Z_mult, <- D. ring.
Qed.

Lemma points_are_standard_points_plus_receptions_witness :
  exists per_reception,
    dict_get PPR_SCORING "receptions" = Some per_reception
    /\ Forall2
         (fun rc rs =>
            veq (rc "fantasy_points_ppr")
                (vadd (rs "fantasy_points_standard")
                      (vtimes (catches Examples.stat_lines rs)
                              per_reception)))
         (rows (calculate_dataframe_points
                  (mkCalculator "ppr" PPR_SCORING) Examples.stat_lines ""))
         (rows (calculate_dataframe_points
                  (mkCalculator "standard" STANDARD_SCORING)
                  Examples.stat_lines "")).
Proof.
  apply (points_are_standard_points_plus_receptions
           "PPR" (mkCalculator "ppr" PPR_SCORING) Examples.stat_lines
           eq_refl eq_refl).
  intros _ r [<- | [<- | [<- | []]]].
  - right. now exists 7%Z.
  - now left.
  - now left.
Defined.

(** ** Checking points against the calculator *)

Lemma numeric_stats_score rules df r :
  numeric_stats rules df = true -> In r (rows df) ->
  exists y, score rules df r = VNum y.
Proof.
  intros N I. apply fold_credit_number. intros rule J C.
  unfold numeric_stats in N. rewrite forallb_forall in N.
  specialize (N rule J). rewrite C in N. cbn [negb orb] in N.
  rewrite forallb_forall in N. now apply N.
Qed.

Lemma Forall2_chain (A B C : Type) (R2 : A -> B -> Prop)
  (R1 : B -> C -> Prop) (R : A -> C -> Prop)
  (l2 : list A) (l1 : list B) (l : list C) :
  Forall2 R2 l2 l1 -> Forall2 R1 l1 l ->
  (forall a b c, In c l -> R2 a b -> R1 b c -> R a c) ->
  Forall2 R l2 l.
Proof.
  intros F2. revert l. induction F2 as [|a b l2 l1 H2 F2 IH]; intros l F1 H.
  - inversion F1. constructor.
  - inversion F1 as [|b' c l1' l' H1 F1']; subst. constructor.
    + apply (H a b c); [now left | exact H2 | exact H1].
    + apply IH; [exact F1'|]. intros a' b' c' I. apply H. now right.
Qed.

Lemma own_columns_apart (s : string) (calc : Calculator) :
  __init__ s = Ok calc ->
  String.eqb (points_col calc "") "fantasy_points_calculated" = false
  /\ String.eqb (points_col calc "") "points_diff" = false
  /\ String.eqb (points_col calc "") "points_match" = false.
Proof.
  intros A. destruct (init_inv s calc A) as [-> | [-> | ->]]; now vm_compute.
Qed.

(** Points that the calculator wrote pass its own check: whatever the
    tolerance, as long as it is not negative, every record is marked as
    matching, with a difference of 0.  The scored statistics hold
    numbers or missing values. *)
Theorem own_points_pass_the_check
  (s : string) (calc : Calculator) (df : DataFrame) (tolerance : Q) :
  __init__ s = Ok calc ->
  numeric_stats (scoring_rules calc) df = true ->
  0 <= tolerance ->
  Forall (fun r => r "points_match" = flag true
                   /\ veq (r "points_diff") (VNum 0))
    (rows (verify_fantasy_points calc
             (calculate_dataframe_points calc df "")
             (points_col calc "") tolerance)).
Proof.
  intros A N T.
  destruct (own_columns_apart s calc A) as (Pc & Pd & Pm).
  destruct (calculate_dataframe_points_rows calc df "") as [F1 C1].
  { apply (rules_apart s calc _ A). now left. }
  set (pc := points_col calc "") in *.
  set (scored := calculate_dataframe_points calc df "") in *.
  destruct (calculate_dataframe_points_rows calc scored "calculated")
    as [F2 C2].
  { apply (rules_apart s calc _ A). right. now left. }
  change (points_col calc "calculated") with "fantasy_points_calculated"
    in F2, C2.
  unfold verify_fantasy_points. cbv zeta.
  rewrite C2, C1, String.eqb_refl, orb_true_r. cbn [orb].
  unfold with_column at 1. cbn [rows].
  unfold with_column at 1. cbn [rows].
  rewrite !Forall_map.
  assert (F : Forall2
                (fun r2 r =>
                   exists y, r2 "fantasy_points_calculated" = VNum y
                             /\ r2 pc = VNum y)
                (rows (calculate_dataframe_points calc scored "calculated"))
                (rows df)).
  { apply (Forall2_chain _ _ _ _ _ _ _ _ _ F2 F1). intros r2 r1 r I H2 H1.
    destruct (numeric_stats_score _ _ _ N I) as [y Y].
    exists (round2 y).
    rewrite (H2 "fantasy_points_calculated"), String.eqb_refl.
    rewrite (H2 pc), Pc, (H1 pc), String.eqb_refl.
    unfold score at 1.
    rewrite (fold_credit_ext df scored r r1).
    - fold (score (scoring_rules calc) df r). now rewrite Y.
    - intros rule J.
      pose proof (rules_apart s calc pc A (or_introl eq_refl) rule J) as K.
      now rewrite C1, (H1 (fst rule)), K, orb_false_r. }
  apply (Forall2_Forall_l _ _ _ _ _ _ F). intros r2 r _ (y & E1 & E2).
  rewrite upd_same, (upd_other _ "points_match" _ "points_diff" eq_refl),
    !upd_same.
  rewrite E1, E2. cbn [vsub vabs le flag veq].
  assert (Z0 : Qltb (y - y) 0 = false) by (apply Qltb_ge; lra).
  rewrite Z0.
  assert (Z1 : Qltb tolerance (y - y) = false) by (apply Qltb_ge; lra).
  rewrite Z1. split; [reflexivity | ring].
Qed.

Lemma own_points_pass_the_check_witness :
  Forall (fun r => r "points_match" = flag true
                   /\ veq (r "points_diff") (VNum 0))
    (rows (verify_fantasy_points (mkCalculator "half_ppr" HALF_PPR_SCORING)
             (calculate_dataframe_points
                (mkCalculator "half_ppr" HALF_PPR_SCORING)
                Examples.stat_lines "")
             "fantasy_points_half_ppr" (1 # 10))).
Proof.
  apply (own_points_pass_the_check
           "Half_PPR" (mkCalculator "half_ppr" HALF_PPR_SCORING)
           Examples.stat_lines (1 # 10) eq_refl eq_refl).
  unfold Qle. simpl. lia.
Defined.

(** ** Half-PPR points from the other two *)

Lemma round_half_even_Z (k : Z) : round_half_even (inject_Z k) = k.
Proof.
  unfold round_half_even. rewrite Qfloor_Z.
  assert (C : (inject_Z k - inject_Z k ?= 1 # 2) = Lt).
  { rewrite <- Qlt_alt. lra. }
  now rewrite C.
Qed.

Lemma round2_hundredths (q : Q) (k : Z) :
  q * 100 == inject_Z k -> round2 q == q.
Proof.
  intros E. unfold round2. rewrite Qred_correct.
  rewrite (round_half_even_comp _ _ E), round_half_even_Z.
  assert (H : q == inject_Z k / 100) by (rewrite <- E; field).
  rewrite H. unfold Qeq, Qdiv, Qmult, Qinv, inject_Z. simpl. lia.
Qed.

Lemma round2_is_hundredths (x : Q) :
  round2 x * 100 == inject_Z (round_half_even (x * 100)).
Proof.
  unfold round2. rewrite Qred_correct.
  unfold Qeq, Qmult, inject_Z. simpl. lia.
Qed.

Lemma numeric_stats_standard (s : string) (calc : Calculator)
  (df : DataFrame) :
  __init__ s = Ok calc ->
  numeric_stats (scoring_rules calc) df
  = numeric_stats STANDARD_SCORING df.
Proof.
  intros A. destruct (init_inv s calc A) as [-> | [-> | ->]]; reflexivity.
Qed.

(** The points under [calc] of a record of [df], by its standard
    points. *)
Lemma score_by_standard (s : string) (calc : Calculator) (df : DataFrame)
  (r : row) (per_reception : Q) :
  __init__ s = Ok calc ->
  dict_get (scoring_rules calc) "receptions" = Some per_reception ->
  numeric_stats STANDARD_SCORING df = true ->
  (has_col "receptions" df = true ->
   r "receptions" = VNull
   \/ exists n : Z, r "receptions" = VNum (inject_Z n)) ->
  In r (rows df) ->
  exists (y : Q) (n : Z),
    score STANDARD_SCORING df r = VNum y
    /\ catches df r = VNum (inject_Z n)
    /\ veq (vround2 (score (scoring_rules calc) df r))
           (VNum (round2 y + inject_Z n * per_reception)).
Proof.
  intros A G N W I.
  destruct (receptions_rule s calc A) as (pr & G' & Rules & k & Ev & D).
  assert (pr = per_reception) as -> by congruence.
  destruct (numeric_stats_score _ _ _ N I) as [y Y].
  pose proof (score_dict_set df r STANDARD_SCORING "receptions"
                per_reception 0 (VNum 0) eq_refl eq_refl) as E.
  fold (score (dict_set STANDARD_SCORING "receptions" per_reception) df r)
    in E.
  fold (score STANDARD_SCORING df r) in E. rewrite <- Rules, Y in E.
  assert (C : exists (n : Z) (d : Q),
             catches df r = VNum (inject_Z n)
             /\ (if has_col "receptions" df
                 then vtimes (fillna (r "receptions") 0)
                             (per_reception - 0)
                 else VNum 0) = VNum d
             /\ d == inject_Z n * per_reception).
  { unfold catches. destruct (has_col "receptions" df) eqn:C.
    - destruct (W eq_refl) as [-> | [n ->]].
      + exists 0%Z, (0 * (per_reception - 0)).
        split; [|split]; try reflexivity; ring.
      + exists n, (inject_Z n * (per_reception - 0)).
        split; [|split]; try reflexivity; ring.
    - exists 0%Z, 0. split; [|split]; try reflexivity; ring. }
  destruct C as (n & d & Cn & Delta & Ed). rewrite Delta in E.
  exists y, n. split; [exact Y|]. split; [exact Cn|].
  destruct (score (scoring_rules calc) df r) as [|x|t]; simpl in E |- *;
    try tauto.
  rewrite (round2_comp x (y + inject_Z n * per_reception))
    by (rewrite E, Ed; ring).
  apply (round2_shift y (inject_Z n * per_reception) (n * k)).
  - rewrite Z.even_mul, Ev. apply orb_true_r.
  - rewrite inject_Z_mult, <- D. ring.
Qed.

(** Half-PPR points can be had in two ways: by the half-PPR calculator,
    or as the average of the standard and the PPR points that the other
    two calculators wrote, which is what
    [calculate_half_ppr_from_others] computes.  Both give the same
    points for every record, when the batch has no column
    [fantasy_points] of its own, the scored statistics are numbers and
    the receptions whole numbers. *)
Theorem half_ppr_from_others_is_half_ppr (df : DataFrame) :
  numeric_stats STANDARD_SCORING df = true ->
  (has_col "receptions" df = true ->
   forall r, In r (rows df) ->
     r "receptions" = VNull
     \/ exists n : Z, r "receptions" = VNum (inject_Z n)) ->
  has_col "fantasy_points" df = false ->
  let standard := mkCalculator "standard" STANDARD_SCORING in
  let ppr := mkCalculator "ppr" PPR_SCORING in
  let half_ppr := mkCalculator "half_ppr" HALF_PPR_SCORING in
  let both :=
    calculate_dataframe_points ppr
      (calculate_dataframe_points standard df "") "" in
  Forall2
    (fun r_avg r_half =>
       veq (r_avg "fantasy_points_half_ppr")
           (r_half "fantasy_points_half_ppr"))
    (rows (calculate_half_ppr_from_others both))
    (rows (calculate_dataframe_points half_ppr df "")).
Proof.
  intros N W P standard ppr half_ppr both.
  pose (scored := calculate_dataframe_points standard df "").
  destruct (calculate_dataframe_points_rows standard df "") as [F1 C1].
  { apply (rules_apart "standard" _ _ eq_refl). now left. }
  destruct (calculate_dataframe_points_rows ppr scored "") as [F2 C2].
  { apply (rules_apart "ppr" _ _ eq_refl). now left. }
  destruct (calculate_dataframe_points_rows half_ppr df "") as [F3 _].
  { apply (rules_apart "half_ppr" _ _ eq_refl). now left. }
  fold scored in F1, C1. fold both in F2, C2.
  change (points_col standard "") with "fantasy_points_standard" in *.
  change (points_col ppr "") with "fantasy_points_ppr" in *.
  change (points_col half_ppr "") with "fantasy_points_half_ppr" in *.
  assert (H0 : has_col "fantasy_points" both = false)
    by (rewrite C2, C1, P; reflexivity).
  assert (H1 : has_col "fantasy_points_standard" both = true)
    by (rewrite C2, C1, String.eqb_refl, orb_true_r; reflexivity).
  assert (H2 : has_col "fantasy_points_ppr" both = true)
    by (rewrite C2, String.eqb_refl; apply orb_true_r).
  unfold calculate_half_ppr_from_others. rewrite H0, H1, H2. cbn [andb].
  unfold average_points, with_column. cbn [rows].
  assert (F : Forall2
                (fun r2 r =>
                   r2 "fantasy_points_standard"
                   = vround2 (score STANDARD_SCORING df r)
                   /\ r2 "fantasy_points_ppr"
                      = vround2 (score PPR_SCORING df r))
                (rows both) (rows df)).
  { apply (Forall2_chain _ _ _ _ _ _ _ _ _ F2 F1). intros r2 r1 r I R2 R1.
    rewrite (R2 "fantasy_points_standard"), (R2 "fantasy_points_ppr").
    rewrite (R1 "fantasy_points_standard").
    cbn [String.eqb Ascii.eqb Bool.eqb].
    split; [reflexivity|]. f_equal. unfold score.
    apply fold_credit_ext. intros rule J.
    pose proof (rules_apart "ppr" ppr "fantasy_points_ppr" eq_refl
                  (or_introl eq_refl) rule J) as K.
    assert (K' : String.eqb (fst rule) "fantasy_points_standard" = false).
    { revert rule J K. clear. intros rule J _.
      assert (Fa : forallb
                     (fun rule : string * Q =>
                        negb (String.eqb (fst rule)
                                         "fantasy_points_standard"))
                     PPR_SCORING = true) by reflexivity.
      rewrite forallb_forall in Fa. apply negb_true_iff, Fa, J. }
    rewrite C1, (R1 (fst rule)), K', orb_false_r. split; reflexivity. }
  set (average := fun r : row =>
                    upd r "fantasy_points_half_ppr"
                      (vround2 (vhalf (vadd (r "fantasy_points_standard")
                                            (r "fantasy_points_ppr"))))).
  assert (Fm : Forall2
                 (fun r' r =>
                    r' "fantasy_points_half_ppr"
                    = vround2
                        (vhalf (vadd (vround2 (score STANDARD_SCORING df r))
                                     (vround2 (score PPR_SCORING df r)))))
                 (map average (rows both)) (rows df)).
  { apply (Forall2_map_l _ _ _ _ _ _ _ _ F). intros r2 r [E1 E2].
    unfold average. now rewrite upd_same, E1, E2. }
  apply (Forall2_join _ _ _ _ _ _ _ _ _ Fm F3). intros r' rh r I E H3.
  rewrite E, (H3 "fantasy_points_half_ppr"), String.eqb_refl.
  assert (Wr : has_col "receptions" df = true ->
               r "receptions" = VNull
               \/ exists n : Z, r "receptions" = VNum (inject_Z n))
    by (intros C; now apply W).
  destruct (score_by_standard "ppr" ppr df r 1 eq_refl eq_refl N Wr I)
    as (y & n & Y & Cn & Ep).
  destruct (score_by_standard "half_ppr" half_ppr df r (1 # 2)
              eq_refl eq_refl N Wr I) as (y' & n' & Y' & Cn' & Eh).
  assert (y' = y) as -> by congruence.
  assert (n' = n) as ->.
  { rewrite Cn in Cn'. injection Cn' as Q1. congruence. }
  cbn [scoring_rules ppr half_ppr] in Ep, Eh.
  change (scoring_rules half_ppr) with HALF_PPR_SCORING. rewrite Y.
  destruct (vround2 (score PPR_SCORING df r)) as [|xp|t];
    cbn [veq] in Ep; try tauto.
  destruct (vround2 (score HALF_PPR_SCORING df r)) as [|xh|t];
    cbn [veq] in Eh; try tauto.
  cbn [vround2 vadd ConsensusAggregator.vadd vhalf veq].
  rewrite Eh.
  rewrite (round2_comp _ (round2 y + inject_Z n * (1 # 2)))
    by (rewrite Ep; field).
  apply (round2_hundredths _ (round_half_even (y * 100) + n * 50)).
  rewrite inject_Z_plus, inject_Z_mult, <- round2_is_hundredths.
  change (inject_Z 50) with 50. field.
Qed.

Lemma half_ppr_from_others_is_half_ppr_witness :
  Forall2
    (fun r_avg r_half =>
       veq (r_avg "fantasy_points_half_ppr")
           (r_half "fantasy_points_half_ppr"))
    (rows (calculate_half_ppr_from_others
             (calculate_dataframe_points (mkCalculator "ppr" PPR_SCORING)
                (calculate_dataframe_points
                   (mkCalculator "standard" STANDARD_SCORING)
                   Examples.stat_lines "") "")))
    (rows (calculate_dataframe_points
             (mkCalculator "half_ppr" HALF_PPR_SCORING)
             Examples.stat_lines "")).
Proof.
  apply (half_ppr_from_others_is_half_ppr Examples.stat_lines eq_refl);
    [|reflexivity].
  intros _ r [<- | [<- | [<- | []]]].
  - right. now exists 7%Z.
  - now left.
  - now left.
Defined.

End FantasyCalculatorFacts.

(* ================================================================= *)
(** * Properties of the play-by-play cache *)

Module PlayByPlayFacts.
Import Frame PlayByPlay.

Lemma cache_get_set (c : cache) (k : string) (df : DataFrame) :
  cache_get (cache_set c k df) k = Some df.
Proof.
  induction c as [|[k' df'] c IH]; cbn [cache_set cache_get].
  - now rewrite String.eqb_refl.
  - destruct (String.eqb k k') eqn:E; cbn [cache_get].
    + now rewrite String.eqb_refl.
    + now rewrite E.
Qed.

(** Plays that were downloaded once for some seasons are what every
    later request for those seasons gets, whatever weeks it asks for and
    whatever the provider would answer by then: the cache is keyed by
    the seasons alone, and it holds the batch as the first request
    filtered it. *)
Theorem cached_plays_are_served_whatever_the_weeks
  (str : Z -> string) (config_seasons : list Z)
  (config_columns : list string)
  (import_pbp_data later_data : list Z -> result (option DataFrame))
  (now later : value)
  (c : cache) (seasons weeks : option (list Z)) (d : DataFrame) :
  let first :=
    _extract_play_by_play str config_seasons config_columns
      import_pbp_data now c seasons weeks in
  snd first = Ok d ->
  empty d = false ->
  forall weeks',
    _extract_play_by_play str config_seasons config_columns
      later_data later (fst first) seasons weeks'
    = (fst first, Ok d).
Proof.
  intros first R E weeks'.
  assert (G : cache_get (fst first)
                (cache_key str (or_else seasons config_seasons)) = Some d).
  { revert R. unfold first, _extract_play_by_play. cbv zeta.
    destruct (cache_get c _) as [df|] eqn:Hit; cbn [fst snd].
    - intros [= ->]. exact Hit.
    - destruct (import_pbp_data _) as [[pbp_df|]|e]; cbn [fst snd];
        try discriminate.
      + destruct (empty pbp_df).
        * cbn [snd]. intros [= <-]. discriminate.
        * destruct weeks as [[|w ws]|];
            try (cbn [fst snd]; intros [= <-]; apply cache_get_set).
          destruct (has_col "week" pbp_df); cbn [fst snd];
            [intros [= <-]; apply cache_get_set | discriminate].
      + intros [= <-]. discriminate. }
  unfold _extract_play_by_play at 1. cbv zeta. now rewrite G.
Qed.

Lemma cached_plays_are_served_whatever_the_weeks_witness :
  exists d,
    snd (_extract_play_by_play Downloads.str [2023%Z] [] Downloads.provider
           (VStr "2023-09-12") [] (Some [2023%Z]) (Some [1%Z])) = Ok d
    /\ map (fun r : row => r "week") (rows d) = [VNum 1]
    /\ _extract_play_by_play Downloads.str [2023%Z] [] Downloads.offline
         (VStr "2023-09-19")
         (fst (_extract_play_by_play Downloads.str [2023%Z] []
                 Downloads.provider (VStr "2023-09-12") []
                 (Some [2023%Z]) (Some [1%Z])))
         (Some [2023%Z]) (Some [2%Z])
       = (fst (_extract_play_by_play Downloads.str [2023%Z] []
                 Downloads.provider (VStr "2023-09-12") []
                 (Some [2023%Z]) (Some [1%Z])),
          Ok d).
Proof.
  eexists. split; [reflexivity|]. split; [reflexivity|].
  apply (cached_plays_are_served_whatever_the_weeks
           Downloads.str [2023%Z] [] Downloads.provider Downloads.offline
           (VStr "2023-09-12") (VStr "2023-09-19") []
           (Some [2023%Z]) (Some [1%Z]));
    reflexivity.
Defined.

End PlayByPlayFacts.

(* ================================================================= *)
(** * Properties of the boom and bust rates *)

Module BoomBustFacts.
Import Frame BoomBust FrameFacts RoundingFacts FantasyCalculatorFacts.

(** ** Rounding and the opposite number *)

Lemma round_half_even_opp (x : Q) :
  round_half_even (- x) = (- round_half_even x)%Z.
Proof.
  unfold round_half_even.
  pose proof (Qfloor_le x) as L. pose proof (Qlt_floor x) as U.
  rewrite inject_Z_plus in U. change (inject_Z 1) with 1 in U.
  destruct (Qeq_dec x (inject_Z (Qfloor x))) as [E|N].
  - assert (F : Qfloor (- x) = (- Qfloor x)%Z).
    { apply Qfloor_unique; rewrite ?inject_Z_plus, inject_Z_opp;
        change (inject_Z 1) with 1; lra. }
    rewrite F.
    assert (C1 : (x - inject_Z (Qfloor x) ?= 1 # 2) = Lt)
      by (rewrite <- Qlt_alt; lra).
    assert (C2 : (- x - inject_Z (- Qfloor x) ?= 1 # 2) = Lt)
      by (rewrite <- Qlt_alt, inject_Z_opp; lra).
    now rewrite C1, C2.
  - assert (F : Qfloor (- x) = (- Qfloor x - 1)%Z).
    { apply Qfloor_unique.
      - unfold Z.sub. rewrite inject_Z_plus, !inject_Z_opp.
        change (inject_Z 1) with 1. lra.
      - replace (- Qfloor x - 1 + 1)%Z with (- Qfloor x)%Z by lia.
        rewrite inject_Z_opp.
        assert (inject_Z (Qfloor x) < x); [|lra].
        apply Qle_lt_or_eq in L. destruct L as [L|L]; [exact L|].
        exfalso. apply N. now symmetry. }
    rewrite F.
    assert (D : - x - inject_Z (- Qfloor x - 1)
                == 1 - (x - inject_Z (Qfloor x))).
    { unfold Z.sub. rewrite inject_Z_plus, !inject_Z_opp.
      change (inject_Z 1) with 1. ring. }
    rewrite (Qcompare_comp _ _ D (1 # 2) (1 # 2) (Qeq_refl _)).
    set (t := x - inject_Z (Qfloor x)) in *. clearbody t.
    destruct (t ?= 1 # 2) eqn:C.
    + apply Qeq_alt in C.
      assert (C' : (1 - t ?= 1 # 2) = Eq) by (rewrite <- Qeq_alt; lra).
      rewrite C'.
      replace (- Qfloor x - 1)%Z with (- (Qfloor x + 1))%Z by lia.
      rewrite Z.even_opp, Z.even_add. cbn [Z.even].
      destruct (Z.even (Qfloor x)); cbn [Bool.eqb]; lia.
    + apply Qlt_alt in C.
      assert (C' : (1 - t ?= 1 # 2) = Gt) by (rewrite <- Qgt_alt; lra).
      rewrite C'. lia.
    + apply Qgt_alt in C.
      assert (C' : (1 - t ?= 1 # 2) = Lt) by (rewrite <- Qlt_alt; lra).
      rewrite C'. lia.
Qed.

Lemma round2_opp (x : Q) : round2 (- x) == - round2 x.
Proof.
  unfold round2. rewrite !Qred_correct.
  rewrite (round_half_even_comp (- x * 100) (- (x * 100))) by ring.
  rewrite round_half_even_opp.
  unfold Qeq, Qopp. simpl. lia.
Qed.

(** Two shares of one whole still add up to no more than the whole
    after each is rounded. *)
Lemma round2_shares (x y : Q) :
  x + y <= 100 -> round2 x + round2 y <= 100.
Proof.
  intros H.
  assert (L : round2 y <= round2 (- x + 100)) by (apply round2_le; lra).
  rewrite (round2_shift (- x) 100 10000 eq_refl) in L by reflexivity.
  rewrite round2_opp in L. lra.
Qed.

Lemma round2_nonneg (x : Q) : 0 <= x -> 0 <= round2 x.
Proof. intros H. rewrite <- round2_0. now apply round2_le. Qed.

(** ** Counting games *)

Lemma count_apart (points : list Q) (boom bust : Q) :
  bust < boom ->
  (count_ge points boom + count_le points bust <= List.length points)%nat.
Proof.
  intros H. unfold count_ge, count_le.
  induction points as [|p l IH]; cbn [filter List.length]; [lia|].
  destruct (Qltb p boom) eqn:B; destruct (Qltb bust p) eqn:U;
    cbn [negb List.length]; try lia.
  apply Qltb_ge in B, U. lra.
Qed.

Lemma count_ge_anti (points : list Q) (t t' : Q) :
  t <= t' -> (count_ge points t' <= count_ge points t)%nat.
Proof.
  intros H. unfold count_ge.
  induction points as [|p l IH]; cbn [filter List.length]; [lia|].
  destruct (Qltb p t') eqn:A; destruct (Qltb p t) eqn:B;
    cbn [negb List.length]; try lia.
  apply Qltb_ge in A. apply Qltb_lt in B. lra.
Qed.

Lemma count_le_mono (points : list Q) (t t' : Q) :
  t <= t' -> (count_le points t <= count_le points t')%nat.
Proof.
  intros H. unfold count_le.
  induction points as [|p l IH]; cbn [filter List.length]; [lia|].
  destruct (Qltb t p) eqn:A; destruct (Qltb t' p) eqn:B;
    cbn [negb List.length]; try lia.
  apply Qltb_ge in A. apply Qltb_lt in B. lra.
Qed.

Lemma rate_nonneg (games total : nat) : 0 <= rate games total.
Proof.
  unfold rate. apply Qmult_le_0_compat; [|discriminate].
  unfold Qdiv. apply Qmult_le_0_compat.
  - change 0 with (inject_Z 0). rewrite <- Zle_Qle. lia.
  - apply Qinv_le_0_compat. change 0 with (inject_Z 0).
    rewrite <- Zle_Qle. lia.
Qed.

Lemma rate_plus (a b total : nat) :
  rate a total + rate b total == rate (a + b) total.
Proof.
  unfold rate. rewrite Nat2Z.inj_add, inject_Z_plus.
  destruct total as [|n].
  - unfold Qdiv. change (/ inject_Z (Z.of_nat 0)) with 0. ring.
  - field. change 0 with (inject_Z 0). rewrite inject_Z_injective. lia.
Qed.

Lemma rate_le (a b total : nat) :
  (a <= b)%nat -> rate a total <= rate b total.
Proof.
  intros H. unfold rate. apply Qmult_le_compat_r; [|discriminate].
  unfold Qdiv. apply Qmult_le_compat_r.
  - rewrite <- Zle_Qle. lia.
  - apply Qinv_le_0_compat. change 0 with (inject_Z 0).
    rewrite <- Zle_Qle. lia.
Qed.

Lemma rate_whole (a total : nat) :
  (a <= total)%nat -> rate a total <= 100.
Proof.
  intros H. destruct total as [|n].
  - unfold rate, Qdiv. change (/ inject_Z (Z.of_nat 0)) with 0.
    rewrite Qmult_0_r. discriminate.
  - apply Qle_trans with (rate (S n) (S n)); [now apply rate_le|].
    unfold rate. apply Qle_lteq. right. field.
    change 0 with (inject_Z 0). rewrite inject_Z_injective. lia.
Qed.

(** ** The default thresholds *)

Lemma get_In (A : Type) (d : list (string * A)) (k : string) (v : A) :
  get d k = Some v -> In (k, v) d.
Proof.
  induction d as [|[k' v'] d IH]; cbn [get]; [discriminate|].
  destruct (String.eqb_spec k k') as [->|_].
  - intros [= ->]. now left.
  - intros G. right. now apply IH.
Qed.

Lemma default_table (scoring_format : string) :
  In (thresholds_of (__init__ scoring_format None))
     (map snd DEFAULT_THRESHOLDS).
Proof.
  cbn [__init__ thresholds_of]. unfold get_or at 1.
  destruct (get DEFAULT_THRESHOLDS scoring_format) as [t|] eqn:G.
  - apply get_In in G. apply (in_map snd) in G. exact G.
  - cbn. tauto.
Qed.

(** Whatever the format and the position, the bust threshold is below
    the boom threshold and neither is negative. *)
Lemma default_thresholds_apart (upper : string -> string)
  (scoring_format : string) (position : option string) :
  let t := get_thresholds upper (__init__ scoring_format None) position in
  0 <= snd t /\ snd t < fst t.
Proof.
  intros t. unfold t, get_thresholds.
  set (pos_upper := match position with
                    | Some (String c s) => upper (String c s)
                    | _ => "WR"
                    end).
  clearbody pos_upper.
  pose proof (default_table scoring_format) as T.
  set (table := thresholds_of (__init__ scoring_format None)) in *.
  clearbody table.
  assert (F : Forall (fun e : string * (Q * Q) =>
                        0 <= snd (snd e) /\ snd (snd e) < fst (snd e))
                     table
              /\ 0 <= snd (get_or table "WR" (20, 10))
                 /\ snd (get_or table "WR" (20, 10))
                    < fst (get_or table "WR" (20, 10))).
  { cbn [map DEFAULT_THRESHOLDS snd] in T.
    destruct T as [<- | [<- | [<- | []]]];
      (split; [repeat constructor; cbn; lra | cbn; lra]). }
  destruct F as [F W].
  destruct (get table pos_upper) as [thresh|] eqn:G; [|exact W].
  apply get_In in G. rewrite Forall_forall in F. exact (F _ G).
Qed.

Lemma or_number_none (b : Q) : or_number None b = b.
Proof. reflexivity. Qed.

(** ** Boom games and bust games *)

(** With the thresholds of the calculator itself, whatever the scoring
    format and the position, no game is both a boom and a bust: the two
    counts add up to no more than the games played, and the two rates,
    rounded as they are, to no more than 100.  The games played are the
    points that are not missing; without any, the result has no counts
    at all and both rates are 0. *)
Theorem boom_and_bust_games_are_apart (upper : string -> string)
  (scoring_format : string) (points_series : list (option Q))
  (position : option string) :
  let r :=
    calculate_boom_bust_rates upper (__init__ scoring_format None)
      points_series position None None in
  games_played r = List.length (dropna points_series)
  /\ match boom_games r, bust_games r with
     | Some b, Some u =>
         games_played r <> 0%nat
         /\ (b + u <= games_played r)%nat
         /\ 0 <= boom_rate r /\ 0 <= bust_rate r
         /\ boom_rate r + bust_rate r <= 100
     | None, None =>
         games_played r = 0%nat /\ boom_rate r = 0 /\ bust_rate r = 0
     | _, _ => False
     end.
Proof.
  intros r. unfold r, calculate_boom_bust_rates.
  destruct points_series as [|p0 l0]; [now cbn|].
  set (series := p0 :: l0). clearbody series.
  destruct (dropna series) as [|p l] eqn:D; [now cbn|].
  rewrite <- D. set (points := dropna series) in *.
  pose proof (default_thresholds_apart upper scoring_format position) as A.
  cbv zeta in A.
  destruct (get_thresholds upper (__init__ scoring_format None) position)
    as [boom bust].
  cbn [fst snd] in A. destruct A as [A0 A1].
  rewrite !or_number_none.
  cbn [games_played boom_games bust_games boom_rate bust_rate].
  pose proof (count_apart points boom bust A1) as C.
  split; [reflexivity|].
  split; [rewrite D; discriminate|].
  split; [exact C|].
  split; [apply round2_nonneg, rate_nonneg|].
  split; [apply round2_nonneg, rate_nonneg|].
  apply round2_shares. rewrite rate_plus. now apply rate_whole.
Qed.

(** Elite games are boom games and dud games are bust games: with the
    thresholds of the calculator itself, the elite count and rate are
    no more than the boom count and rate, and the dud count and rate no
    more than the bust count and rate, on the same points. *)
Theorem elite_and_dud_games_are_boom_and_bust_games
  (upper : string -> string) (scoring_format : string)
  (points_series : list (option Q)) (position : option string) :
  let calc := __init__ scoring_format None in
  let r :=
    calculate_boom_bust_rates upper calc points_series position None None in
  let x := calculate_elite_dud_rates upper calc points_series position in
  match elite_games x, dud_games x, boom_games r, bust_games r with
  | Some e, Some d, Some b, Some u =>
      (e <= b)%nat /\ (d <= u)%nat
      /\ elite_rate x <= boom_rate r /\ dud_rate x <= bust_rate r
  | None, None, None, None =>
      elite_rate x = 0 /\ dud_rate x = 0
      /\ boom_rate r = 0 /\ bust_rate r = 0
  | _, _, _, _ => False
  end.
Proof.
  intros calc r x. unfold r, x, calculate_boom_bust_rates,
    calculate_elite_dud_rates.
  destruct points_series as [|p0 l0]; [now cbn|].
  set (series := p0 :: l0). clearbody series.
  destruct (dropna series) as [|p l] eqn:D; [now cbn|].
  rewrite <- D. set (points := dropna series) in *.
  pose proof (default_thresholds_apart upper scoring_format position) as A.
  cbv zeta in A. fold calc in A.
  destruct (get_thresholds upper calc position) as [boom bust].
  cbn [fst snd] in A. destruct A as [A0 A1].
  rewrite !or_number_none.
  cbn [elite_games dud_games boom_games bust_games elite_rate dud_rate
       boom_rate bust_rate].
  assert (E : (count_ge points (boom * (15 # 10))
               <= count_ge points boom)%nat)
    by (apply count_ge_anti; lra).
  assert (U : (count_le points (bust * (5 # 10))
               <= count_le points bust)%nat)
    by (apply count_le_mono; lra).
  split; [exact E|]. split; [exact U|].
  split; apply round2_le, rate_le; assumption.
Qed.

(** ** The category and the risk level *)

(** The two labels never contradict each other: a player labelled
    volatile is at high risk, a player labelled steady at low risk, and
    a player whose risk is unknown is neither; the category is unknown
    exactly when the boom rate or the bust rate is missing. *)
Theorem category_agrees_with_risk_level (df : DataFrame) (r : row) :
  numeric_rates r = true ->
  (categorize df r = "Volatile" -> risk_level df r = "High Risk")
  /\ (categorize df r = "Steady" -> risk_level df r = "Low Risk")
  /\ (risk_level df r = "Unknown" ->
      categorize df r <> "Volatile" /\ categorize df r <> "Steady")
  /\ (categorize df r = "Unknown" <->
      isna (row_get df r "boom_rate") || isna (row_get df r "bust_rate")
      = true).
Proof.
  intros N. unfold numeric_rates in N.
  unfold categorize, risk_level, row_get_or, row_get, isna.
  destruct (r "boom_rate") as [|boom|sb], (r "bust_rate") as [|bust|su],
    (r "volatility_index") as [|vol|sv]; try discriminate N; clear N;
    destruct (has_col "boom_rate" df), (has_col "bust_rate" df),
      (has_col "volatility_index" df);
    cbn [isnull orb andb ge le lt gt negb];
    repeat match goal with
           | |- context [Qltb ?a ?b] =>
               let E := fresh "E" in destruct (Qltb a b) eqn:E;
               cbn [negb andb orb]
           end;
    (split; [|split; [|split; [|split]]]);
    try discriminate; try (intros _; reflexivity);
    try (intros _; split; discriminate);
    exfalso;
    repeat match goal with
           | H : Qltb _ _ = true |- _ => apply Qltb_lt in H
           | H : Qltb _ _ = false |- _ => apply Qltb_ge in H
           end; lra.
Qed.

Lemma category_agrees_with_risk_level_witness :
  categorize Profiles.swinging
    (nth 0 (rows Profiles.swinging) (fun _ => VNull)) = "Volatile"
  /\ risk_level Profiles.swinging
       (nth 0 (rows Profiles.swinging) (fun _ => VNull)) = "High Risk".
Proof.
  split; [reflexivity|].
  apply (proj1 (category_agrees_with_risk_level Profiles.swinging
                  (nth 0 (rows Profiles.swinging) (fun _ => VNull))
                  eq_refl)).
  reflexivity.
Defined.

End BoomBustFacts.

(* ================================================================= *)
(** * Properties of the target shares *)

Module TargetShareFacts.
Import Frame TargetShare FrameFacts RoundingFacts BoomBustFacts.

Lemma round3_le (x y : Q) : x <= y -> round3 x <= round3 y.
Proof.
  intros L. unfold round3. rewrite !Qred_correct.
  assert (H : (round_half_even (x * 1000) <= round_half_even (y * 1000))%Z).
  { apply round_half_even_le. apply Qmult_le_compat_r; [exact L|].
    discriminate. }
  unfold Qle. cbn [Qnum Qden]. nia.
Qed.

Lemma round2_le_100 (x : Q) : x <= 100 -> round2 x <= 100.
Proof.
  intros H. apply Qle_trans with (round2 100); [now apply round2_le|].
  rewrite round2_100. apply Qle_refl.
Qed.

Lemma share_bounds (part whole : Q) :
  0 < whole -> 0 <= part -> part <= whole ->
  0 <= round2 (part / whole * 100) <= 100.
Proof.
  intros W P L.
  assert (I : 0 < / whole) by now apply Qinv_lt_0_compat.
  assert (A : 0 <= part / whole)
    by (unfold Qdiv; apply Qmult_le_0_compat; lra).
  assert (B : part / whole <= 1).
  { apply Qle_shift_div_r; [exact W | lra]. }
  split.
  - apply round2_nonneg. nra.
  - apply round2_le_100. lra.
Qed.

(** A share of the team total is a percentage: each of the three
    shares is between 0 and 100 when the player's number is between 0
    and the team's, and it is 0 when the team's number is not
    positive. *)
Theorem shares_are_percentages (player team : Q) :
  (0 <= player -> player <= team ->
   0 <= calculate_target_share player team <= 100
   /\ 0 <= calculate_air_yards_share player team <= 100
   /\ 0 <= calculate_yac_share player team <= 100)
  /\ (team <= 0 ->
      calculate_target_share player team = 0
      /\ calculate_air_yards_share player team = 0
      /\ calculate_yac_share player team = 0).
Proof.
  unfold calculate_target_share, calculate_air_yards_share,
    calculate_yac_share.
  destruct (Qltb 0 team) eqn:T.
  - apply Qltb_lt in T. split.
    + intros P L. pose proof (share_bounds player team T P L). tauto.
    + intros L. lra.
  - apply Qltb_ge in T. split; [|tauto].
    intros _ _. repeat split; discriminate.
Qed.

Lemma Qminq_bounds (a b : Q) : Qminq a b <= a /\ Qminq a b <= b.
Proof.
  unfold Qminq. destruct (Qltb b a) eqn:E.
  - apply Qltb_lt in E. split; lra.
  - apply Qltb_ge in E. split; lra.
Qed.

Lemma Qminq_glb (a b c : Q) : c <= a -> c <= b -> c <= Qminq a b.
Proof. intros A B. unfold Qminq. now destruct (Qltb b a). Qed.

Lemma weigh_bounds (m : metrics) (acc : Q * Q) (item : string * Q) :
  (forall k x, BoomBust.get m k = Some (Some x) -> 0 <= x) ->
  (forall w, BoomBust.get m "wopr" = Some (Some w) -> w <= 1) ->
  0 <= snd item ->
  0 <= fst acc <= 100 * snd acc /\ 0 <= snd acc ->
  0 <= fst (weigh m acc item) <= 100 * snd (weigh m acc item)
  /\ 0 <= snd (weigh m acc item).
Proof.
  intros P W Wt I. destruct acc as [score ws], item as [metric weight].
  cbn [fst snd] in *. unfold weigh.
  destruct (BoomBust.get m metric) as [[x|]|] eqn:G; cbn [fst snd];
    try exact I.
  pose proof (P _ _ G) as Px.
  set (value := if String.eqb metric "racr" then Qminq (x * 50) 100
                else if String.eqb metric "wopr" then x * 100
                else Qminq x 100).
  assert (V : 0 <= value <= 100).
  { unfold value. destruct (String.eqb metric "racr").
    - split; [apply Qminq_glb; lra | apply Qminq_bounds].
    - destruct (String.eqb_spec metric "wopr") as [->|_].
      + pose proof (W _ G). lra.
      + split; [apply Qminq_glb; lra | apply Qminq_bounds]. }
  clearbody value. nra.
Qed.

(** The opportunity score is a percentage as well: between 0 and 100
    for metrics that are not negative and a WOPR of 1 at most, which is
    what [calculate_wopr] always returns; metrics that are absent or
    [None] are left out of the average, and without any metric the
    score is 0. *)
Theorem opportunity_score_is_a_percentage (m : metrics) :
  (forall target_share air_yards_share,
     calculate_wopr target_share air_yards_share <= 1)
  /\ ((forall k x, BoomBust.get m k = Some (Some x) -> 0 <= x) ->
      (forall w, BoomBust.get m "wopr" = Some (Some w) -> w <= 1) ->
      0 <= calculate_opportunity_score m <= 100)
  /\ ((forall k, In k (map fst weights) ->
         BoomBust.get m k = None \/ BoomBust.get m k = Some None) ->
      calculate_opportunity_score m = 0).
Proof.
  split; [|split].
  - intros ts ays. unfold calculate_wopr. cbv zeta.
    change 1 with (round3 1) at 2. apply round3_le, Qminq_bounds.
  - intros P W. unfold calculate_opportunity_score.
    assert (I : forall l acc,
               Forall (fun item : string * Q => 0 <= snd item) l ->
               0 <= fst acc <= 100 * snd acc /\ 0 <= snd acc ->
               0 <= fst (fold_left (weigh m) l acc)
               <= 100 * snd (fold_left (weigh m) l acc)
               /\ 0 <= snd (fold_left (weigh m) l acc)).
    { induction l as [|item l IH]; intros acc F A; [exact A|].
      cbn [fold_left]. inversion F; subst.
      apply IH; [assumption|]. now apply weigh_bounds. }
    specialize (I weights (0, 0)).
    destruct (fold_left (weigh m) weights (0, 0)) as [score ws].
    cbn [fst snd] in I.
    destruct I as [[S0 S1] W0].
    { repeat constructor; discriminate. }
    { cbn [fst snd]. split; [split|]; lra. }
    destruct (Qltb 0 ws) eqn:E.
    + apply Qltb_lt in E.
      assert (A : 0 <= score / ws).
      { unfold Qdiv. apply Qmult_le_0_compat; [exact S0|].
        apply Qinv_le_0_compat. lra. }
      assert (B : score / ws <= 100).
      { apply Qle_shift_div_r; [exact E | lra]. }
      split; [now apply round2_nonneg | now apply round2_le_100].
    + apply Qltb_ge in E. split.
      * now apply round2_nonneg.
      * apply round2_le_100. lra.
  - intros A. unfold calculate_opportunity_score.
    assert (I : forall l acc,
               (forall k, In k (map fst l) ->
                  BoomBust.get m k = None \/ BoomBust.get m k = Some None) ->
               fold_left (weigh m) l acc = acc).
    { induction l as [|[metric weight] l IH]; intros acc H; [reflexivity|].
      cbn [fold_left]. rewrite IH by (intros k K; apply H; now right).
      unfold weigh. destruct acc as [score ws].
      destruct (H metric (or_introl eq_refl)) as [-> | ->]; reflexivity. }
    rewrite (I weights (0, 0) A). reflexivity.
Qed.

Lemma shares_are_percentages_witness :
  0 <= calculate_target_share 9 36 <= 100
  /\ 0 <= calculate_air_yards_share 9 36 <= 100
  /\ 0 <= calculate_yac_share 9 36 <= 100.
Proof.
  apply (proj1 (shares_are_percentages 9 36)); unfold Qle; simpl; lia.
Defined.

Lemma opportunity_score_is_a_percentage_witness :
  0 <= calculate_opportunity_score Receivers.split_end <= 100.
Proof.
  apply (proj1 (proj2 (opportunity_score_is_a_percentage
                         Receivers.split_end))).
  - intros k x. cbn [BoomBust.get Receivers.split_end].
    repeat match goal with
           | |- context [String.eqb k ?s] =>
               destruct (String.eqb k s)
           end;
      intros [= <-]; vm_compute; discriminate.
  - intros w [= <-]. vm_compute. discriminate.
Defined.

End TargetShareFacts.
